(** * Films-Acteurs: the catalogue backend (backend/server.py)

    A shallow embedding of the FastAPI handlers of [backend/server.py], of the
    pydantic models they use and of the part of the document store they rely
    on.  The [.dict()] of a model, a [$set] payload and a query are Python
    dicts and are modelled as [gmap string _].  Every document the handlers
    write is the [.dict()] of an [Actor] or a [Movie], so a collection is
    modelled as the list of these records in insertion order, and the store
    reads a record through [dict].

    Strings are sequences of 8-bit characters, and the pattern engine of
    [Regex] folds the letters [A]-[Z] only and takes [.] for one such
    character: on ASCII text this is what the store does, and the statements
    that say which texts a pattern matches are made for ASCII text
    ([ascii_text]). *)

From Stdlib Require Import ZArith Ascii String List Bool Lia.
From stdpp Require Import base option list strings gmap fin_maps.

Open Scope string_scope.
Open Scope Z_scope.

(** ** Results of a handler *)

(** What a request can end in other than a response body. *)
Inductive error :=
| HTTPException (status_code : nat) (detail : string) (* raised by the handler *)
| RequestValidationError   (* FastAPI rejected the request: status 422 *)
| InternalServerError      (* an exception nobody catches: status 500 *)
| PatternRejected.         (* a [$regex] pattern that [Regex.compile] refuses *)

Inductive result (A : Type) :=
| Ok (a : A)
| Err (e : error).
Arguments Ok {A} a.
Arguments Err {A} e.

#[global] Instance result_ret : MRet result := fun A a => Ok a.

#[global] Instance result_bind : MBind result := fun A B k r =>
  match r with
  | Ok a => k a
  | Err e => Err e
  end.

(** The status line of a response. *)
Definition status {A} (r : result A) : option nat :=
  match r with
  | Ok _ => Some 200%nat
  | Err (HTTPException c _) => Some c
  | Err RequestValidationError => Some 422%nat
  | Err InternalServerError => Some 500%nat
  | Err PatternRejected => None
  end.

(** ** Strings *)

Definition chars (s : string) : list ascii := list_ascii_of_string s.

Definition lower (c : ascii) : ascii :=
  let n := N_of_ascii c in
  if ((65 <=? n) && (n <=? 90))%N then ascii_of_N (n + 32) else c.

(** [str.split(sep)] for a one-character separator. *)
Fixpoint split_from (sep : ascii) (cur : string) (s : string) : list string :=
  match s with
  | EmptyString => [cur]
  | String c r =>
      if Ascii.eqb c sep then cur :: split_from sep "" r
      else split_from sep (cur +:+ String c "") r
  end.

Definition split (sep : ascii) (s : string) : list string := split_from sep "" s.

(** [s.startswith(p)] *)
Definition startswith (s p : string) : bool := String.prefix p s.

(** ** The [$regex] operator

    The store compiles the pattern with a PCRE engine.  The fragment
    modelled here has literal characters, [.], a backslash in front of a
    metacharacter, the postfix operators [*], [+] and [?] on one character,
    and [|] at top level.  Any other pattern is refused by [compile]: it is
    either one the store refuses too (a pattern that holds a NUL is one), or
    one this model says nothing about. *)

Module Regex.

Inductive atom :=
| Lit (c : ascii)
| AnyChar.

Inductive quant := Once | Opt | Star | Plus.

Inductive token :=
| TAtom (a : atom)
| TQuant (q : quant)
| TBar.

Definition branch := list (atom * quant).
Definition t := list branch.

Definition metachars : list ascii := chars "\^$.|?*+()[]{}".

Definition is_meta (c : ascii) : bool := existsb (Ascii.eqb c) metachars.

Definition token_of (c : ascii) : option token :=
  if Ascii.eqb c "." then Some (TAtom AnyChar)
  else if Ascii.eqb c "|" then Some TBar
  else if Ascii.eqb c "?" then Some (TQuant Opt)
  else if Ascii.eqb c "*" then Some (TQuant Star)
  else if Ascii.eqb c "+" then Some (TQuant Plus)
  else if is_meta c then None
  else Some (TAtom (Lit c)).

Fixpoint tokens (p : list ascii) : option (list token) :=
  match p with
  | [] => Some []
  | c :: r =>
      if Ascii.eqb c "000" then None
      else if Ascii.eqb c "\" then
        match r with
        | m :: r' =>
            if is_meta m then option_map (cons (TAtom (Lit m))) (tokens r')
            else None
        | [] => None
        end
      else
        match token_of c with
        | Some tk => option_map (cons tk) (tokens r)
        | None => None
        end
  end.

Definition push (i : atom * quant) (bs : t) : t :=
  match bs with
  | b :: bs' => (i :: b) :: bs'
  | [] => [[i]]
  end.

Fixpoint branches (ts : list token) : option t :=
  match ts with
  | [] => Some [[]]
  | TBar :: r => option_map (cons []) (branches r)
  | TQuant _ :: _ => None
  | TAtom a :: r =>
      match r with
      | TQuant q :: r' => option_map (push (a, q)) (branches r')
      | _ => option_map (push (a, Once)) (branches r)
      end
  end.

(** [options] is ["i"] (ignore case) or empty. *)
Definition compile (pattern options : string) : option (bool * t) :=
  match tokens (chars pattern) with
  | Some ts =>
      match branches ts with
      | Some bs =>
          if String.eqb options "i" then Some (true, bs)
          else if String.eqb options "" then Some (false, bs)
          else None
      | None => None
      end
  | None => None
  end.

Definition atom_ok (ci : bool) (a : atom) (c : ascii) : bool :=
  match a with
  | Lit x => if ci then Ascii.eqb (lower x) (lower c) else Ascii.eqb x c
  | AnyChar => negb (Ascii.eqb c "010")
  end.

(** Does a prefix of [s] match the branch? *)
Fixpoint match_here (ci : bool) (b : branch) (s : list ascii) {struct b} : bool :=
  match b with
  | [] => true
  | (a, q) :: r =>
      let fix many (s : list ascii) : bool :=
        match_here ci r s ||
        match s with
        | c :: s' => atom_ok ci a c && many s'
        | [] => false
        end in
      match q with
      | Once =>
          match s with
          | c :: s' => atom_ok ci a c && match_here ci r s'
          | [] => false
          end
      | Opt =>
          match_here ci r s ||
          match s with
          | c :: s' => atom_ok ci a c && match_here ci r s'
          | [] => false
          end
      | Star => many s
      | Plus =>
          match s with
          | c :: s' => atom_ok ci a c && many s'
          | [] => false
          end
      end
  end.

(** The pattern is not anchored: it may match anywhere in [s]. *)
Fixpoint search_branch (ci : bool) (b : branch) (s : list ascii) : bool :=
  match_here ci b s ||
  match s with
  | _ :: s' => search_branch ci b s'
  | [] => false
  end.

Definition search (re : bool * t) (s : string) : bool :=
  existsb (fun b => search_branch (fst re) b (chars s)) (snd re).

End Regex.

(** ** Values, documents and queries *)

(** A naive [datetime]: Python counts it in microseconds. *)
Record datetime := { micros : Z }.

(** An integer where an instant is expected is that many whole milliseconds
    since the epoch. *)
Definition whole_ms (n : Z) : datetime := {| micros := 1000 * n |}.
Coercion whole_ms : Z >-> datetime.

#[global] Instance datetime_eq_dec : EqDecision datetime.
Proof. solve_decision. Defined.

(** The values a stored field or a [.dict()] entry holds: [None], [str],
    [int], a list of identifiers, a [datetime]. *)
Inductive value :=
| VNull
| VStr (s : string)
| VInt (z : Z)
| VList (l : list string)
| VDate (t : datetime).

#[global] Instance value_eq_dec : EqDecision value.
Proof. solve_decision. Defined.

(** *** What the driver can encode

    The driver turns every document, every [$set] payload and every query
    into BSON before the store sees it.  An [int] takes at most 8 bytes there:
    beyond, the encoder raises [OverflowError], which no handler catches.  A
    [datetime] is written as a whole number of milliseconds, the microseconds
    below are dropped. *)

Definition fits_int64 (z : Z) : bool := (- 2 ^ 63 <=? z) && (z <? 2 ^ 63).
Arguments fits_int64 : simpl never.

Definition value_fits (v : value) : bool :=
  match v with
  | VInt z => fits_int64 z
  | _ => true
  end.

Definition encodable (d : gmap string value) : bool :=
  bool_decide (map_Forall (fun _ v => value_fits v = true) d).

Definition truncate_ms (t : datetime) : datetime :=
  {| micros := micros t / 1000 * 1000 |}.

(** What a value reads as once it has been written and read back. *)
Definition decoded (v : value) : value :=
  match v with
  | VDate t => VDate (truncate_ms t)
  | _ => v
  end.

Abbreviation doc := (gmap string value).

Definition opt_str (o : option string) : value := from_option VStr VNull o.
Definition opt_int (o : option Z) : value := from_option VInt VNull o.

(** Python truthiness, as in [if g]. *)
Definition truthy (v : value) : bool :=
  match v with
  | VNull => false
  | VStr s => negb (String.eqb s "")
  | VInt z => negb (z =? 0)
  | VList l => negb (bool_decide (l = []))
  | VDate _ => true
  end.

(** [if search:] on an [Optional[str]] parameter. *)
Definition truthy_str (o : option string) : option string :=
  match o with
  | Some s => if String.eqb s "" then None else Some s
  | None => None
  end.

(** [if annee:] on an [Optional[int]] parameter. *)
Definition truthy_int (o : option Z) : option Z :=
  match o with
  | Some z => if z =? 0 then None else Some z
  | None => None
  end.

(** The condition a query puts on one field. *)
Inductive cond :=
| Eq (v : value)                        (* {field: v} *)
| RegexCond (pattern options : string)  (* {field: {"$regex": p, "$options": o}} *)
| Range (gte lte : option Z).           (* {field: {"$gte": a, "$lte": b}}, each key optional *)

(** The value under one key of a query dict: a condition on the field the key
    names, or, under ["$or"], a list of one-key dicts. *)
Inductive qvalue :=
| QCond (c : cond)
| QOr (alts : list (string * cond)).

Abbreviation query := (gmap string qvalue).

(** *** How the store evaluates a query *)

Definition matches_eq (v x : value) : bool :=
  bool_decide (x = v) ||
  match x, v with
  | VList l, VStr s => bool_decide (s ∈ l)
  | _, _ => false
  end.

Definition matches_regex (re : bool * Regex.t) (x : value) : bool :=
  match x with
  | VStr s => Regex.search re s
  | VList l => existsb (Regex.search re) l
  | _ => false
  end.

Definition in_range (gte lte : option Z) (a : Z) : bool :=
  match gte, lte with
  | None, None => false            (* {} is a comparison with the empty document *)
  | _, _ =>
      from_option (fun m => m <=? a) true gte &&
      from_option (fun m => a <=? m) true lte
  end.

Definition cond_holds (c : cond) (x : value) : bool :=
  match c with
  | Eq v => matches_eq v x
  | RegexCond p o =>
      match Regex.compile p o with
      | Some re => matches_regex re x
      | None => false
      end
  | Range gte lte =>
      match x with
      | VInt a => in_range gte lte a
      | _ => false
      end
  end.

(** A missing field reads as null. *)
Definition field (d : doc) (name : string) : value := default VNull (d !! name).

Definition clause_holds (d : doc) (key : string) (qv : qvalue) : bool :=
  match qv with
  | QCond c => negb (String.eqb key "$or") && cond_holds c (field d key)
  | QOr alts =>
      String.eqb key "$or" &&
      existsb (fun fc => cond_holds (snd fc) (field d (fst fc))) alts
  end.

(** The keys of a query dict are taken together: a document matches when
    every one of them holds. *)
Definition matches (q : query) (d : doc) : bool :=
  bool_decide (map_Forall (fun key qv => clause_holds d key qv = true) q).

(** The integers of a condition go through the encoder. *)
Definition cond_fits (c : cond) : bool :=
  match c with
  | Eq v => value_fits v
  | RegexCond _ _ => true
  | Range gte lte =>
      from_option fits_int64 true gte && from_option fits_int64 true lte
  end.

Definition qvalue_fits (qv : qvalue) : bool :=
  match qv with
  | QCond c => cond_fits c
  | QOr alts => forallb (fun fc => cond_fits (snd fc)) alts
  end.

Definition query_fits (q : query) : bool :=
  bool_decide (map_Forall (fun _ qv => qvalue_fits qv = true) q).

(** A query the store answers: the driver can encode it, and the store, which
    parses every pattern of a query before it looks at a document, accepts
    its patterns. *)
Definition cond_ok (c : cond) : bool :=
  cond_fits c &&
  match c with
  | RegexCond p o => bool_decide (is_Some (Regex.compile p o))
  | _ => true
  end.

Definition qvalue_ok (qv : qvalue) : bool :=
  match qv with
  | QCond c => cond_ok c
  | QOr alts => forallb (fun fc => cond_ok (snd fc)) alts
  end.

Definition query_ok (q : query) : bool :=
  bool_decide (map_Forall (fun _ qv => qvalue_ok qv = true) q).

(** ** The pydantic models *)

(** How [$set] (or a keyword argument) writes one field of a record: a key
    that is absent leaves the field as it is. *)
Definition set_str (upd : doc) (key : string) (old : string) : string :=
  match upd !! key with
  | Some (VStr s) => s
  | _ => old
  end.

Definition set_opt_str (upd : doc) (key : string) (old : option string) : option string :=
  match upd !! key with
  | Some (VStr s) => Some s
  | Some VNull => None
  | _ => old
  end.

Definition set_opt_int (upd : doc) (key : string) (old : option Z) : option Z :=
  match upd !! key with
  | Some (VInt z) => Some z
  | Some VNull => None
  | _ => old
  end.

Definition set_list (upd : doc) (key : string) (old : list string) : list string :=
  match upd !! key with
  | Some (VList l) => l
  | _ => old
  end.

Definition set_date (upd : doc) (key : string) (old : datetime) : datetime :=
  match upd !! key with
  | Some (VDate t) => t
  | _ => old
  end.

(** A record kind the store holds: [dict] is the document the store sees,
    [apply_set] is what [{"$set": upd}] does to it, and [stored] is the record
    as it reads once it has been through the encoder. *)
Class Document (T : Type) := {
  dict : T -> doc;
  apply_set : doc -> T -> T;
  stored : T -> T
}.

(** A key of a JSON request body: left out, [null], or given. *)
Inductive json_field (A : Type) :=
| Absent
| Null
| Present (a : A).
Arguments Absent {A}.
Arguments Null {A}.
Arguments Present {A} a.

(** [Optional[X] = None] *)
Definition optional {A} (f : json_field A) : option A :=
  match f with
  | Present a => Some a
  | _ => None
  end.

Module Actor.

Record t := mk {
  id : string;
  nom : string;
  age : option Z;
  nationalite : option string;
  biographie : option string;
  photo_profil : option string;
  filmographie : list string;
  created_at : datetime
}.

Definition to_dict (a : t) : doc :=
  list_to_map
    [("id", VStr (id a)); ("nom", VStr (nom a)); ("age", opt_int (age a));
     ("nationalite", opt_str (nationalite a));
     ("biographie", opt_str (biographie a));
     ("photo_profil", opt_str (photo_profil a));
     ("filmographie", VList (filmographie a));
     ("created_at", VDate (created_at a))].

Definition set (upd : doc) (a : t) : t :=
  {| id := set_str upd "id" (id a);
     nom := set_str upd "nom" (nom a);
     age := set_opt_int upd "age" (age a);
     nationalite := set_opt_str upd "nationalite" (nationalite a);
     biographie := set_opt_str upd "biographie" (biographie a);
     photo_profil := set_opt_str upd "photo_profil" (photo_profil a);
     filmographie := set_list upd "filmographie" (filmographie a);
     created_at := set_date upd "created_at" (created_at a) |}.

(** The constructor [Actor] on the keyword arguments [kw]: [nom] is required, [id] and [created_at] come from their
    default factories ([uuid4], [utcnow]) when [kw] has none. *)
(** The record as the store keeps it: [created_at] to the millisecond. *)
Definition encoded (a : t) : t :=
  {| id := id a; nom := nom a; age := age a; nationalite := nationalite a;
     biographie := biographie a; photo_profil := photo_profil a;
     filmographie := filmographie a;
     created_at := truncate_ms (created_at a) |}.

Definition init (uuid4 : string) (utcnow : datetime) (kw : doc) : option t :=
  match kw !! "nom" with
  | Some (VStr n) =>
      Some (set kw {| id := uuid4; nom := n; age := None; nationalite := None;
                      biographie := None; photo_profil := None;
                      filmographie := []; created_at := utcnow |})
  | _ => None
  end.

End Actor.

#[global] Instance Actor_document : Document Actor.t :=
  {| dict := Actor.to_dict; apply_set := Actor.set; stored := Actor.encoded |}.

Module ActorCreate.

Record t := mk {
  nom : string;
  age : option Z;
  nationalite : option string;
  biographie : option string;
  filmographie : list string
}.

(** The JSON body of a request, before validation. *)
Record body := mk_body {
  b_nom : json_field string;
  b_age : json_field Z;
  b_nationalite : json_field string;
  b_biographie : json_field string;
  b_filmographie : json_field (list string)
}.

(** [nom: str] is required and not nullable; [filmographie: List[str]] is not
    nullable and falls back on [default_factory=list]. *)
Definition validate (b : body) : option t :=
  match b_nom b, b_filmographie b with
  | Present n, Present l =>
      Some (mk n (optional (b_age b)) (optional (b_nationalite b))
               (optional (b_biographie b)) l)
  | Present n, Absent =>
      Some (mk n (optional (b_age b)) (optional (b_nationalite b))
               (optional (b_biographie b)) [])
  | _, _ => None
  end.

Definition to_dict (c : t) : doc :=
  list_to_map
    [("nom", VStr (nom c)); ("age", opt_int (age c));
     ("nationalite", opt_str (nationalite c));
     ("biographie", opt_str (biographie c));
     ("filmographie", VList (filmographie c))].

End ActorCreate.

Module Movie.

Record t := mk {
  id : string;
  nom : string;
  annee : option Z;
  genre : option string;
  description : option string;
  photo_couverture : option string;
  acteurs : list string;
  lien_externe : option string;
  created_at : datetime
}.

Definition to_dict (m : t) : doc :=
  list_to_map
    [("id", VStr (id m)); ("nom", VStr (nom m)); ("annee", opt_int (annee m));
     ("genre", opt_str (genre m));
     ("description", opt_str (description m));
     ("photo_couverture", opt_str (photo_couverture m));
     ("acteurs", VList (acteurs m));
     ("lien_externe", opt_str (lien_externe m));
     ("created_at", VDate (created_at m))].

Definition set (upd : doc) (m : t) : t :=
  {| id := set_str upd "id" (id m);
     nom := set_str upd "nom" (nom m);
     annee := set_opt_int upd "annee" (annee m);
     genre := set_opt_str upd "genre" (genre m);
     description := set_opt_str upd "description" (description m);
     photo_couverture := set_opt_str upd "photo_couverture" (photo_couverture m);
     acteurs := set_list upd "acteurs" (acteurs m);
     lien_externe := set_opt_str upd "lien_externe" (lien_externe m);
     created_at := set_date upd "created_at" (created_at m) |}.

Definition encoded (m : t) : t :=
  {| id := id m; nom := nom m; annee := annee m; genre := genre m;
     description := description m; photo_couverture := photo_couverture m;
     acteurs := acteurs m; lien_externe := lien_externe m;
     created_at := truncate_ms (created_at m) |}.

(** The constructor [Movie] on the keyword arguments [kw]. *)
Definition init (uuid4 : string) (utcnow : datetime) (kw : doc) : option t :=
  match kw !! "nom" with
  | Some (VStr n) =>
      Some (set kw {| id := uuid4; nom := n; annee := None; genre := None;
                      description := None; photo_couverture := None;
                      acteurs := []; lien_externe := None;
                      created_at := utcnow |})
  | _ => None
  end.

End Movie.

#[global] Instance Movie_document : Document Movie.t :=
  {| dict := Movie.to_dict; apply_set := Movie.set; stored := Movie.encoded |}.

Module MovieCreate.

Record t := mk {
  nom : string;
  annee : option Z;
  genre : option string;
  description : option string;
  acteurs : list string;
  lien_externe : option string
}.

Record body := mk_body {
  b_nom : json_field string;
  b_annee : json_field Z;
  b_genre : json_field string;
  b_description : json_field string;
  b_acteurs : json_field (list string);
  b_lien_externe : json_field string
}.

Definition validate (b : body) : option t :=
  match b_nom b, b_acteurs b with
  | Present n, Present l =>
      Some (mk n (optional (b_annee b)) (optional (b_genre b))
               (optional (b_description b)) l (optional (b_lien_externe b)))
  | Present n, Absent =>
      Some (mk n (optional (b_annee b)) (optional (b_genre b))
               (optional (b_description b)) [] (optional (b_lien_externe b)))
  | _, _ => None
  end.

Definition to_dict (c : t) : doc :=
  list_to_map
    [("nom", VStr (nom c)); ("annee", opt_int (annee c));
     ("genre", opt_str (genre c));
     ("description", opt_str (description c));
     ("acteurs", VList (acteurs c));
     ("lien_externe", opt_str (lien_externe c))].

End MovieCreate.

(** ** The document store

    Modelled from the spec: the store is a service outside the repository,
    and the handlers show no more of it than their calls.  Its operations
    (section 4.2: insert, find with a limit, find one, update fields, delete,
    distinct values) act on a collection.  The store adds an [_id] of its own
    to every document; no handler reads it and the models ignore it, so it is
    left out.

    The interface of the store does not fix the order in which a query
    returns the documents it matches, nor which of several matches
    [find_one], [update_one] and [delete_one] pick.  The collection is
    modelled as the list of its records in insertion order, read from the
    front, which is what the store does when nothing has been deleted in
    between. *)

Section Collection.

Context {T : Type} `{Document T}.

(** [insert_one(document)]: the encoder raises on a document it cannot
    write; the collection then keeps what it was given to the precision of
    the encoding. *)
Definition insert_one (x : T) (c : list T) : result (list T) :=
  if encodable (dict x) then Ok (c ++ [stored x])%list else Err InternalServerError.

(** [find(query)]: the cursor over the matching documents, the encoder's
    [OverflowError], or the store's refusal of a pattern. *)
Definition find (q : query) (c : list T) : result (list T) :=
  if query_ok q then Ok (List.filter (fun x => matches q (dict x)) c)
  else if query_fits q then Err PatternRejected
  else Err InternalServerError.

(** [cursor.limit(n)]: [0] is no limit, a negative [n] stands for [-n]. *)
Definition limit (n : Z) (cursor : result (list T)) : result (list T) :=
  l ← cursor; Ok (if n =? 0 then l else take (Z.abs_nat n) l).

(** [cursor.to_list(length)]: a negative [length] is a [ValueError], raised
    before the store is asked anything. *)
Definition to_list (length : Z) (cursor : result (list T)) : result (list T) :=
  if length <? 0 then Err InternalServerError
  else l ← cursor; Ok (take (Z.to_nat length) l).

(** [find_one], [update_one] and [delete_one] are only ever given
    [{"id": _}], which holds no pattern and no integer. *)
Definition find_one (q : query) (c : list T) : option T :=
  head (List.filter (fun x => matches q (dict x)) c).

(** What the store does with [{"$set": upd}]: the first match is rewritten;
    nothing is inserted when there is none. *)
Fixpoint set_first (q : query) (upd : doc) (c : list T) : list T :=
  match c with
  | [] => []
  | x :: r =>
      if matches q (dict x) then apply_set upd x :: r
      else x :: set_first q upd r
  end.

(** [update_one(q, {"$set": upd})]: the encoder raises on a payload it cannot
    write, and the store is then not asked anything. *)
Definition update_one (q : query) (upd : doc) (c : list T) : result (list T) :=
  if encodable upd then Ok (set_first q upd c) else Err InternalServerError.

(** [delete_one(q)]: the collection left, and [deleted_count]. *)
Fixpoint delete_one (q : query) (c : list T) : list T * nat :=
  match c with
  | [] => ([], 0%nat)
  | x :: r =>
      if matches q (dict x) then (r, 1%nat)
      else let '(r', n) := delete_one q r in (x :: r', n)
  end.

(** The values one stored field contributes to [distinct]: the elements of
    an array, else the value itself. *)
Definition field_values (v : value) : list value :=
  match v with
  | VList l => VStr <$> l
  | _ => [v]
  end.

Definition distinct (name : string) (c : list T) : list value :=
  remove_dups
    (flat_map (fun x => from_option field_values [] (dict x !! name)) c).

End Collection.

(** [{"id": x}] *)
Definition by_id (x : string) : query := {[ "id" := QCond (Eq (VStr x)) ]}.

(** ** The handlers *)

(** The database and the uploads directory. *)
Record world := {
  actors : list Actor.t;
  movies : list Movie.t;
  uploads : gmap string string
}.

Record UploadFile := {
  filename : string;
  content_type : option string;
  file : string
}.

(** How writing a file fails: the text of the exception, and how much of the
    content had been written by then.  [written] is [None] when the file
    could not be opened, which leaves the directory as it was; once it was
    opened for writing the file exists and holds what was copied before the
    exception. *)
Record io_failure := {
  reason :> string;
  written : option nat
}.

(** [Path.name]: the last component of a relative path. *)
Definition path_name (p : string) : string :=
  List.last
    (List.filter (fun s => negb (String.eqb s "") && negb (String.eqb s "."))
       (split "/" p)) "".

(** [save_upload_file]; [io_error] is the exception the [try] block ends in,
    if any, and [destination] is relative to the uploads directory.  Nothing
    removes a file that was opened and not written to the end. *)
Definition save_upload_file (io_error : option io_failure)
    (upload_file : UploadFile) (destination : string) (fs : gmap string string)
  : result string * gmap string string :=
  match io_error with
  | None => (Ok (path_name destination), <[destination := file upload_file]> fs)
  | Some e =>
      (Err (HTTPException 500 ("Could not save file: " +:+ e)),
       match written e with
       | None => fs
       | Some n => <[destination := String.substring 0 n (file upload_file)]> fs
       end)
  end.

(** *** Actors *)

(** [uuid4] and [utcnow] are what the two default factories return. *)
Definition create_actor (uuid4 : string) (utcnow : datetime)
    (body : ActorCreate.body) (w : world) : result Actor.t * world :=
  match ActorCreate.validate body with
  | None => (Err RequestValidationError, w)
  | Some actor_data =>
      let actor_dict := ActorCreate.to_dict actor_data in
      match Actor.init uuid4 utcnow actor_dict with
      | None => (Err InternalServerError, w)
      | Some actor =>
          match insert_one actor (actors w) with
          | Err e => (Err e, w)
          | Ok actors' =>
              (Ok actor,
               {| actors := actors'; movies := movies w; uploads := uploads w |})
          end
      end
  end.

(** [hex] is [uuid.uuid4().hex]. *)
Definition upload_actor_photo (hex : string) (io_error : option io_failure)
    (actor_id : string) (f : UploadFile) (w : world) : result string * world :=
  match content_type f with
  | None => (Err InternalServerError, w)
  | Some ct =>
      if negb (startswith ct "image/") then
        (Err (HTTPException 400 "File must be an image"), w)
      else
        let file_extension := List.last (split "." (filename f)) "" in
        let filename :=
          "actor_" +:+ actor_id +:+ "_" +:+ String.substring 0 8 hex +:+ "." +:+
          file_extension in
        match save_upload_file io_error f filename (uploads w) with
        | (Err e, fs) =>
            (Err e, {| actors := actors w; movies := movies w; uploads := fs |})
        | (Ok filename_saved, fs) =>
            let photo_url := "/uploads/" +:+ filename_saved in
            match update_one (by_id actor_id)
                    {[ "photo_profil" := VStr photo_url ]} (actors w) with
            | Err e =>
                (Err e, {| actors := actors w; movies := movies w; uploads := fs |})
            | Ok actors' =>
                (Ok photo_url,
                 {| actors := actors'; movies := movies w; uploads := fs |})
            end
        end
  end.

(** The query [get_actors] builds. *)
Definition actors_query (search nom nationalite : option string)
    (age_min age_max : option Z) : query :=
  let query : query := ∅ in
  let query :=
    match truthy_str search with
    | Some s =>
        <["$or" := QOr [("nom", RegexCond s "i");
                        ("nationalite", RegexCond s "i");
                        ("biographie", RegexCond s "i")]]> query
    | None => query
    end in
  let query :=
    match truthy_str nom with
    | Some n => <["nom" := QCond (RegexCond n "i")]> query
    | None => query
    end in
  let query :=
    match truthy_str nationalite with
    | Some n => <["nationalite" := QCond (RegexCond n "i")]> query
    | None => query
    end in
  match age_min, age_max with
  | None, None => query
  | _, _ => <["age" := QCond (Range age_min age_max)]> query
  end.

(** [Query(50, le=100)] *)
Definition limit_param (l : option Z) : result Z :=
  let n := default 50 l in
  if 100 <? n then Err RequestValidationError else Ok n.

Definition get_actors (search nom nationalite : option string)
    (age_min age_max : option Z) (limit_ : option Z) (w : world)
  : result (list Actor.t) :=
  n ← limit_param limit_;
  to_list n (limit n (find (actors_query search nom nationalite age_min age_max)
                        (actors w))).

Definition get_actor (actor_id : string) (w : world) : result Actor.t :=
  match find_one (by_id actor_id) (actors w) with
  | None => Err (HTTPException 404 "Actor not found")
  | Some actor => Ok actor
  end.

(** [{k: v for k, v in d.items() if v is not None}] *)
Definition not_none (d : doc) : doc := filter (fun kv => kv.2 <> VNull) d.

Definition update_actor (actor_id : string) (body : ActorCreate.body)
    (w : world) : result Actor.t * world :=
  match ActorCreate.validate body with
  | None => (Err RequestValidationError, w)
  | Some actor_update =>
      match find_one (by_id actor_id) (actors w) with
      | None => (Err (HTTPException 404 "Actor not found"), w)
      | Some existing =>
          let update_data := not_none (ActorCreate.to_dict actor_update) in
          match update_one (by_id actor_id) update_data (actors w) with
          | Err e => (Err e, w)
          | Ok actors' =>
              let w' := {| actors := actors'; movies := movies w;
                           uploads := uploads w |} in
              match find_one (by_id actor_id) (actors w') with
              | Some updated => (Ok updated, w')
              | None => (Err InternalServerError, w')
              end
          end
      end
  end.

Definition delete_actor (actor_id : string) (w : world) : result string * world :=
  let '(rest, deleted_count) := delete_one (by_id actor_id) (actors w) in
  let w' := {| actors := rest; movies := movies w; uploads := uploads w |} in
  if (deleted_count =? 0)%nat then
    (Err (HTTPException 404 "Actor not found"), w')
  else (Ok "Actor deleted successfully", w').

(** *** Movies *)

Definition create_movie (uuid4 : string) (utcnow : datetime)
    (body : MovieCreate.body) (w : world) : result Movie.t * world :=
  match MovieCreate.validate body with
  | None => (Err RequestValidationError, w)
  | Some movie_data =>
      let movie_dict := MovieCreate.to_dict movie_data in
      match Movie.init uuid4 utcnow movie_dict with
      | None => (Err InternalServerError, w)
      | Some movie =>
          match insert_one movie (movies w) with
          | Err e => (Err e, w)
          | Ok movies' =>
              (Ok movie,
               {| actors := actors w; movies := movies'; uploads := uploads w |})
          end
      end
  end.

Definition upload_movie_photo (hex : string) (io_error : option io_failure)
    (movie_id : string) (f : UploadFile) (w : world) : result string * world :=
  match content_type f with
  | None => (Err InternalServerError, w)
  | Some ct =>
      if negb (startswith ct "image/") then
        (Err (HTTPException 400 "File must be an image"), w)
      else
        let file_extension := List.last (split "." (filename f)) "" in
        let filename :=
          "movie_" +:+ movie_id +:+ "_" +:+ String.substring 0 8 hex +:+ "." +:+
          file_extension in
        match save_upload_file io_error f filename (uploads w) with
        | (Err e, fs) =>
            (Err e, {| actors := actors w; movies := movies w; uploads := fs |})
        | (Ok filename_saved, fs) =>
            let photo_url := "/uploads/" +:+ filename_saved in
            match update_one (by_id movie_id)
                    {[ "photo_couverture" := VStr photo_url ]} (movies w) with
            | Err e =>
                (Err e, {| actors := actors w; movies := movies w; uploads := fs |})
            | Ok movies' =>
                (Ok photo_url,
                 {| actors := actors w; movies := movies'; uploads := fs |})
            end
        end
  end.

(** The query [get_movies] builds. *)
Definition movies_query (search nom genre : option string) (annee : option Z)
  : query :=
  let query : query := ∅ in
  let query :=
    match truthy_str search with
    | Some s =>
        <["$or" := QOr [("nom", RegexCond s "i");
                        ("genre", RegexCond s "i");
                        ("description", RegexCond s "i")]]> query
    | None => query
    end in
  let query :=
    match truthy_str nom with
    | Some n => <["nom" := QCond (RegexCond n "i")]> query
    | None => query
    end in
  let query :=
    match truthy_str genre with
    | Some g => <["genre" := QCond (RegexCond g "i")]> query
    | None => query
    end in
  match truthy_int annee with
  | Some y => <["annee" := QCond (Eq (VInt y))]> query
  | None => query
  end.

Definition get_movies (search nom genre : option string) (annee : option Z)
    (limit_ : option Z) (w : world) : result (list Movie.t) :=
  n ← limit_param limit_;
  to_list n (limit n (find (movies_query search nom genre annee) (movies w))).

Definition get_movie (movie_id : string) (w : world) : result Movie.t :=
  match find_one (by_id movie_id) (movies w) with
  | None => Err (HTTPException 404 "Movie not found")
  | Some movie => Ok movie
  end.

Definition update_movie (movie_id : string) (body : MovieCreate.body)
    (w : world) : result Movie.t * world :=
  match MovieCreate.validate body with
  | None => (Err RequestValidationError, w)
  | Some movie_update =>
      match find_one (by_id movie_id) (movies w) with
      | None => (Err (HTTPException 404 "Movie not found"), w)
      | Some existing =>
          let update_data := not_none (MovieCreate.to_dict movie_update) in
          match update_one (by_id movie_id) update_data (movies w) with
          | Err e => (Err e, w)
          | Ok movies' =>
              let w' := {| actors := actors w; movies := movies';
                           uploads := uploads w |} in
              match find_one (by_id movie_id) (movies w') with
              | Some updated => (Ok updated, w')
              | None => (Err InternalServerError, w')
              end
          end
      end
  end.

Definition delete_movie (movie_id : string) (w : world) : result string * world :=
  let '(rest, deleted_count) := delete_one (by_id movie_id) (movies w) in
  let w' := {| actors := actors w; movies := rest; uploads := uploads w |} in
  if (deleted_count =? 0)%nat then
    (Err (HTTPException 404 "Movie not found"), w')
  else (Ok "Movie deleted successfully", w').

(** *** Utility endpoints *)

(** [{"genres": [g for g in genres if g]}] *)
Definition get_all_genres (w : world) : list value :=
  List.filter truthy (distinct "genre" (movies w)).

Definition get_all_nationalities (w : world) : list value :=
  List.filter truthy (distinct "nationalite" (actors w)).

(** The [$or] query of [global_search] on three fields. *)
Definition search_query (q : string) (f1 f2 f3 : string) : query :=
  {[ "$or" := QOr [(f1, RegexCond q "i"); (f2, RegexCond q "i");
                   (f3, RegexCond q "i")] ]}.

(** [q] is a required parameter. *)
Definition global_search (q : option string) (w : world)
  : result (list Actor.t * list Movie.t) :=
  match q with
  | None => Err RequestValidationError
  | Some q =>
      actors_ ← to_list 10 (limit 10
        (find (search_query q "nom" "nationalite" "biographie") (actors w)));
      movies_ ← to_list 10 (limit 10
        (find (search_query q "nom" "genre" "description") (movies w)));
      Ok (actors_, movies_)
  end.

(** ** Notions the statements below use *)

(** No record of the collection carries the identifier. *)
Definition no_actor (x : string) (w : world) : Prop :=
  Forall (fun a => Actor.id a <> x) (actors w).

Definition no_movie (x : string) (w : world) : Prop :=
  Forall (fun m => Movie.id m <> x) (movies w).

(** [needle] occurs in [hay] as a substring, letter case put aside. *)
Definition occurs_ci (needle hay : string) : Prop :=
  exists pre post,
    map lower (chars hay) = (pre ++ map lower (chars needle) ++ post)%list.

(** The same for a field that may be null. *)
Definition occurs_ci_opt (needle : string) (hay : option string) : Prop :=
  exists h, hay = Some h /\ occurs_ci needle h.

(** The text holds no character the pattern syntax gives a meaning to. *)
Definition plain (s : string) : Prop :=
  Forall (fun c => Regex.is_meta c = false) (chars s).



(** What a character without a meaning of its own compiles to. *)
Definition lit (c : ascii) : Regex.atom * Regex.quant := (Regex.Lit c, Regex.Once).

(** The store finds the pattern (options ["i"]) in the value. *)
Definition found (pattern : string) (v : value) : Prop :=
  cond_holds (RegexCond pattern "i") v = true.

(** What a photo upload answers when the file alone decides: the answer
    [upload_actor_photo] gives for an identifier no record carries. *)
Definition upload_answer (prefix : string) (hex : string)
    (io_error : option io_failure) (x : string) (f : UploadFile) : result string :=
  match content_type f with
  | None => Err InternalServerError
  | Some ct =>
      if startswith ct "image/" then
        match io_error with
        | None =>
            Ok ("/uploads/" +:+
                path_name (prefix +:+ x +:+ "_" +:+ String.substring 0 8 hex +:+
                           "." +:+ List.last (split "." (filename f)) ""))
        | Some e => Err (HTTPException 500 ("Could not save file: " +:+ e))
        end
      else Err (HTTPException 400 "File must be an image")
  end.

(** ** Sample data, after the repository's test script *)

Definition marion : Actor.t :=
  Actor.mk "a1" "Marion Cotillard" (Some 48) (Some "Francaise")
    (Some "Actrice francaise primee aux Oscars") None ["m1"] 1000.

Definition jean : Actor.t :=
  Actor.mk "a2" "Jean Dujardin" (Some 52) (Some "Francaise")
    (Some "Acteur francais connu pour The Artist") None [] 1001.

Definition la_mome : Movie.t :=
  Movie.mk "m1" "La Mome" (Some 2007) (Some "Biographie")
    (Some "Film biographique sur Edith Piaf, 2007") None ["a1"] None 1002.

Definition the_artist : Movie.t :=
  Movie.mk "m2" "The Artist" (Some 2011) (Some "Drame")
    (Some "Film muet en noir et blanc") None ["a2"] None 1003.

Definition sample : world :=
  {| actors := [marion; jean]; movies := [la_mome; the_artist]; uploads := ∅ |}.

Definition png : UploadFile :=
  {| filename := "test.png"; content_type := Some "image/png"; file := "PNG" |}.

(** A movie whose genre is the empty string, as a creation request with
    [{"nom": "Essai", "genre": ""}] stores it. *)
Definition essai : Movie.t :=
  Movie.mk "m3" "Essai" None (Some "") None None [] None 1004.

Definition sample_blank : world :=
  {| actors := [marion]; movies := [la_mome; essai]; uploads := ∅ |}.

(** Update payloads that name the record and change one field: the body
    [{"nom": "La Mome", "genre": "Drame"}] for a movie, and
    [{"nom": "Marion Cotillard", "age": 49}] for an actor. *)
Definition genre_only : MovieCreate.body :=
  MovieCreate.mk_body (Present "La Mome") Absent (Present "Drame") Absent Absent
    Absent.

Definition age_only : ActorCreate.body :=
  ActorCreate.mk_body (Present "Marion Cotillard") (Present 49) Absent Absent
    Absent.

(** [x if x is not None else y] *)
Definition or_else {A} (x y : option A) : option A :=
  match x with
  | Some _ => x
  | None => y
  end.

(** Within each collection no two records carry the same identifier. *)
Definition unique_ids (w : world) : Prop :=
  NoDup (Actor.id <$> actors w) /\ NoDup (Movie.id <$> movies w).

(** The character does not occur in the string. *)
Definition free_of (c : ascii) (s : string) : Prop := ~ In c (chars s).

(** The file name a photo upload builds: the prefix of the collection, the
    identifier, eight characters of [hex] and what follows the last dot of the
    uploaded file's name. *)
Definition upload_name (prefix hex x : string) (f : UploadFile) : string :=
  prefix +:+ x +:+ "_" +:+ String.substring 0 8 hex +:+ "." +:+
  List.last (split "." (filename f)) "".

(** * Properties *)

(** ** The pattern engine and the string helpers on examples *)

Example regex_literal : option_map (fun re => Regex.search re "Marion Cotillard")
                          (Regex.compile "marion" "i") = Some true.
Proof. reflexivity. Qed.

Example regex_case : option_map (fun re => Regex.search re "Marion Cotillard")
                       (Regex.compile "marion" "") = Some false.
Proof. reflexivity. Qed.

Example regex_star : option_map (fun re => Regex.search re "xaaab")
                       (Regex.compile "xa*b|q" "i") = Some true.
Proof. reflexivity. Qed.

Example regex_group_refused : Regex.compile "(a" "i" = None.
Proof. reflexivity. Qed.

Example regex_escaped_dot :
  option_map (fun re => (Regex.search re "v1.2", Regex.search re "v1x2"))
    (Regex.compile "1\.2" "i") = Some (true, false).
Proof. reflexivity. Qed.

Example regex_dot_not_newline :
  option_map (fun re => Regex.search re (String "010" ""))
    (Regex.compile "." "i") = Some false.
Proof. reflexivity. Qed.

Example split_extension : List.last (split "." "photo.final.png") "" = "png".
Proof. reflexivity. Qed.

Example path_name_last : path_name "actor_a1_01234567.png" = "actor_a1_01234567.png".
Proof. reflexivity. Qed.

(** ** The store *)

Lemma matches_spec (q : query) (d : doc) :
  matches q d = true <->
  forall key qv, q !! key = Some qv -> clause_holds d key qv = true.
Proof. unfold matches. rewrite bool_decide_eq_true. reflexivity. Qed.

Lemma matches_empty (d : doc) : matches ∅ d = true.
Proof. apply matches_spec. intros key qv. rewrite lookup_empty. discriminate. Qed.

Lemma matches_insert (q : query) (key : string) (qv : qvalue) (d : doc) :
  q !! key = None ->
  matches (<[key := qv]> q) d = clause_holds d key qv && matches q d.
Proof.
  intros Hnone. apply eq_true_iff_eq.
  rewrite andb_true_iff, !matches_spec. split.
  - intros Hall. split.
    + apply Hall. apply lookup_insert_eq.
    + intros k v Hk. apply Hall. rewrite lookup_insert_ne; [exact Hk|].
      intros ->. rewrite Hnone in Hk. discriminate.
  - intros [Hkey Hall] k v. rewrite lookup_insert. case_decide as Heq.
    + intros [= <-]. subst k. exact Hkey.
    + apply Hall.
Qed.

Lemma matches_singleton (key : string) (qv : qvalue) (d : doc) :
  matches {[ key := qv ]} d = clause_holds d key qv.
Proof.
  rewrite <- insert_empty, matches_insert by apply lookup_empty.
  rewrite matches_empty. apply andb_true_r.
Qed.

Lemma actor_id_field (a : Actor.t) : field (dict a) "id" = VStr (Actor.id a).
Proof. vm_compute. reflexivity. Qed.

Lemma movie_id_field (m : Movie.t) : field (dict m) "id" = VStr (Movie.id m).
Proof. vm_compute. reflexivity. Qed.

Lemma matches_eq_str (x y : string) :
  matches_eq (VStr x) (VStr y) = bool_decide (y = x).
Proof.
  unfold matches_eq. rewrite orb_false_r.
  apply bool_decide_ext. split; congruence.
Qed.

Lemma actor_by_id (x : string) (a : Actor.t) :
  matches (by_id x) (dict a) = bool_decide (Actor.id a = x).
Proof.
  unfold by_id. rewrite matches_singleton. unfold clause_holds.
  rewrite actor_id_field. simpl. apply matches_eq_str.
Qed.

Lemma movie_by_id (x : string) (m : Movie.t) :
  matches (by_id x) (dict m) = bool_decide (Movie.id m = x).
Proof.
  unfold by_id. rewrite matches_singleton. unfold clause_holds.
  rewrite movie_id_field. simpl. apply matches_eq_str.
Qed.

Section CollectionFacts.

Context {T : Type} `{Document T}.

Lemma find_one_None (q : query) (c : list T) :
  Forall (fun x => matches q (dict x) = false) c -> find_one q c = None.
Proof.
  unfold find_one. induction 1 as [|x r Hx _ IH]; simpl; [reflexivity|].
  rewrite Hx. exact IH.
Qed.

Lemma set_first_no_match (q : query) (upd : doc) (c : list T) :
  Forall (fun x => matches q (dict x) = false) c -> set_first q upd c = c.
Proof.
  induction 1 as [|x r Hx _ IH]; simpl; [reflexivity|].
  rewrite Hx, IH. reflexivity.
Qed.

Lemma delete_one_no_match (q : query) (c : list T) :
  Forall (fun x => matches q (dict x) = false) c -> delete_one q c = (c, 0%nat).
Proof.
  induction 1 as [|x r Hx _ IH]; simpl; [reflexivity|].
  rewrite Hx, IH. reflexivity.
Qed.

Lemma length_set_first (q : query) (upd : doc) (c : list T) :
  length (set_first q upd c) = length c.
Proof.
  induction c as [|x r IH]; simpl; [reflexivity|].
  destruct (matches q (dict x)); simpl; congruence.
Qed.

Lemma length_delete_one (q : query) (c : list T) :
  (length (fst (delete_one q c)) <= length c)%nat.
Proof.
  induction c as [|x r IH]; simpl; [lia|].
  destruct (matches q (dict x)); simpl; [lia|].
  destruct (delete_one q r) as [r' n]. simpl in *. lia.
Qed.

Lemma to_list_limit_Ok (n : Z) (cursor : result (list T)) (l : list T) :
  to_list n (limit n cursor) = Ok l ->
  0 <= n /\ exists l0, cursor = Ok l0 /\ l = take (Z.to_nat n) l0.
Proof.
  unfold to_list, limit. destruct (Z.ltb_spec n 0) as [|Hn]; [discriminate|].
  destruct cursor as [l0|e]; simpl; [|discriminate].
  intros [= <-]. split; [exact Hn|]. exists l0. split; [reflexivity|].
  destruct (Z.eqb_spec n 0) as [->|Hne]; [reflexivity|].
  replace (Z.abs_nat n) with (Z.to_nat n) by lia.
  apply take_idemp.
Qed.

End CollectionFacts.

(** ** The records and the documents the store holds

    On the payloads the handlers pass, [apply_set] is the merge of the
    payload's keys into the stored document. *)

Lemma lookup_other (l : list (string * value)) (k : string) :
  Forall (fun kv => kv.1 <> k) l -> (list_to_map l : doc) !! k = None.
Proof.
  intros Hl. apply not_elem_of_list_to_map_1. intros Hin.
  apply list_elem_of_fmap in Hin as ([k' v] & -> & Hin).
  rewrite Forall_forall in Hl. apply (Hl _ Hin). reflexivity.
Qed.

Lemma not_none_other (d : doc) (k : string) :
  d !! k = None -> not_none d !! k = None.
Proof. intros Hk. apply map_lookup_filter_None_2. left. exact Hk. Qed.

Ltac on_key k name :=
  destruct (decide (k = name)) as [->|?]; [vm_compute; exact eq_refl|].

Ltac no_such_key :=
  repeat constructor; simpl; congruence.

Lemma actor_set_is_merge (c : ActorCreate.t) (a : Actor.t) :
  dict (apply_set (not_none (ActorCreate.to_dict c)) a)
  = not_none (ActorCreate.to_dict c) ∪ dict a.
Proof.
  apply map_eq. intros k. rewrite lookup_union.
  destruct c as [n [y|] [t|] [b|] l];
    on_key k "id"; on_key k "nom"; on_key k "age"; on_key k "nationalite";
    on_key k "biographie"; on_key k "photo_profil"; on_key k "filmographie";
    on_key k "created_at";
    (change (dict ?x) with (Actor.to_dict x);
     unfold Actor.to_dict, ActorCreate.to_dict;
     rewrite (not_none_other _ k) by (apply lookup_other; no_such_key);
     rewrite !lookup_other by no_such_key;
     reflexivity).
Qed.

Lemma movie_set_is_merge (c : MovieCreate.t) (m : Movie.t) :
  dict (apply_set (not_none (MovieCreate.to_dict c)) m)
  = not_none (MovieCreate.to_dict c) ∪ dict m.
Proof.
  apply map_eq. intros k. rewrite lookup_union.
  destruct c as [n [y|] [g|] [d|] l [e|]];
    on_key k "id"; on_key k "nom"; on_key k "annee"; on_key k "genre";
    on_key k "description"; on_key k "photo_couverture"; on_key k "acteurs";
    on_key k "lien_externe"; on_key k "created_at";
    (change (dict ?x) with (Movie.to_dict x);
     unfold Movie.to_dict, MovieCreate.to_dict;
     rewrite (not_none_other _ k) by (apply lookup_other; no_such_key);
     rewrite !lookup_other by no_such_key;
     reflexivity).
Qed.

Lemma actor_photo_is_merge (url : string) (a : Actor.t) :
  dict (apply_set {[ "photo_profil" := VStr url ]} a)
  = ({[ "photo_profil" := VStr url ]} : doc) ∪ dict a.
Proof.
  apply map_eq. intros k. rewrite lookup_union.
  on_key k "id"; on_key k "nom"; on_key k "age"; on_key k "nationalite";
    on_key k "biographie"; on_key k "photo_profil"; on_key k "filmographie";
    on_key k "created_at".
  change (dict ?x) with (Actor.to_dict x). unfold Actor.to_dict.
  rewrite lookup_singleton_ne by congruence.
  rewrite !lookup_other by no_such_key. reflexivity.
Qed.

Lemma movie_photo_is_merge (url : string) (m : Movie.t) :
  dict (apply_set {[ "photo_couverture" := VStr url ]} m)
  = ({[ "photo_couverture" := VStr url ]} : doc) ∪ dict m.
Proof.
  apply map_eq. intros k. rewrite lookup_union.
  on_key k "id"; on_key k "nom"; on_key k "annee"; on_key k "genre";
    on_key k "description"; on_key k "photo_couverture"; on_key k "acteurs";
    on_key k "lien_externe"; on_key k "created_at".
  change (dict ?x) with (Movie.to_dict x). unfold Movie.to_dict.
  rewrite lookup_singleton_ne by congruence.
  rewrite !lookup_other by no_such_key. reflexivity.
Qed.

(** *** What the encoder keeps *)

Lemma truncate_whole_ms (n : Z) : truncate_ms n = n.
Proof.
  unfold truncate_ms, whole_ms. cbn [micros]. f_equal.
  rewrite (Z.mul_comm 1000 n), Z.div_mul by lia. reflexivity.
Qed.

Lemma truncate_ms_idem (t : datetime) :
  truncate_ms (truncate_ms t) = truncate_ms t.
Proof.
  unfold truncate_ms. cbn [micros]. f_equal.
  rewrite Z.div_mul by lia. reflexivity.
Qed.

Ltac decoded_on_key k name :=
  destruct (decide (k = name)) as [->|?];
  [vm_compute;
   repeat match goal with
          | |- context [match ?o with Some _ => _ | None => _ end] => destruct o
          end;
   reflexivity|].

(** The record the store keeps is the record whose document is the document
    written and read back. *)
Lemma actor_encoded_dict (a : Actor.t) : dict (stored a) = decoded <$> dict a.
Proof.
  apply map_eq. intros k. rewrite lookup_fmap.
  destruct a as [i n y t b p l [d]].
  decoded_on_key k "id"; decoded_on_key k "nom"; decoded_on_key k "age";
    decoded_on_key k "nationalite"; decoded_on_key k "biographie";
    decoded_on_key k "photo_profil"; decoded_on_key k "filmographie";
    decoded_on_key k "created_at".
  change (dict ?x) with (Actor.to_dict x).
  unfold stored, Actor_document, Actor.encoded, Actor.to_dict.
  rewrite !lookup_other by no_such_key. reflexivity.
Qed.

Lemma movie_encoded_dict (m : Movie.t) : dict (stored m) = decoded <$> dict m.
Proof.
  apply map_eq. intros k. rewrite lookup_fmap.
  destruct m as [i n y g d p l e [t]].
  decoded_on_key k "id"; decoded_on_key k "nom"; decoded_on_key k "annee";
    decoded_on_key k "genre"; decoded_on_key k "description";
    decoded_on_key k "photo_couverture"; decoded_on_key k "acteurs";
    decoded_on_key k "lien_externe"; decoded_on_key k "created_at".
  change (dict ?x) with (Movie.to_dict x).
  unfold stored, Movie_document, Movie.encoded, Movie.to_dict.
  rewrite !lookup_other by no_such_key. reflexivity.
Qed.

(** *** What the encoder accepts *)

Lemma encodable_spec (d : doc) :
  encodable d = true <-> forall k v, d !! k = Some v -> value_fits v = true.
Proof. unfold encodable. rewrite bool_decide_eq_true. reflexivity. Qed.

Lemma encodable_photo (key url : string) :
  encodable {[ key := VStr url ]} = true.
Proof.
  apply encodable_spec. intros k v Hk.
  apply lookup_singleton_Some in Hk as [_ <-]. reflexivity.
Qed.

Lemma opt_str_fits (o : option string) : value_fits (opt_str o) = true.
Proof. destruct o; reflexivity. Qed.

Lemma opt_int_fits (o : option Z) :
  value_fits (opt_int o) = from_option fits_int64 true o.
Proof. destruct o; reflexivity. Qed.

Ltac fits_on_key k name Hage :=
  destruct (decide (k = name)) as [->|?];
  [let Hk := fresh "Hk" in
   intros Hk; vm_compute in Hk; injection Hk as <-;
   first [reflexivity | exact Hage]|].

(** A stored record is refused by the encoder for its integer alone. *)
Lemma actor_encodable (a : Actor.t) :
  encodable (dict a) = from_option fits_int64 true (Actor.age a).
Proof.
  apply eq_true_iff_eq. rewrite encodable_spec. split.
  - intros Hall. rewrite <- opt_int_fits. apply (Hall "age").
    vm_compute. reflexivity.
  - intros Hage k v.
    destruct a as [i n [y|] [t|] [b|] [p|] l d]; cbn [Actor.age from_option] in Hage;
      fits_on_key k "id" Hage; fits_on_key k "nom" Hage;
      fits_on_key k "age" Hage; fits_on_key k "nationalite" Hage;
      fits_on_key k "biographie" Hage; fits_on_key k "photo_profil" Hage;
      fits_on_key k "filmographie" Hage; fits_on_key k "created_at" Hage;
      (change (dict ?x) with (Actor.to_dict x); unfold Actor.to_dict;
       rewrite lookup_other by no_such_key; discriminate).
Qed.

Lemma movie_encodable (m : Movie.t) :
  encodable (dict m) = from_option fits_int64 true (Movie.annee m).
Proof.
  apply eq_true_iff_eq. rewrite encodable_spec. split.
  - intros Hall. rewrite <- opt_int_fits. apply (Hall "annee").
    vm_compute. reflexivity.
  - intros Hage k v.
    destruct m as [i n [y|] [g|] [d|] [p|] l [e|] t];
      cbn [Movie.annee from_option] in Hage;
      fits_on_key k "id" Hage; fits_on_key k "nom" Hage;
      fits_on_key k "annee" Hage; fits_on_key k "genre" Hage;
      fits_on_key k "description" Hage; fits_on_key k "photo_couverture" Hage;
      fits_on_key k "acteurs" Hage; fits_on_key k "lien_externe" Hage;
      fits_on_key k "created_at" Hage;
      (change (dict ?x) with (Movie.to_dict x); unfold Movie.to_dict;
       rewrite lookup_other by no_such_key; discriminate).
Qed.

(** So is an update payload. *)
Lemma actor_update_encodable (c : ActorCreate.t) :
  encodable (not_none (ActorCreate.to_dict c))
  = from_option fits_int64 true (ActorCreate.age c).
Proof.
  apply eq_true_iff_eq. rewrite encodable_spec. split.
  - intros Hall. destruct c as [n [z|] t b l]; [|reflexivity].
    apply (Hall "age" (VInt z)). apply map_lookup_filter_Some. split.
    + vm_compute. reflexivity.
    + discriminate.
  - intros Hage k v Hk. apply map_lookup_filter_Some in Hk as [Hk _].
    revert Hk.
    destruct c as [n [y|] [t|] [b|] l];
      cbn [ActorCreate.age from_option] in Hage;
      fits_on_key k "nom" Hage; fits_on_key k "age" Hage;
      fits_on_key k "nationalite" Hage; fits_on_key k "biographie" Hage;
      fits_on_key k "filmographie" Hage;
      (unfold ActorCreate.to_dict; rewrite lookup_other by no_such_key;
       discriminate).
Qed.

Lemma movie_update_encodable (c : MovieCreate.t) :
  encodable (not_none (MovieCreate.to_dict c))
  = from_option fits_int64 true (MovieCreate.annee c).
Proof.
  apply eq_true_iff_eq. rewrite encodable_spec. split.
  - intros Hall. destruct c as [n [z|] g d l e]; [|reflexivity].
    apply (Hall "annee" (VInt z)). apply map_lookup_filter_Some. split.
    + vm_compute. reflexivity.
    + discriminate.
  - intros Hage k v Hk. apply map_lookup_filter_Some in Hk as [Hk _].
    revert Hk.
    destruct c as [n [y|] [g|] [d|] l [e|]];
      cbn [MovieCreate.annee from_option] in Hage;
      fits_on_key k "nom" Hage; fits_on_key k "annee" Hage;
      fits_on_key k "genre" Hage; fits_on_key k "description" Hage;
      fits_on_key k "acteurs" Hage; fits_on_key k "lien_externe" Hage;
      (unfold MovieCreate.to_dict; rewrite lookup_other by no_such_key;
       discriminate).
Qed.

Lemma update_one_Ok {T : Type} `{Document T} (q : query) (upd : doc)
    (c : list T) :
  encodable upd = true -> update_one q upd c = Ok (set_first q upd c).
Proof. intros Hupd. unfold update_one. rewrite Hupd. reflexivity. Qed.

Lemma update_one_Err {T : Type} `{Document T} (q : query) (upd : doc)
    (c : list T) :
  encodable upd = false -> update_one q upd c = Err InternalServerError.
Proof. intros Hupd. unfold update_one. rewrite Hupd. reflexivity. Qed.

Lemma no_actor_no_match (x : string) (w : world) :
  no_actor x w ->
  Forall (fun a => matches (by_id x) (dict a) = false) (actors w).
Proof.
  unfold no_actor. intros Hno. eapply Forall_impl; [exact Hno|]. intros a Ha.
  rewrite actor_by_id. apply bool_decide_eq_false. exact Ha.
Qed.

Lemma no_movie_no_match (x : string) (w : world) :
  no_movie x w ->
  Forall (fun m => matches (by_id x) (dict m) = false) (movies w).
Proof.
  unfold no_movie. intros Hno. eapply Forall_impl; [exact Hno|]. intros m Hm.
  rewrite movie_by_id. apply bool_decide_eq_false. exact Hm.
Qed.

Lemma world_eta (w : world) :
  {| actors := actors w; movies := movies w; uploads := uploads w |} = w.
Proof. destruct w. reflexivity. Qed.

(** ** Listing: the limit *)

Lemma bind_Ok {A B : Type} (a : A) (k : A -> result B) : Ok a ≫= k = k a.
Proof. reflexivity. Qed.

Lemma limit_param_Ok (lim : option Z) (n : Z) :
  limit_param lim = Ok n <-> n = default 50 lim /\ n <= 100.
Proof.
  unfold limit_param. destruct (Z.ltb_spec 100 (default 50 lim)); split.
  - discriminate.
  - intros [-> ?]. lia.
  - intros [= <-]. split; [reflexivity | assumption].
  - intros [-> _]. reflexivity.
Qed.

Lemma limit_param_above (lim : option Z) :
  100 < default 50 lim -> limit_param lim = Err RequestValidationError.
Proof.
  intros Hn. unfold limit_param.
  destruct (Z.ltb_spec 100 (default 50 lim)); [reflexivity | lia].
Qed.

Lemma cursor_length {T : Type} (n : Z) (cursor : result (list T)) (l : list T) :
  to_list n (limit n cursor) = Ok l -> Z.of_nat (length l) <= n.
Proof.
  intros Hl. apply to_list_limit_Ok in Hl as (Hn & l0 & _ & ->).
  rewrite length_take. lia.
Qed.

Lemma actors_query_none : actors_query None None None None None = ∅.
Proof. reflexivity. Qed.

Lemma movies_query_none : movies_query None None None None = ∅.
Proof. reflexivity. Qed.

Lemma query_ok_empty : query_ok ∅ = true.
Proof. reflexivity. Qed.

Lemma find_all {T : Type} `{Document T} (c : list T) : find ∅ c = Ok c.
Proof.
  unfold find. rewrite query_ok_empty. f_equal.
  induction c as [|x r IH]; simpl; [reflexivity|].
  rewrite matches_empty, IH. reflexivity.
Qed.

Lemma cursor_all {T : Type} (n : Z) (c : list T) :
  0 <= n -> to_list n (limit n (Ok c)) = Ok (take (Z.to_nat n) c).
Proof.
  intros Hn. unfold to_list, limit.
  destruct (Z.ltb_spec n 0); [lia|]. simpl. f_equal.
  destruct (Z.eqb_spec n 0) as [->|Hne]; [reflexivity|].
  replace (Z.abs_nat n) with (Z.to_nat n) by lia. apply take_idemp.
Qed.

(** C2, as the code has it.  A list request whose limit is above 100 is
    refused with a validation error (status 422) and returns no record: the
    limit is not clamped.  Any list that is returned has at most as many
    records as the limit in force, which is the requested one, or 50 when none
    is given, and is at most 100.  A request without filters whose limit is
    between 0 and 100 returns the first records of the collection, up to the
    limit. *)
Theorem list_limit (search nom nationalite genre : option string)
    (age_min age_max annee lim : option Z) (w : world) :
  (100 < default 50 lim ->
   get_actors search nom nationalite age_min age_max lim w
     = Err RequestValidationError /\
   get_movies search nom genre annee lim w = Err RequestValidationError) /\
  (forall l, get_actors search nom nationalite age_min age_max lim w = Ok l ->
             Z.of_nat (length l) <= default 50 lim <= 100) /\
  (forall l, get_movies search nom genre annee lim w = Ok l ->
             Z.of_nat (length l) <= default 50 lim <= 100) /\
  (0 <= default 50 lim <= 100 ->
   get_actors None None None None None lim w
     = Ok (take (Z.to_nat (default 50 lim)) (actors w)) /\
   get_movies None None None None lim w
     = Ok (take (Z.to_nat (default 50 lim)) (movies w))).
Proof.
  unfold get_actors, get_movies. split; [|split; [|split]].
  - intros Hn. rewrite limit_param_above by assumption. split; reflexivity.
  - intros l Hl.
    destruct (limit_param lim) as [n|e] eqn:Hlim; [|discriminate Hl].
    apply limit_param_Ok in Hlim as [-> Hle]. split; [|exact Hle].
    eapply cursor_length. exact Hl.
  - intros l Hl.
    destruct (limit_param lim) as [n|e] eqn:Hlim; [|discriminate Hl].
    apply limit_param_Ok in Hlim as [-> Hle]. split; [|exact Hle].
    eapply cursor_length. exact Hl.
  - intros [Hlo Hhi].
    assert (Hlim : limit_param lim = Ok (default 50 lim))
      by (apply limit_param_Ok; split; [reflexivity | exact Hhi]).
    rewrite Hlim, !bind_Ok, actors_query_none, movies_query_none, !find_all.
    split; apply cursor_all; exact Hlo.
Qed.

Lemma list_limit_witness :
  get_actors None None None None None (Some 101) sample
    = Err RequestValidationError /\
  Z.of_nat (length [marion]) <= 1 <= 100 /\
  Z.of_nat (length [la_mome]) <= 50 <= 100 /\
  get_movies None None None None None sample = Ok [la_mome; the_artist].
Proof.
  split; [|split; [|split]].
  - destruct (list_limit None None None None None None None (Some 101) sample)
      as (Habove & _).
    apply Habove. simpl. lia.
  - destruct (list_limit (Some "marion") None None None None None None
                (Some 1) sample) as (_ & Hlen & _).
    apply (Hlen [marion]). vm_compute. reflexivity.
  - destruct (list_limit None None None (Some "bio") None None (Some 2007)
                None sample) as (_ & _ & Hlen & _).
    apply (Hlen [la_mome]). vm_compute. reflexivity.
  - destruct (list_limit None None None None None None None None sample)
      as (_ & _ & _ & Hall).
    apply Hall. simpl. lia.
Defined.

(** C2 as stated fails: a limit of 101 is not clamped to 100, the request
    is refused. *)
Lemma limit_101_is_refused :
  get_actors None None None None None (Some 101) sample
    = Err RequestValidationError /\
  get_movies None None None None (Some 101) sample
    = Err RequestValidationError /\
  ~ (exists l, get_actors None None None None None (Some 101) sample = Ok l).
Proof.
  split; [reflexivity|]. split; [reflexivity|].
  intros [l Hl]. discriminate Hl.
Qed.

(** ** An identifier that names no record *)

Lemma get_actor_unknown (x : string) (w : world) :
  no_actor x w -> get_actor x w = Err (HTTPException 404 "Actor not found").
Proof.
  intros Hno. unfold get_actor.
  rewrite find_one_None by (apply no_actor_no_match; exact Hno). reflexivity.
Qed.

Lemma get_movie_unknown (x : string) (w : world) :
  no_movie x w -> get_movie x w = Err (HTTPException 404 "Movie not found").
Proof.
  intros Hno. unfold get_movie.
  rewrite find_one_None by (apply no_movie_no_match; exact Hno). reflexivity.
Qed.

Lemma delete_actor_unknown (x : string) (w : world) :
  no_actor x w ->
  delete_actor x w = (Err (HTTPException 404 "Actor not found"), w).
Proof.
  intros Hno. unfold delete_actor.
  rewrite delete_one_no_match by (apply no_actor_no_match; exact Hno).
  simpl. rewrite world_eta. reflexivity.
Qed.

Lemma delete_movie_unknown (x : string) (w : world) :
  no_movie x w ->
  delete_movie x w = (Err (HTTPException 404 "Movie not found"), w).
Proof.
  intros Hno. unfold delete_movie.
  rewrite delete_one_no_match by (apply no_movie_no_match; exact Hno).
  simpl. rewrite world_eta. reflexivity.
Qed.

Lemma update_actor_unknown (x : string) (body : ActorCreate.body) (w : world) :
  no_actor x w ->
  update_actor x body w =
    (Err (match ActorCreate.validate body with
          | Some _ => HTTPException 404 "Actor not found"
          | None => RequestValidationError
          end), w).
Proof.
  intros Hno. unfold update_actor.
  destruct (ActorCreate.validate body); [|reflexivity].
  rewrite find_one_None by (apply no_actor_no_match; exact Hno). reflexivity.
Qed.

Lemma update_movie_unknown (x : string) (body : MovieCreate.body) (w : world) :
  no_movie x w ->
  update_movie x body w =
    (Err (match MovieCreate.validate body with
          | Some _ => HTTPException 404 "Movie not found"
          | None => RequestValidationError
          end), w).
Proof.
  intros Hno. unfold update_movie.
  destruct (MovieCreate.validate body); [|reflexivity].
  rewrite find_one_None by (apply no_movie_no_match; exact Hno). reflexivity.
Qed.

Lemma upload_answer_not_404 (prefix hex : string) (io_error : option io_failure)
    (x : string) (f : UploadFile) :
  status (upload_answer prefix hex io_error x f) <> Some 404%nat.
Proof.
  unfold upload_answer. destruct (content_type f) as [ct|]; [|discriminate].
  destruct (startswith ct "image/"); [|discriminate].
  destruct io_error; discriminate.
Qed.

Lemma upload_actor_photo_unknown (hex : string) (io_error : option io_failure)
    (x : string) (f : UploadFile) (w : world) :
  no_actor x w ->
  fst (upload_actor_photo hex io_error x f w)
    = upload_answer "actor_" hex io_error x f /\
  actors (snd (upload_actor_photo hex io_error x f w)) = actors w /\
  movies (snd (upload_actor_photo hex io_error x f w)) = movies w.
Proof.
  intros Hno. unfold upload_actor_photo, upload_answer, save_upload_file.
  destruct (content_type f) as [ct|]; [|auto].
  destruct (startswith ct "image/"); simpl; [|auto].
  destruct io_error; [simpl; auto|].
  rewrite update_one_Ok by apply encodable_photo.
  rewrite set_first_no_match by (apply no_actor_no_match; exact Hno). auto.
Qed.

Lemma upload_movie_photo_unknown (hex : string) (io_error : option io_failure)
    (x : string) (f : UploadFile) (w : world) :
  no_movie x w ->
  fst (upload_movie_photo hex io_error x f w)
    = upload_answer "movie_" hex io_error x f /\
  actors (snd (upload_movie_photo hex io_error x f w)) = actors w /\
  movies (snd (upload_movie_photo hex io_error x f w)) = movies w.
Proof.
  intros Hno. unfold upload_movie_photo, upload_answer, save_upload_file.
  destruct (content_type f) as [ct|]; [|auto].
  destruct (startswith ct "image/"); simpl; [|auto].
  destruct io_error; [simpl; auto|].
  rewrite update_one_Ok by apply encodable_photo.
  rewrite set_first_no_match by (apply no_movie_no_match; exact Hno). auto.
Qed.

(** C3, as the code has it.  For an identifier that names no record: get and
    delete answer 404; update answers 404 when its body is valid (and 422,
    before any lookup, when it is not); all three leave the store as it was.
    A photo upload never answers 404: it answers with the photo URL for an
    image, 400 for another media type, 500 when the file cannot be saved, and
    in every case it changes neither collection.  No record is created. *)
Theorem unknown_identifier (x : string) (w : world)
    (body_a : ActorCreate.body) (body_m : MovieCreate.body)
    (hex : string) (io_error : option io_failure) (f : UploadFile) :
  (no_actor x w ->
   get_actor x w = Err (HTTPException 404 "Actor not found") /\
   delete_actor x w = (Err (HTTPException 404 "Actor not found"), w) /\
   update_actor x body_a w =
     (Err (match ActorCreate.validate body_a with
           | Some _ => HTTPException 404 "Actor not found"
           | None => RequestValidationError
           end), w) /\
   status (fst (upload_actor_photo hex io_error x f w)) <> Some 404%nat /\
   fst (upload_actor_photo hex io_error x f w)
     = upload_answer "actor_" hex io_error x f /\
   actors (snd (upload_actor_photo hex io_error x f w)) = actors w /\
   movies (snd (upload_actor_photo hex io_error x f w)) = movies w) /\
  (no_movie x w ->
   get_movie x w = Err (HTTPException 404 "Movie not found") /\
   delete_movie x w = (Err (HTTPException 404 "Movie not found"), w) /\
   update_movie x body_m w =
     (Err (match MovieCreate.validate body_m with
           | Some _ => HTTPException 404 "Movie not found"
           | None => RequestValidationError
           end), w) /\
   status (fst (upload_movie_photo hex io_error x f w)) <> Some 404%nat /\
   fst (upload_movie_photo hex io_error x f w)
     = upload_answer "movie_" hex io_error x f /\
   actors (snd (upload_movie_photo hex io_error x f w)) = actors w /\
   movies (snd (upload_movie_photo hex io_error x f w)) = movies w).
Proof.
  split.
  - intros Ha.
    split; [apply get_actor_unknown; exact Ha|].
    split; [apply delete_actor_unknown; exact Ha|].
    split; [apply update_actor_unknown; exact Ha|].
    destruct (upload_actor_photo_unknown hex io_error x f w Ha) as (-> & -> & ->).
    split; [apply upload_answer_not_404 | auto].
  - intros Hm.
    split; [apply get_movie_unknown; exact Hm|].
    split; [apply delete_movie_unknown; exact Hm|].
    split; [apply update_movie_unknown; exact Hm|].
    destruct (upload_movie_photo_unknown hex io_error x f w Hm) as (-> & -> & ->).
    split; [apply upload_answer_not_404 | auto].
Qed.

Lemma unknown_identifier_witness :
  no_actor "ghost" sample /\ no_movie "ghost" sample /\
  get_actor "ghost" sample = Err (HTTPException 404 "Actor not found") /\
  delete_movie "ghost" sample
    = (Err (HTTPException 404 "Movie not found"), sample) /\
  update_actor "ghost" age_only sample
    = (Err (HTTPException 404 "Actor not found"), sample) /\
  fst (upload_actor_photo "0123456789abcdef" None "ghost" png sample)
    = upload_answer "actor_" "0123456789abcdef" None "ghost" png.
Proof.
  assert (Ha : no_actor "ghost" sample)
    by (unfold no_actor; simpl; repeat constructor; discriminate).
  assert (Hm : no_movie "ghost" sample)
    by (unfold no_movie; simpl; repeat constructor; discriminate).
  destruct (unknown_identifier "ghost" sample age_only genre_only
              "0123456789abcdef" None png) as (Hactor & Hmovie).
  destruct (Hactor Ha) as (Hget & _ & Hupd & _ & Hup & _).
  destruct (Hmovie Hm) as (_ & Hdel & _).
  repeat split; assumption.
Defined.

(** C3 as stated fails on the photo upload: for an identifier no actor
    carries it answers 200 with a URL, not 404. *)
Lemma upload_unknown_actor_is_200 :
  no_actor "ghost" sample /\
  fst (upload_actor_photo "0123456789abcdef" None "ghost" png sample)
    = Ok "/uploads/actor_ghost_01234567.png" /\
  status (fst (upload_actor_photo "0123456789abcdef" None "ghost" png sample))
    = Some 200%nat.
Proof.
  split; [unfold no_actor; simpl; repeat constructor; discriminate|].
  split; vm_compute; reflexivity.
Qed.

(** ** Creation *)

Lemma actor_init_create (uuid4 : string) (utcnow : datetime) (c : ActorCreate.t) :
  Actor.init uuid4 utcnow (ActorCreate.to_dict c) =
  Some (Actor.mk uuid4 (ActorCreate.nom c) (ActorCreate.age c)
          (ActorCreate.nationalite c) (ActorCreate.biographie c) None
          (ActorCreate.filmographie c) utcnow).
Proof.
  destruct c as [n [a|] [t|] [b|] l]; vm_compute; reflexivity.
Qed.

Lemma movie_init_create (uuid4 : string) (utcnow : datetime) (c : MovieCreate.t) :
  Movie.init uuid4 utcnow (MovieCreate.to_dict c) =
  Some (Movie.mk uuid4 (MovieCreate.nom c) (MovieCreate.annee c)
          (MovieCreate.genre c) (MovieCreate.description c) None
          (MovieCreate.acteurs c) (MovieCreate.lien_externe c) utcnow).
Proof.
  destruct c as [n [y|] [g|] [d|] l [e|]]; vm_compute; reflexivity.
Qed.

Lemma create_actor_world (uuid4 : string) (utcnow : datetime)
    (b : ActorCreate.body) (w : world) :
  create_actor uuid4 utcnow b w =
  match ActorCreate.validate b with
  | Some c =>
      let a := Actor.mk uuid4 (ActorCreate.nom c) (ActorCreate.age c)
                 (ActorCreate.nationalite c) (ActorCreate.biographie c) None
                 (ActorCreate.filmographie c) utcnow in
      if from_option fits_int64 true (ActorCreate.age c) then
        (Ok a, {| actors := actors w ++ [Actor.encoded a]; movies := movies w;
                  uploads := uploads w |})
      else (Err InternalServerError, w)
  | None => (Err RequestValidationError, w)
  end.
Proof.
  unfold create_actor. destruct (ActorCreate.validate b) as [c|]; [|reflexivity].
  rewrite actor_init_create. cbv zeta. unfold insert_one.
  rewrite actor_encodable. cbn [Actor.age].
  destruct (from_option fits_int64 true (ActorCreate.age c)); reflexivity.
Qed.

Lemma create_movie_world (uuid4 : string) (utcnow : datetime)
    (b : MovieCreate.body) (w : world) :
  create_movie uuid4 utcnow b w =
  match MovieCreate.validate b with
  | Some c =>
      let m := Movie.mk uuid4 (MovieCreate.nom c) (MovieCreate.annee c)
                 (MovieCreate.genre c) (MovieCreate.description c) None
                 (MovieCreate.acteurs c) (MovieCreate.lien_externe c) utcnow in
      if from_option fits_int64 true (MovieCreate.annee c) then
        (Ok m, {| actors := actors w; movies := movies w ++ [Movie.encoded m];
                  uploads := uploads w |})
      else (Err InternalServerError, w)
  | None => (Err RequestValidationError, w)
  end.
Proof.
  unfold create_movie. destruct (MovieCreate.validate b) as [c|]; [|reflexivity].
  rewrite movie_init_create. cbv zeta. unfold insert_one.
  rewrite movie_encodable. cbn [Movie.annee].
  destruct (from_option fits_int64 true (MovieCreate.annee c)); reflexivity.
Qed.

(** C4, as the code has it.  A creation payload whose name is missing or
    null is refused with a validation error (status 422) and nothing is
    stored.  A payload whose name is a string, the empty string included, and
    whose list of identifiers is not null, passes validation.  When its
    integer (the age, the year) is absent, null or fits in 8 bytes, the record
    gets the fresh identifier and the current time, no photo, the payload's
    fields (an empty list when the payload has none); it is returned as such
    and appended to its collection with its time cut to the millisecond.
    When the integer does not fit in 8 bytes the request ends in status 500
    and nothing is stored. *)
Theorem create_requires_name (uuid4 : string) (utcnow : datetime)
    (ba : ActorCreate.body) (bm : MovieCreate.body) (w : world) :
  ((forall n, ActorCreate.b_nom ba <> Present n) ->
   create_actor uuid4 utcnow ba w = (Err RequestValidationError, w)) /\
  ((forall n, MovieCreate.b_nom bm <> Present n) ->
   create_movie uuid4 utcnow bm w = (Err RequestValidationError, w)) /\
  (forall n, ActorCreate.b_nom ba = Present n ->
             ActorCreate.b_filmographie ba <> Null ->
   let a := Actor.mk uuid4 n (optional (ActorCreate.b_age ba))
              (optional (ActorCreate.b_nationalite ba))
              (optional (ActorCreate.b_biographie ba)) None
              (default [] (optional (ActorCreate.b_filmographie ba))) utcnow in
   create_actor uuid4 utcnow ba w =
     if from_option fits_int64 true (optional (ActorCreate.b_age ba)) then
       (Ok a, {| actors := actors w ++ [Actor.encoded a]; movies := movies w;
                 uploads := uploads w |})
     else (Err InternalServerError, w)) /\
  (forall n, MovieCreate.b_nom bm = Present n ->
             MovieCreate.b_acteurs bm <> Null ->
   let m := Movie.mk uuid4 n (optional (MovieCreate.b_annee bm))
              (optional (MovieCreate.b_genre bm))
              (optional (MovieCreate.b_description bm)) None
              (default [] (optional (MovieCreate.b_acteurs bm)))
              (optional (MovieCreate.b_lien_externe bm)) utcnow in
   create_movie uuid4 utcnow bm w =
     if from_option fits_int64 true (optional (MovieCreate.b_annee bm)) then
       (Ok m, {| actors := actors w; movies := movies w ++ [Movie.encoded m];
                 uploads := uploads w |})
     else (Err InternalServerError, w)).
Proof.
  split; [|split; [|split]].
  - intros Hnom. unfold create_actor, ActorCreate.validate.
    destruct (ActorCreate.b_nom ba) as [| |n]; try reflexivity.
    exfalso. exact (Hnom n eq_refl).
  - intros Hnom. unfold create_movie, MovieCreate.validate.
    destruct (MovieCreate.b_nom bm) as [| |n]; try reflexivity.
    exfalso. exact (Hnom n eq_refl).
  - intros n Hnom Hlist. rewrite create_actor_world.
    unfold ActorCreate.validate. rewrite Hnom.
    destruct (ActorCreate.b_filmographie ba) as [| |l]; try congruence;
      reflexivity.
  - intros n Hnom Hlist. rewrite create_movie_world.
    unfold MovieCreate.validate. rewrite Hnom.
    destruct (MovieCreate.b_acteurs bm) as [| |l]; try congruence;
      reflexivity.
Qed.

Lemma create_requires_name_witness :
  create_actor "u1" 7
    (ActorCreate.mk_body Null (Present 30) Absent Absent Absent) sample
    = (Err RequestValidationError, sample) /\
  create_movie "u2" {| micros := 8765 |}
    (MovieCreate.mk_body (Present "Inception") (Present 2010) Absent Null
       Absent Absent) sample
    = (Ok (Movie.mk "u2" "Inception" (Some 2010) None None None [] None
             {| micros := 8765 |}),
       {| actors := actors sample;
          movies := movies sample ++
                    [Movie.mk "u2" "Inception" (Some 2010) None None None [] None 8];
          uploads := uploads sample |}) /\
  create_actor "u1" 7
    (ActorCreate.mk_body (Present "Ada") (Present (2 ^ 63)) Absent Absent Absent)
    sample
    = (Err InternalServerError, sample).
Proof.
  split; [|split].
  - destruct (create_requires_name "u1" 7
                (ActorCreate.mk_body Null (Present 30) Absent Absent Absent)
                (MovieCreate.mk_body Absent Absent Absent Absent Absent Absent)
                sample) as (Hrefused & _).
    apply Hrefused. simpl. discriminate.
  - destruct (create_requires_name "u2" {| micros := 8765 |}
                (ActorCreate.mk_body Null (Present 30) Absent Absent Absent)
                (MovieCreate.mk_body (Present "Inception") (Present 2010) Absent
                   Null Absent Absent)
                sample) as (_ & _ & _ & Hcreated).
    apply (Hcreated "Inception"); simpl; [reflexivity | discriminate].
  - destruct (create_requires_name "u1" 7
                (ActorCreate.mk_body (Present "Ada") (Present (2 ^ 63)) Absent
                   Absent Absent)
                (MovieCreate.mk_body Absent Absent Absent Absent Absent Absent)
                sample) as (_ & _ & Hcreated & _).
    apply (Hcreated "Ada"); simpl; [reflexivity | discriminate].
Defined.

(** C4 as stated fails on the empty name: it is a string like any other, the
    record is created and stored. *)
Lemma empty_name_is_created :
  create_actor "u1" 7
    (ActorCreate.mk_body (Present "") Absent Absent Absent Absent) sample
  = (Ok (Actor.mk "u1" "" None None None None [] 7),
     {| actors := [marion; jean; Actor.mk "u1" "" None None None None [] 7];
        movies := movies sample; uploads := uploads sample |}).
Proof. vm_compute. reflexivity. Qed.

(** ** The distinct-value listings *)

Lemma movie_genre_values (m : Movie.t) :
  from_option field_values [] (dict m !! "genre") = [opt_str (Movie.genre m)].
Proof. destruct m as [? ? ? [g|] ? ? ? ? ?]; vm_compute; reflexivity. Qed.

Lemma actor_nationalite_values (a : Actor.t) :
  from_option field_values [] (dict a !! "nationalite")
  = [opt_str (Actor.nationalite a)].
Proof. destruct a as [? ? ? [n|] ? ? ? ?]; vm_compute; reflexivity. Qed.

Lemma truthy_opt_str (o : option string) (v : value) :
  v = opt_str o /\ truthy v = true <->
  exists s, v = VStr s /\ s <> "" /\ o = Some s.
Proof.
  split.
  - intros [-> Ht]. destruct o as [s|]; simpl in Ht; [|discriminate].
    exists s. split; [reflexivity|]. split; [|reflexivity].
    intros ->. discriminate.
  - intros (s & -> & Hs & ->). split; [reflexivity|]. simpl.
    destruct (String.eqb_spec s ""); [contradiction | reflexivity].
Qed.

Lemma listing_spec {T : Type} `{Document T} (name : string)
    (get : T -> option string) (c : list T) :
  (forall x, from_option field_values [] (dict x !! name) = [opt_str (get x)]) ->
  NoDup (List.filter truthy (distinct name c)) /\
  forall v, In v (List.filter truthy (distinct name c)) <->
            exists s, v = VStr s /\ s <> "" /\ exists x, In x c /\ get x = Some s.
Proof.
  intros Hfield. split.
  - apply NoDup_ListNoDup, List.NoDup_filter, NoDup_ListNoDup, NoDup_remove_dups.
  - intros v. rewrite filter_In. unfold distinct.
    rewrite <- list_elem_of_In, elem_of_remove_dups, list_elem_of_In, in_flat_map.
    split.
    + intros [(x & Hx & Hv) Ht]. rewrite Hfield in Hv.
      destruct Hv as [Hv|[]]. symmetry in Hv.
      destruct (proj1 (truthy_opt_str (get x) v) (conj Hv Ht)) as (s & -> & Hs & Hg).
      exists s. repeat split; try assumption. exists x. split; assumption.
    + intros (s & -> & Hs & x & Hx & Hg).
      destruct (proj2 (truthy_opt_str (get x) (VStr s))) as [Hv Ht].
      { exists s. repeat split; assumption. }
      split; [|exact Ht]. exists x. split; [exact Hx|].
      rewrite Hfield. left. symmetry. exact Hv.
Qed.

(** C5, as the code has it.  The genre listing holds every value once, and
    holds exactly the genres of the stored movies that are neither null nor
    the empty string; likewise the nationality listing over the actors. *)
Theorem distinct_listings (w : world) :
  (NoDup (get_all_genres w) /\
   forall v, In v (get_all_genres w) <->
     exists g, v = VStr g /\ g <> "" /\
               exists m, In m (movies w) /\ Movie.genre m = Some g) /\
  (NoDup (get_all_nationalities w) /\
   forall v, In v (get_all_nationalities w) <->
     exists n, v = VStr n /\ n <> "" /\
               exists a, In a (actors w) /\ Actor.nationalite a = Some n).
Proof.
  split.
  - apply (listing_spec "genre" Movie.genre). apply movie_genre_values.
  - apply (listing_spec "nationalite" Actor.nationalite).
    apply actor_nationalite_values.
Qed.

Lemma distinct_listings_witness :
  In (VStr "Drame") (get_all_genres sample) /\
  get_all_nationalities sample = [VStr "Francaise"].
Proof.
  split.
  - destruct (distinct_listings sample) as ((_ & Hgenres) & _).
    apply Hgenres. exists "Drame". split; [reflexivity|].
    split; [discriminate|]. exists the_artist.
    split; [simpl; auto | reflexivity].
  - vm_compute. reflexivity.
Defined.

(** C5 as stated fails on the empty string: it is a stored, non-null genre
    and the listing leaves it out. *)
Lemma empty_genre_is_left_out :
  In essai (movies sample_blank) /\ Movie.genre essai = Some "" /\
  create_movie "m3" 1004
    (MovieCreate.mk_body (Present "Essai") Absent (Present "") Absent Absent
       Absent)
    {| actors := [marion]; movies := [la_mome]; uploads := ∅ |}
  = (Ok essai, sample_blank) /\
  get_all_genres sample_blank = [VStr "Biographie"] /\
  ~ In (VStr "") (get_all_genres sample_blank).
Proof.
  split; [simpl; auto|]. split; [reflexivity|].
  split; [vm_compute; reflexivity|].
  assert (Hg : get_all_genres sample_blank = [VStr "Biographie"])
    by (vm_compute; reflexivity).
  split; [exact Hg|]. rewrite Hg. intros [Hin|[]]. discriminate Hin.
Qed.

(** ** The queries of the list handlers *)

Lemma clause_holds_cond (d : doc) (key : string) (c : cond) :
  String.eqb key "$or" = false ->
  clause_holds d key (QCond c) = cond_holds c (field d key).
Proof. intros Hkey. unfold clause_holds. rewrite Hkey. reflexivity. Qed.

Lemma clause_holds_or (d : doc) (alts : list (string * cond)) :
  clause_holds d "$or" (QOr alts)
  = existsb (fun fc => cond_holds (snd fc) (field d (fst fc))) alts.
Proof. reflexivity. Qed.

(** A document matches the query of [get_actors] when it passes the search,
    if one is given, and each filter that is given. *)
Lemma actors_query_matches (search nom nationalite : option string)
    (age_min age_max : option Z) (d : doc) :
  matches (actors_query search nom nationalite age_min age_max) d =
  match age_min, age_max with
  | None, None => true
  | _, _ => cond_holds (Range age_min age_max) (field d "age")
  end &&
  (from_option (fun n => cond_holds (RegexCond n "i") (field d "nationalite"))
     true (truthy_str nationalite) &&
   (from_option (fun n => cond_holds (RegexCond n "i") (field d "nom"))
      true (truthy_str nom) &&
    from_option
      (fun s => cond_holds (RegexCond s "i") (field d "nom") ||
                (cond_holds (RegexCond s "i") (field d "nationalite") ||
                 cond_holds (RegexCond s "i") (field d "biographie")))
      true (truthy_str search))).
Proof.
  unfold actors_query.
  destruct (truthy_str search) as [s|], (truthy_str nom) as [n|],
    (truthy_str nationalite) as [t|], age_min as [lo|], age_max as [hi|];
    rewrite ?matches_insert by (vm_compute; reflexivity);
    rewrite ?matches_empty, ?clause_holds_or, ?clause_holds_cond by reflexivity;
    simpl; rewrite ?orb_false_r, ?andb_true_r; reflexivity.
Qed.

Lemma movies_query_matches (search nom genre : option string)
    (annee : option Z) (d : doc) :
  matches (movies_query search nom genre annee) d =
  from_option (fun y => cond_holds (Eq (VInt y)) (field d "annee"))
    true (truthy_int annee) &&
  (from_option (fun g => cond_holds (RegexCond g "i") (field d "genre"))
     true (truthy_str genre) &&
   (from_option (fun n => cond_holds (RegexCond n "i") (field d "nom"))
      true (truthy_str nom) &&
    from_option
      (fun s => cond_holds (RegexCond s "i") (field d "nom") ||
                (cond_holds (RegexCond s "i") (field d "genre") ||
                 cond_holds (RegexCond s "i") (field d "description")))
      true (truthy_str search))).
Proof.
  unfold movies_query.
  destruct (truthy_str search) as [s|], (truthy_str nom) as [n|],
    (truthy_str genre) as [g|], (truthy_int annee) as [y|];
    rewrite ?matches_insert by (vm_compute; reflexivity);
    rewrite ?matches_empty, ?clause_holds_or, ?clause_holds_cond by reflexivity;
    simpl; rewrite ?orb_false_r, ?andb_true_r; reflexivity.
Qed.

Lemma actor_fields (a : Actor.t) :
  field (dict a) "nom" = VStr (Actor.nom a) /\
  field (dict a) "nationalite" = opt_str (Actor.nationalite a) /\
  field (dict a) "biographie" = opt_str (Actor.biographie a) /\
  field (dict a) "age" = opt_int (Actor.age a).
Proof. destruct a. repeat split; vm_compute; reflexivity. Qed.

Lemma movie_fields (m : Movie.t) :
  field (dict m) "nom" = VStr (Movie.nom m) /\
  field (dict m) "genre" = opt_str (Movie.genre m) /\
  field (dict m) "description" = opt_str (Movie.description m) /\
  field (dict m) "annee" = opt_int (Movie.annee m).
Proof. destruct m. repeat split; vm_compute; reflexivity. Qed.

(** ** The age range *)

Lemma range_holds (lo hi : option Z) (age : option Z) :
  match lo, hi with
  | None, None => true
  | _, _ => cond_holds (Range lo hi) (opt_int age)
  end = true <->
  (lo = None /\ hi = None) \/
  exists x, age = Some x /\
            (forall l, lo = Some l -> l <= x) /\
            (forall h, hi = Some h -> x <= h).
Proof.
  split.
  - destruct lo as [l|], hi as [h|]; try (left; split; reflexivity);
      destruct age as [x|]; simpl; try discriminate;
      rewrite ?andb_true_iff, ?andb_true_r, ?Z.leb_le; intros Hx;
      right; exists x; (split; [reflexivity|]);
      split; intros ? [= <-]; tauto.
  - intros [[-> ->]|(x & -> & Hlo & Hhi)]; [reflexivity|].
    destruct lo as [l|], hi as [h|]; simpl;
      rewrite ?andb_true_iff, ?andb_true_r, ?Z.leb_le; auto.
Qed.

(** C6.  In the query of the actor listing the age range stands beside the
    other filters: an actor matches when it matches the query without the
    range and, unless both bounds are absent, has an age that is at least the
    minimum, if one is given, and at most the maximum, if one is given (an
    actor without an age matches no range).  An actor aged 48 is listed for
    the range 45 to 55 and is not listed for a maximum of 40. *)
Theorem age_range_filter (search nom nationalite : option string)
    (age_min age_max : option Z) (a : Actor.t) :
  (matches (actors_query search nom nationalite age_min age_max) (dict a) = true
   <->
   matches (actors_query search nom nationalite None None) (dict a) = true /\
   ((age_min = None /\ age_max = None) \/
    exists x, Actor.age a = Some x /\
              (forall lo, age_min = Some lo -> lo <= x) /\
              (forall hi, age_max = Some hi -> x <= hi))) /\
  (Actor.age a = Some 48 ->
   matches (actors_query None None None (Some 45) (Some 55)) (dict a) = true /\
   matches (actors_query None None None None (Some 40)) (dict a) = false) /\
  get_actors None None None (Some 45) (Some 55) None sample = Ok [marion; jean] /\
  get_actors None None None None (Some 40) None sample = Ok [].
Proof.
  destruct (actor_fields a) as (_ & _ & _ & Hage).
  split; [|split; [|split; vm_compute; reflexivity]].
  - rewrite !actors_query_matches, Hage. cbv beta iota.
    rewrite !andb_true_iff, range_holds. tauto.
  - intros H48. rewrite !actors_query_matches, Hage, H48. split; reflexivity.
Qed.

Lemma age_range_filter_witness :
  matches (actors_query None None None (Some 45) (Some 55)) (dict marion) = true /\
  matches (actors_query None None None None (Some 40)) (dict marion) = false /\
  matches (actors_query (Some "marion") None None (Some 48) None) (dict marion)
    = true.
Proof.
  destruct (age_range_filter (Some "marion") None None (Some 48) None marion)
    as (Hiff & H48 & _).
  destruct (H48 eq_refl) as [Hin Hout].
  split; [exact Hin|]. split; [exact Hout|].
  apply Hiff. split; [vm_compute; reflexivity|].
  right. exists 48. split; [reflexivity|].
  split; [intros lo [= <-]; lia | discriminate].
Defined.

(** ** The year filter *)

Lemma eq_int_holds (y : Z) (o : option Z) :
  cond_holds (Eq (VInt y)) (opt_int o) = true <-> o = Some y.
Proof.
  unfold cond_holds, matches_eq.
  destruct o as [z|]; simpl; rewrite ?orb_false_r, ?bool_decide_eq_true.
  - split; congruence.
  - split; discriminate.
Qed.

Lemma truthy_int_Some (y : Z) : truthy_int (Some y) = if y =? 0 then None else Some y.
Proof. reflexivity. Qed.

Lemma movies_query_year_key (search nom genre : option string) (annee : option Z) :
  movies_query search nom genre annee !! "annee"
  = (fun y => QCond (Eq (VInt y))) <$> truthy_int annee.
Proof.
  unfold movies_query.
  destruct (truthy_str search), (truthy_str nom), (truthy_str genre),
    (truthy_int annee); vm_compute; reflexivity.
Qed.

(** C10.  A year of 0 is dropped by [if annee:]: the query built is the one
    built without a year, it has no entry for the year, the listing is the
    same, and with no other filter every movie matches.  For any other year
    the query asks for equality: a movie matches when it matches the query
    without the year and its stored year is that very number. *)
Theorem year_zero_is_no_filter (search nom genre : option string) (y : Z)
    (lim : option Z) (m : Movie.t) (w : world) :
  movies_query search nom genre (Some 0) = movies_query search nom genre None /\
  movies_query search nom genre (Some 0) !! "annee" = None /\
  get_movies search nom genre (Some 0) lim w
    = get_movies search nom genre None lim w /\
  matches (movies_query None None None (Some 0)) (dict m) = true /\
  (y <> 0 ->
   movies_query search nom genre (Some y) !! "annee"
     = Some (QCond (Eq (VInt y))) /\
   (matches (movies_query search nom genre (Some y)) (dict m) = true <->
    matches (movies_query search nom genre None) (dict m) = true /\
    Movie.annee m = Some y)).
Proof.
  split; [reflexivity|]. split; [apply movies_query_year_key|].
  split; [reflexivity|]. split; [apply matches_empty|].
  intros Hy. split.
  - rewrite movies_query_year_key, truthy_int_Some.
    destruct (Z.eqb_spec y 0); [contradiction | reflexivity].
  - destruct (movie_fields m) as (_ & _ & _ & Hannee).
    rewrite !movies_query_matches, truthy_int_Some, Hannee.
    destruct (Z.eqb_spec y 0); [contradiction|]. cbn [from_option].
    rewrite andb_true_iff, eq_int_holds. tauto.
Qed.

Lemma year_zero_is_no_filter_witness :
  get_movies None None None (Some 0) None sample = Ok [la_mome; the_artist] /\
  (matches (movies_query None None None (Some 2007)) (dict la_mome) = true /\
   Movie.annee la_mome = Some 2007) /\
  ~ matches (movies_query None None None (Some 2007)) (dict the_artist) = true.
Proof.
  destruct (year_zero_is_no_filter None None None 2007 None la_mome sample)
    as (_ & _ & Hlist & _ & Hyear).
  destruct (year_zero_is_no_filter None None None 2007 None the_artist sample)
    as (_ & _ & _ & _ & Hother).
  split; [rewrite Hlist; vm_compute; reflexivity|]. split.
  - split; [|reflexivity]. apply Hyear; [lia|].
    split; [vm_compute; reflexivity | reflexivity].
  - intros Hm. apply Hother in Hm; [|lia]. destruct Hm as [_ Hy].
    discriminate Hy.
Defined.

(** ** Search and filters together *)

(** Whatever a listing returns was found by the store for the query. *)
Lemma listed_matches {T : Type} `{Document T} (n : Z) (q : query)
    (c l : list T) (x : T) :
  to_list n (limit n (find q c)) = Ok l -> In x l ->
  In x c /\ matches q (dict x) = true.
Proof.
  intros Hl Hx. apply to_list_limit_Ok in Hl as (_ & l0 & Hfind & ->).
  unfold find in Hfind.
  destruct (query_ok q); [|destruct (query_fits q); discriminate Hfind].
  injection Hfind as <-.
  apply (filter_In (fun y => matches q (dict y))).
  apply list_elem_of_In. eapply subseteq_take. apply list_elem_of_In. exact Hx.
Qed.

Lemma get_actors_matches (search nom nationalite : option string)
    (age_min age_max lim : option Z) (w : world) (l : list Actor.t)
    (a : Actor.t) :
  get_actors search nom nationalite age_min age_max lim w = Ok l -> In a l ->
  In a (actors w) /\
  matches (actors_query search nom nationalite age_min age_max) (dict a) = true.
Proof.
  unfold get_actors. intros Hl Ha.
  destruct (limit_param lim) as [n|e]; [|discriminate Hl].
  rewrite bind_Ok in Hl. eapply listed_matches; eassumption.
Qed.

Lemma get_movies_matches (search nom genre : option string)
    (annee lim : option Z) (w : world) (l : list Movie.t) (m : Movie.t) :
  get_movies search nom genre annee lim w = Ok l -> In m l ->
  In m (movies w) /\
  matches (movies_query search nom genre annee) (dict m) = true.
Proof.
  unfold get_movies. intros Hl Hm.
  destruct (limit_param lim) as [n|e]; [|discriminate Hl].
  rewrite bind_Ok in Hl. eapply listed_matches; eassumption.
Qed.

Lemma range_bounds (lo hi : option Z) (age : option Z) :
  match lo, hi with
  | None, None => true
  | _, _ => cond_holds (Range lo hi) (opt_int age)
  end = true ->
  (forall l, lo = Some l -> exists x, age = Some x /\ l <= x) /\
  (forall h, hi = Some h -> exists x, age = Some x /\ x <= h).
Proof.
  intros Hr. apply range_holds in Hr as [[-> ->]|(x & -> & Hlo & Hhi)].
  - split; discriminate.
  - split; intros b Hb; exists x; split; auto.
Qed.

(** C8.  A parameter counts as supplied the way the handlers test it
    ([if search:], [if nom:], [if annee:]): present and not the empty string,
    not 0 for the year; the age bounds count as soon as they are present.
    Every record a listing returns is a stored record that passes the search
    on one of its three fields, when a search is supplied, and passes every
    filter that is supplied as well. *)
Theorem search_and_filters (search nom nationalite genre : option string)
    (age_min age_max annee lim : option Z) (w : world) :
  (forall l a,
     get_actors search nom nationalite age_min age_max lim w = Ok l -> In a l ->
     In a (actors w) /\
     (forall s, truthy_str search = Some s ->
        found s (VStr (Actor.nom a)) \/
        found s (opt_str (Actor.nationalite a)) \/
        found s (opt_str (Actor.biographie a))) /\
     (forall n, truthy_str nom = Some n -> found n (VStr (Actor.nom a))) /\
     (forall n, truthy_str nationalite = Some n ->
        found n (opt_str (Actor.nationalite a))) /\
     (forall lo, age_min = Some lo -> exists x, Actor.age a = Some x /\ lo <= x) /\
     (forall hi, age_max = Some hi -> exists x, Actor.age a = Some x /\ x <= hi)) /\
  (forall l m,
     get_movies search nom genre annee lim w = Ok l -> In m l ->
     In m (movies w) /\
     (forall s, truthy_str search = Some s ->
        found s (VStr (Movie.nom m)) \/
        found s (opt_str (Movie.genre m)) \/
        found s (opt_str (Movie.description m))) /\
     (forall n, truthy_str nom = Some n -> found n (VStr (Movie.nom m))) /\
     (forall g, truthy_str genre = Some g -> found g (opt_str (Movie.genre m))) /\
     (forall y, truthy_int annee = Some y -> Movie.annee m = Some y)).
Proof.
  unfold found. split.
  - intros l a Hl Ha.
    destruct (get_actors_matches _ _ _ _ _ _ _ _ _ Hl Ha) as [Hin Hq].
    split; [exact Hin|].
    destruct (actor_fields a) as (Hnom & Hnat & Hbio & Hage).
    rewrite actors_query_matches, Hnom, Hnat, Hbio, Hage in Hq.
    apply andb_true_iff in Hq as [Hrange Hq].
    apply andb_true_iff in Hq as [Hfnat Hq].
    apply andb_true_iff in Hq as [Hfnom Hsearch].
    apply range_bounds in Hrange as [Hlo Hhi].
    split; [|split; [|split; [|split]]]; try assumption.
    + intros s Hs. rewrite Hs in Hsearch. cbn [from_option] in Hsearch.
      rewrite !orb_true_iff in Hsearch. exact Hsearch.
    + intros n Hn. rewrite Hn in Hfnom. exact Hfnom.
    + intros n Hn. rewrite Hn in Hfnat. exact Hfnat.
  - intros l m Hl Hm.
    destruct (get_movies_matches _ _ _ _ _ _ _ _ Hl Hm) as [Hin Hq].
    split; [exact Hin|].
    destruct (movie_fields m) as (Hnom & Hgenre & Hdesc & Hannee).
    rewrite movies_query_matches, Hnom, Hgenre, Hdesc, Hannee in Hq.
    apply andb_true_iff in Hq as [Hyear Hq].
    apply andb_true_iff in Hq as [Hfgenre Hq].
    apply andb_true_iff in Hq as [Hfnom Hsearch].
    split; [|split; [|split]].
    + intros s Hs. rewrite Hs in Hsearch. cbn [from_option] in Hsearch.
      rewrite !orb_true_iff in Hsearch. exact Hsearch.
    + intros n Hn. rewrite Hn in Hfnom. exact Hfnom.
    + intros g Hg. rewrite Hg in Hfgenre. exact Hfgenre.
    + intros y Hy. rewrite Hy in Hyear. apply eq_int_holds. exact Hyear.
Qed.

Lemma search_and_filters_witness :
  found "cotillard" (VStr (Actor.nom marion)) \/
  found "cotillard" (opt_str (Actor.nationalite marion)) \/
  found "cotillard" (opt_str (Actor.biographie marion)).
Proof.
  destruct (search_and_filters (Some "cotillard") (Some "marion") (Some "fran")
              None (Some 45) (Some 55) None None sample) as (Hactors & _).
  destruct (Hactors [marion] marion) as (_ & Hsearch & _).
  - vm_compute. reflexivity.
  - simpl. auto.
  - apply (Hsearch "cotillard"). vm_compute. reflexivity.
Defined.

(** ** Patterns without metacharacters *)

Lemma not_meta (c : ascii) :
  Regex.is_meta c = false ->
  Ascii.eqb c "\" = false /\ Regex.token_of c = Some (Regex.TAtom (Regex.Lit c)).
Proof.
  intros Hc. pose proof Hc as Hall.
  unfold Regex.is_meta, Regex.metachars in Hall.
  cbn [chars list_ascii_of_string existsb] in Hall.
  rewrite !orb_false_iff in Hall.
  destruct Hall as (Hb & _ & _ & Hdot & Hbar & Hq & Hs & Hp & _).
  split; [exact Hb|].
  unfold Regex.token_of. rewrite Hdot, Hbar, Hq, Hs, Hp, Hc. reflexivity.
Qed.

Lemma tokens_plain (cs : list ascii) :
  Forall (fun c => Regex.is_meta c = false) cs -> ~ In "000"%char cs ->
  Regex.tokens cs = Some (map (fun c => Regex.TAtom (Regex.Lit c)) cs).
Proof.
  induction 1 as [|c r Hc _ IH]; intros Hnul; [reflexivity|].
  destruct (not_meta c Hc) as [Hb Htok].
  cbn [Regex.tokens map].
  destruct (Ascii.eqb_spec c "000") as [->|_];
    [exfalso; apply Hnul; left; reflexivity|].
  rewrite Hb, Htok, IH; [reflexivity|].
  intros Hin. apply Hnul. right. exact Hin.
Qed.

(** A pattern that holds a NUL is refused. *)
Lemma tokens_nul (cs : list ascii) : In "000"%char cs -> Regex.tokens cs = None.
Proof.
  assert (Haux : forall n cs, (length cs <= n)%nat -> In "000"%char cs ->
                              Regex.tokens cs = None).
  { clear cs. induction n as [|n IH]; intros cs Hlen Hin.
    - destruct cs; [destruct Hin | simpl in Hlen; lia].
    - destruct cs as [|c r]; [destruct Hin|]. cbn [Regex.tokens].
      destruct (Ascii.eqb_spec c "000") as [->|Hc]; [reflexivity|].
      destruct Hin as [Heq|Hin]; [congruence|].
      simpl in Hlen. destruct (Ascii.eqb c "\").
      + destruct r as [|m r']; [reflexivity|].
        destruct (Regex.is_meta m) eqn:Hm; [|reflexivity].
        destruct Hin as [->|Hin]; [discriminate Hm|].
        simpl in Hlen. rewrite (IH r'); [reflexivity | lia | exact Hin].
      + destruct (Regex.token_of c); [|reflexivity].
        rewrite (IH r); [reflexivity | lia | exact Hin]. }
  apply (Haux (length cs)). lia.
Qed.

Lemma compile_nul (s options : string) :
  ~ free_of "000" s -> Regex.compile s options = None.
Proof.
  intros Hnul. unfold Regex.compile. rewrite tokens_nul; [reflexivity|].
  unfold free_of in Hnul.
  destruct (in_dec ascii_dec "000"%char (chars s)) as [Hin|Hout];
    [exact Hin | contradiction].
Qed.


Lemma branches_lits (cs : list ascii) :
  Regex.branches (map (fun c => Regex.TAtom (Regex.Lit c)) cs)
  = Some [map lit cs].
Proof.
  induction cs as [|c r IH]; [reflexivity|].
  cbn [map Regex.branches]. destruct r as [|c' r'].
  - reflexivity.
  - cbn [map] in *. rewrite IH. reflexivity.
Qed.

Lemma compile_plain (s : string) :
  plain s -> free_of "000" s ->
  Regex.compile s "i" = Some (true, [map lit (chars s)]).
Proof.
  intros Hs Hnul. unfold Regex.compile.
  rewrite (tokens_plain _ Hs Hnul), branches_lits. reflexivity.
Qed.

Lemma match_here_lits (cs hs : list ascii) :
  Regex.match_here true (map lit cs) hs = true <->
  exists post, map lower hs = (map lower cs ++ post)%list.
Proof.
  revert hs. induction cs as [|c r IH]; intros hs.
  - simpl. split; [intros _; exists (map lower hs); reflexivity | reflexivity].
  - cbn [map lit Regex.match_here]. destruct hs as [|h t].
    + split; [discriminate | intros [post Hp]; discriminate Hp].
    + rewrite andb_true_iff, IH. cbn [Regex.atom_ok map].
      rewrite Ascii.eqb_eq. split.
      * intros [Hc [post Hp]]. exists post. simpl. rewrite Hc, Hp. reflexivity.
      * intros [post Hp]. simpl in Hp. injection Hp as Hc Hp.
        split; [congruence | exists post; exact Hp].
Qed.

Lemma search_branch_lits (cs hs : list ascii) :
  Regex.search_branch true (map lit cs) hs = true <->
  exists pre post, map lower hs = (pre ++ map lower cs ++ post)%list.
Proof.
  induction hs as [|h t IH]; cbn [Regex.search_branch];
    rewrite orb_true_iff, match_here_lits.
  - split.
    + intros [[post Hp]|Hf]; [|discriminate Hf]. exists [], post. exact Hp.
    + intros (pre & post & Hp). left. destruct pre as [|x pre].
      * exists post. exact Hp.
      * discriminate Hp.
  - rewrite IH. split.
    + intros [[post Hp]|(pre & post & Hp)].
      * exists [], post. exact Hp.
      * exists (lower h :: pre), post. simpl. rewrite Hp. reflexivity.
    + intros (pre & post & Hp). destruct pre as [|x pre].
      * left. exists post. exact Hp.
      * right. simpl in Hp. injection Hp as _ Hp. exists pre, post. exact Hp.
Qed.

(** For a plain text the store's search is the substring test. *)
Lemma found_plain (s : string) (v : string) :
  plain s -> free_of "000" s -> found s (VStr v) <-> occurs_ci s v.
Proof.
  intros Hs Hnul. unfold found, cond_holds. rewrite (compile_plain s Hs Hnul).
  unfold matches_regex, Regex.search. cbn [fst snd existsb].
  rewrite orb_false_r. apply search_branch_lits.
Qed.

Lemma found_plain_opt (s : string) (o : option string) :
  plain s -> free_of "000" s -> found s (opt_str o) <-> occurs_ci_opt s o.
Proof.
  intros Hs Hnul. unfold occurs_ci_opt. destruct o as [v|]; simpl.
  - rewrite (found_plain s v Hs Hnul). split.
    + intros Hv. exists v. split; [reflexivity | exact Hv].
    + intros (h & [= <-] & Hv). exact Hv.
  - unfold found, cond_holds. rewrite (compile_plain s Hs Hnul). simpl. split.
    + discriminate.
    + intros (h & Hh & _). discriminate Hh.
Qed.

Lemma query_ok_singleton (key : string) (qv : qvalue) :
  query_ok {[ key := qv ]} = qvalue_ok qv.
Proof.
  unfold query_ok.
  destruct (qvalue_ok qv) eqn:Hqv;
    [apply bool_decide_eq_true | apply bool_decide_eq_false];
    rewrite map_Forall_singleton; congruence.
Qed.

Lemma find_Ok {T : Type} `{Document T} (q : query) (c : list T) :
  query_ok q = true ->
  find q c = Ok (List.filter (fun x => matches q (dict x)) c).
Proof. intros Hq. unfold find. rewrite Hq. reflexivity. Qed.

Lemma search_query_ok (s f1 f2 f3 : string) :
  plain s -> free_of "000" s -> query_ok (search_query s f1 f2 f3) = true.
Proof.
  intros Hs Hnul. unfold search_query. rewrite query_ok_singleton.
  unfold qvalue_ok, cond_ok. cbn [forallb snd].
  rewrite (compile_plain s Hs Hnul). reflexivity.
Qed.

Lemma search_query_refused {T : Type} `{Document T} (s f1 f2 f3 : string)
    (c : list T) :
  ~ free_of "000" s -> find (search_query s f1 f2 f3) c = Err PatternRejected.
Proof.
  intros Hnul. unfold find, search_query. rewrite query_ok_singleton.
  unfold qvalue_ok, cond_ok. cbn [forallb snd cond_fits andb].
  rewrite (compile_nul s "i" Hnul).
  change (bool_decide (is_Some (@None (bool * Regex.t)))) with false.
  cbn [andb]. unfold query_fits.
  rewrite bool_decide_eq_true_2; [reflexivity|].
  apply map_Forall_singleton. reflexivity.
Qed.

Lemma truthy_str_Some (s : string) :
  truthy_str (Some s) = if String.eqb s "" then None else Some s.
Proof. reflexivity. Qed.

Lemma occurs_ci_empty (v : string) : occurs_ci "" v.
Proof. exists [], (map lower (chars v)). reflexivity. Qed.

Lemma actors_search_query (s : string) :
  actors_query (Some s) None None None None =
  if String.eqb s "" then ∅
  else search_query s "nom" "nationalite" "biographie".
Proof.
  unfold actors_query. rewrite truthy_str_Some.
  destruct (String.eqb s ""); reflexivity.
Qed.

Lemma movies_search_query (s : string) :
  movies_query (Some s) None None None =
  if String.eqb s "" then ∅
  else search_query s "nom" "genre" "description".
Proof.
  unfold movies_query. rewrite truthy_str_Some.
  destruct (String.eqb s ""); reflexivity.
Qed.

Lemma actors_search_plain (s : string) (a : Actor.t) :
  plain s -> free_of "000" s ->
  matches (actors_query (Some s) None None None None) (dict a) = true <->
  occurs_ci s (Actor.nom a) \/ occurs_ci_opt s (Actor.nationalite a) \/
  occurs_ci_opt s (Actor.biographie a).
Proof.
  intros Hs Hnul. destruct (actor_fields a) as (Hnom & Hnat & Hbio & _).
  rewrite actors_query_matches, truthy_str_Some, Hnom, Hnat, Hbio.
  destruct (String.eqb_spec s "") as [->|Hne]; cbn [truthy_str from_option andb].
  - split; [intros _; left; apply occurs_ci_empty | reflexivity].
  - rewrite !orb_true_iff.
    rewrite <- (found_plain s _ Hs Hnul), <- !(found_plain_opt s _ Hs Hnul).
    reflexivity.
Qed.

Lemma movies_search_plain (s : string) (m : Movie.t) :
  plain s -> free_of "000" s ->
  matches (movies_query (Some s) None None None) (dict m) = true <->
  occurs_ci s (Movie.nom m) \/ occurs_ci_opt s (Movie.genre m) \/
  occurs_ci_opt s (Movie.description m).
Proof.
  intros Hs Hnul. destruct (movie_fields m) as (Hnom & Hgenre & Hdesc & _).
  rewrite movies_query_matches, truthy_str_Some, Hnom, Hgenre, Hdesc.
  destruct (String.eqb_spec s "") as [->|Hne];
    cbn [truthy_str truthy_int from_option andb].
  - split; [intros _; left; apply occurs_ci_empty | reflexivity].
  - rewrite !orb_true_iff.
    rewrite <- (found_plain s _ Hs Hnul), <- !(found_plain_opt s _ Hs Hnul).
    reflexivity.
Qed.

Lemma actors_search_ok (s : string) :
  plain s -> free_of "000" s ->
  query_ok (actors_query (Some s) None None None None) = true.
Proof.
  intros Hs Hnul. rewrite actors_search_query.
  destruct (String.eqb s ""); [reflexivity | apply search_query_ok; assumption].
Qed.

Lemma movies_search_ok (s : string) :
  plain s -> free_of "000" s ->
  query_ok (movies_query (Some s) None None None) = true.
Proof.
  intros Hs Hnul. rewrite movies_search_query.
  destruct (String.eqb s ""); [reflexivity | apply search_query_ok; assumption].
Qed.

Lemma not_occurs_ci (needle hay : string) :
  Regex.search_branch true (map lit (chars needle)) (chars hay) = false ->
  ~ occurs_ci needle hay.
Proof.
  intros Hf Hocc. apply search_branch_lits in Hocc. congruence.
Qed.






(** ** The parameters are patterns *)

Lemma actors_query_keys (search nom nationalite : option string)
    (age_min age_max : option Z) :
  actors_query search nom nationalite age_min age_max !! "$or"
    = (fun s => QOr [("nom", RegexCond s "i"); ("nationalite", RegexCond s "i");
                     ("biographie", RegexCond s "i")]) <$> truthy_str search /\
  actors_query search nom nationalite age_min age_max !! "nom"
    = (fun n => QCond (RegexCond n "i")) <$> truthy_str nom /\
  actors_query search nom nationalite age_min age_max !! "nationalite"
    = (fun n => QCond (RegexCond n "i")) <$> truthy_str nationalite.
Proof.
  unfold actors_query.
  destruct (truthy_str search), (truthy_str nom), (truthy_str nationalite),
    age_min, age_max; repeat split; vm_compute; reflexivity.
Qed.

Lemma movies_query_keys (search nom genre : option string) (annee : option Z) :
  movies_query search nom genre annee !! "$or"
    = (fun s => QOr [("nom", RegexCond s "i"); ("genre", RegexCond s "i");
                     ("description", RegexCond s "i")]) <$> truthy_str search /\
  movies_query search nom genre annee !! "nom"
    = (fun n => QCond (RegexCond n "i")) <$> truthy_str nom /\
  movies_query search nom genre annee !! "genre"
    = (fun g => QCond (RegexCond g "i")) <$> truthy_str genre.
Proof.
  unfold movies_query.
  destruct (truthy_str search), (truthy_str nom), (truthy_str genre),
    (truthy_int annee); repeat split; vm_compute; reflexivity.
Qed.

(** C9.  The search text and the text filters reach the store as [$regex]
    patterns with the option ["i"], as they were typed: in the queries of the
    two listings and in those of the global search.  A dot in them stands for
    any character: "M.rion", "J..n", "Dr.me" and "P.af" find records none of
    whose values holds a dot. *)
Theorem parameters_are_patterns (search nom nationalite genre : option string)
    (age_min age_max annee : option Z) (q f1 f2 f3 : string) :
  (actors_query search nom nationalite age_min age_max !! "$or"
     = (fun s => QOr [("nom", RegexCond s "i"); ("nationalite", RegexCond s "i");
                      ("biographie", RegexCond s "i")]) <$> truthy_str search /\
   actors_query search nom nationalite age_min age_max !! "nom"
     = (fun n => QCond (RegexCond n "i")) <$> truthy_str nom /\
   actors_query search nom nationalite age_min age_max !! "nationalite"
     = (fun n => QCond (RegexCond n "i")) <$> truthy_str nationalite) /\
  (movies_query search nom genre annee !! "$or"
     = (fun s => QOr [("nom", RegexCond s "i"); ("genre", RegexCond s "i");
                      ("description", RegexCond s "i")]) <$> truthy_str search /\
   movies_query search nom genre annee !! "nom"
     = (fun n => QCond (RegexCond n "i")) <$> truthy_str nom /\
   movies_query search nom genre annee !! "genre"
     = (fun g => QCond (RegexCond g "i")) <$> truthy_str genre) /\
  search_query q f1 f2 f3 !! "$or"
    = Some (QOr [(f1, RegexCond q "i"); (f2, RegexCond q "i");
                 (f3, RegexCond q "i")]) /\
  (get_actors (Some "M.rion") None None None None None sample = Ok [marion] /\
   get_actors None (Some "J..n") None None None None sample = Ok [jean] /\
   get_movies None None (Some "Dr.me") None None sample = Ok [the_artist] /\
   global_search (Some "P.af") sample = Ok ([], [la_mome])) /\
  Forall (fun v => ~ In "."%char (chars v))
    [Actor.nom marion; "Francaise"; "Actrice francaise primee aux Oscars";
     Actor.nom jean; "Acteur francais connu pour The Artist";
     Movie.nom the_artist; "Drame"; "Film muet en noir et blanc";
     Movie.nom la_mome; "Biographie"; "Film biographique sur Edith Piaf, 2007"] /\
  (found "M.rion" (VStr "Marion Cotillard") /\
   ~ occurs_ci "M.rion" "Marion Cotillard").
Proof.
  split; [apply actors_query_keys|]. split; [apply movies_query_keys|].
  split; [apply lookup_singleton_eq|].
  split; [repeat split; vm_compute; reflexivity|]. split.
  - repeat constructor; vm_compute; intuition discriminate.
  - split; [vm_compute; reflexivity|].
    apply not_occurs_ci. vm_compute. reflexivity.
Qed.

(** ** Partial update *)

Lemma find_one_set_first {T : Type} `{Document T} (q : query) (upd : doc)
    (c : list T) (x : T) :
  find_one q c = Some x ->
  matches q (dict (apply_set upd x)) = true ->
  find_one q (set_first q upd c) = Some (apply_set upd x).
Proof.
  unfold find_one. induction c as [|y r IH]; simpl; [discriminate|].
  destruct (matches q (dict y)) eqn:Hy; simpl.
  - intros [= ->] Hx. rewrite Hx. reflexivity.
  - intros Hf Hx. rewrite Hy. apply IH; assumption.
Qed.

Lemma find_one_matches {T : Type} `{Document T} (q : query) (c : list T) (x : T) :
  find_one q c = Some x -> In x c /\ matches q (dict x) = true.
Proof.
  unfold find_one. intros Hx.
  apply (filter_In (fun y => matches q (dict y))).
  destruct (List.filter _ c) as [|y r]; [discriminate Hx|].
  injection Hx as ->. left. reflexivity.
Qed.

(** What the [$set] of [update_movie] makes of a stored movie. *)
Lemma movie_set_update (c : MovieCreate.t) (m : Movie.t) :
  Movie.set (not_none (MovieCreate.to_dict c)) m =
  Movie.mk (Movie.id m) (MovieCreate.nom c)
    (or_else (MovieCreate.annee c) (Movie.annee m))
    (or_else (MovieCreate.genre c) (Movie.genre m))
    (or_else (MovieCreate.description c) (Movie.description m))
    (Movie.photo_couverture m) (MovieCreate.acteurs c)
    (or_else (MovieCreate.lien_externe c) (Movie.lien_externe m))
    (Movie.created_at m).
Proof.
  destruct c as [n [y|] [g|] [d|] l [e|]], m; vm_compute; reflexivity.
Qed.

Lemma actor_set_update (c : ActorCreate.t) (a : Actor.t) :
  Actor.set (not_none (ActorCreate.to_dict c)) a =
  Actor.mk (Actor.id a) (ActorCreate.nom c)
    (or_else (ActorCreate.age c) (Actor.age a))
    (or_else (ActorCreate.nationalite c) (Actor.nationalite a))
    (or_else (ActorCreate.biographie c) (Actor.biographie a))
    (Actor.photo_profil a) (ActorCreate.filmographie c) (Actor.created_at a).
Proof.
  destruct c as [n [y|] [t|] [b|] l], a; vm_compute; reflexivity.
Qed.

(** The record an update returns when the encoder takes the payload: the
    identifier, the photo and the creation time are kept, an optional field is
    kept when the payload has none, the name and the list of identifiers are
    always the payload's. *)
Lemma update_movie_result (x : string) (body : MovieCreate.body)
    (c : MovieCreate.t) (existing : Movie.t) (w : world) :
  MovieCreate.validate body = Some c ->
  from_option fits_int64 true (MovieCreate.annee c) = true ->
  find_one (by_id x) (movies w) = Some existing ->
  fst (update_movie x body w) =
  Ok (Movie.mk (Movie.id existing) (MovieCreate.nom c)
        (or_else (MovieCreate.annee c) (Movie.annee existing))
        (or_else (MovieCreate.genre c) (Movie.genre existing))
        (or_else (MovieCreate.description c) (Movie.description existing))
        (Movie.photo_couverture existing) (MovieCreate.acteurs c)
        (or_else (MovieCreate.lien_externe c) (Movie.lien_externe existing))
        (Movie.created_at existing)).
Proof.
  intros Hc Hfit Hex. unfold update_movie. rewrite Hc, Hex.
  rewrite update_one_Ok by (rewrite movie_update_encodable; exact Hfit).
  cbn [movies].
  destruct (find_one_matches _ _ _ Hex) as [_ Hid].
  rewrite (find_one_set_first _ (not_none (MovieCreate.to_dict c)) _ _ Hex).
  - cbn [fst]. f_equal. apply movie_set_update.
  - change (apply_set ?u ?m) with (Movie.set u m). rewrite movie_set_update.
    rewrite movie_by_id in *. exact Hid.
Qed.

Lemma update_actor_result (x : string) (body : ActorCreate.body)
    (c : ActorCreate.t) (existing : Actor.t) (w : world) :
  ActorCreate.validate body = Some c ->
  from_option fits_int64 true (ActorCreate.age c) = true ->
  find_one (by_id x) (actors w) = Some existing ->
  fst (update_actor x body w) =
  Ok (Actor.mk (Actor.id existing) (ActorCreate.nom c)
        (or_else (ActorCreate.age c) (Actor.age existing))
        (or_else (ActorCreate.nationalite c) (Actor.nationalite existing))
        (or_else (ActorCreate.biographie c) (Actor.biographie existing))
        (Actor.photo_profil existing) (ActorCreate.filmographie c)
        (Actor.created_at existing)).
Proof.
  intros Hc Hfit Hex. unfold update_actor. rewrite Hc, Hex.
  rewrite update_one_Ok by (rewrite actor_update_encodable; exact Hfit).
  cbn [actors].
  destruct (find_one_matches _ _ _ Hex) as [_ Hid].
  rewrite (find_one_set_first _ (not_none (ActorCreate.to_dict c)) _ _ Hex).
  - cbn [fst]. f_equal. apply actor_set_update.
  - change (apply_set ?u ?a) with (Actor.set u a). rewrite actor_set_update.
    rewrite actor_by_id in *. exact Hid.
Qed.

(** C1 on the code.  The movie "m1" is stored with the actor list ["a1"].
    An update whose payload gives the name and a new genre, and no [acteurs],
    keeps the year and the description and empties the list: the default
    [[]] of the list field is not [None] and goes into [$set].  The same
    happens to the [filmographie] of an actor. *)
Theorem update_empties_omitted_list :
  (find_one (by_id "m1") (movies sample) = Some la_mome /\
   Movie.acteurs la_mome = ["a1"] /\
   MovieCreate.b_acteurs genre_only = Absent /\
   update_movie "m1" genre_only sample =
     (Ok (Movie.mk "m1" "La Mome" (Some 2007) (Some "Drame")
            (Some "Film biographique sur Edith Piaf, 2007") None [] None 1002),
      {| actors := actors sample;
         movies := [Movie.mk "m1" "La Mome" (Some 2007) (Some "Drame")
                      (Some "Film biographique sur Edith Piaf, 2007") None []
                      None 1002;
                    the_artist];
         uploads := uploads sample |})) /\
  (find_one (by_id "a1") (actors sample) = Some marion /\
   Actor.filmographie marion = ["m1"] /\
   ActorCreate.b_filmographie age_only = Absent /\
   update_actor "a1" age_only sample =
     (Ok (Actor.mk "a1" "Marion Cotillard" (Some 49) (Some "Francaise")
            (Some "Actrice francaise primee aux Oscars") None [] 1000),
      {| actors := [Actor.mk "a1" "Marion Cotillard" (Some 49) (Some "Francaise")
                      (Some "Actrice francaise primee aux Oscars") None [] 1000;
                    jean];
         movies := movies sample;
         uploads := uploads sample |})).
Proof. repeat split; vm_compute; reflexivity. Qed.

(** * The handlers together *)

(** ** Collections whose records are found by identifier *)

Section ByIdentifier.

Context {T : Type} `{Document T}.
Variable ident : T -> string.
Hypothesis by_id_ident :
  forall (y : string) (x : T), matches (by_id y) (dict x) = bool_decide (ident x = y).

Lemma find_one_ident (y : string) (c : list T) (x : T) :
  find_one (by_id y) c = Some x -> In x c /\ ident x = y.
Proof.
  intros Hx. apply find_one_matches in Hx as [Hin Hm]. split; [exact Hin|].
  rewrite by_id_ident in Hm. apply bool_decide_eq_true in Hm. exact Hm.
Qed.

Lemma find_one_absent (y : string) (c : list T) :
  find_one (by_id y) c = None <-> Forall (fun x => ident x <> y) c.
Proof.
  unfold find_one. induction c as [|x r IH]; simpl.
  - split; [constructor | reflexivity].
  - rewrite by_id_ident. destruct (decide (ident x = y)) as [Hx|Hx].
    + rewrite bool_decide_eq_true_2 by exact Hx. simpl. split; [discriminate|].
      intros Hall. inversion Hall; contradiction.
    + rewrite bool_decide_eq_false_2 by exact Hx. rewrite IH. split.
      * intros Hr. constructor; assumption.
      * intros Hall. inversion Hall; assumption.
Qed.

Lemma find_one_app (y : string) (c : list T) (x : T) :
  find_one (by_id y) (c ++ [x]) =
  match find_one (by_id y) c with
  | Some z => Some z
  | None => if bool_decide (ident x = y) then Some x else None
  end.
Proof.
  unfold find_one. rewrite List.filter_app. simpl.
  rewrite by_id_ident.
  destruct (List.filter _ c) as [|z r]; simpl; [|reflexivity].
  destruct (bool_decide (ident x = y)); reflexivity.
Qed.

Lemma set_first_idents (y : string) (upd : doc) (c : list T) :
  (forall x, ident (apply_set upd x) = ident x) ->
  ident <$> set_first (by_id y) upd c = ident <$> c.
Proof.
  intros Hkeep. induction c as [|x r IH]; [reflexivity|].
  cbn [set_first]. destruct (matches (by_id y) (dict x)); rewrite !fmap_cons.
  - rewrite Hkeep. reflexivity.
  - rewrite IH. reflexivity.
Qed.

Lemma set_first_other (y z : string) (upd : doc) (c : list T) :
  (forall x, ident (apply_set upd x) = ident x) -> y <> z ->
  find_one (by_id y) (set_first (by_id z) upd c) = find_one (by_id y) c.
Proof.
  intros Hkeep Hyz. unfold find_one. induction c as [|x r IH]; simpl; [reflexivity|].
  rewrite (by_id_ident z). destruct (decide (ident x = z)) as [Hx|Hx].
  - rewrite bool_decide_eq_true_2 by exact Hx. simpl.
    rewrite !by_id_ident, Hkeep.
    rewrite !bool_decide_eq_false_2 by congruence. reflexivity.
  - rewrite bool_decide_eq_false_2 by exact Hx. simpl.
    destruct (matches (by_id y) (dict x)); simpl; [reflexivity | exact IH].
Qed.

Lemma delete_one_found (y : string) (c : list T) (x : T) :
  find_one (by_id y) c = Some x ->
  snd (delete_one (by_id y) c) = 1%nat /\
  S (length (fst (delete_one (by_id y) c))) = length c.
Proof.
  unfold find_one. induction c as [|z r IH]; simpl; [discriminate|].
  destruct (matches (by_id y) (dict z)); simpl.
  - intros _. split; reflexivity.
  - intros Hx. destruct (IH Hx) as [Hn Hlen].
    destruct (delete_one (by_id y) r) as [r' n]. simpl in *.
    split; [exact Hn | congruence].
Qed.

Lemma delete_one_other (y z : string) (c : list T) :
  y <> z ->
  find_one (by_id y) (fst (delete_one (by_id z) c)) = find_one (by_id y) c.
Proof.
  intros Hyz. unfold find_one. induction c as [|x r IH]; simpl; [reflexivity|].
  rewrite (by_id_ident z). destruct (decide (ident x = z)) as [Hx|Hx].
  - rewrite bool_decide_eq_true_2 by exact Hx. simpl.
    rewrite by_id_ident, bool_decide_eq_false_2 by congruence. reflexivity.
  - rewrite bool_decide_eq_false_2 by exact Hx.
    destruct (delete_one (by_id z) r) as [r' n]. simpl in *.
    destruct (matches (by_id y) (dict x)); simpl; [reflexivity | exact IH].
Qed.

Lemma delete_one_sublist (q : query) (c : list T) :
  fst (delete_one q c) `sublist_of` c.
Proof.
  induction c as [|x r IH]; simpl; [constructor|].
  destruct (matches q (dict x)); simpl.
  - apply sublist_cons. reflexivity.
  - destruct (delete_one q r) as [r' n]. simpl in *.
    apply sublist_skip. exact IH.
Qed.

Lemma delete_one_unique (y : string) (c : list T) :
  NoDup (ident <$> c) ->
  Forall (fun x => ident x <> y) (fst (delete_one (by_id y) c)).
Proof.
  induction c as [|x r IH]; simpl; [constructor|].
  rewrite NoDup_cons. intros [Hx Hr]. rewrite by_id_ident.
  destruct (decide (ident x = y)) as [Hxy|Hxy].
  - rewrite bool_decide_eq_true_2 by exact Hxy. simpl.
    apply Forall_forall. intros z Hz Hzy. apply Hx.
    apply list_elem_of_fmap. exists z. split; [congruence | exact Hz].
  - rewrite bool_decide_eq_false_2 by exact Hxy.
    specialize (IH Hr). destruct (delete_one (by_id y) r) as [r' n]. simpl in *.
    constructor; assumption.
Qed.

End ByIdentifier.

(** ** What the writing handlers leave behind *)

Lemma actor_set_photo (url : string) (a : Actor.t) :
  Actor.set {[ "photo_profil" := VStr url ]} a =
  Actor.mk (Actor.id a) (Actor.nom a) (Actor.age a) (Actor.nationalite a)
    (Actor.biographie a) (Some url) (Actor.filmographie a) (Actor.created_at a).
Proof. destruct a. vm_compute. reflexivity. Qed.

Lemma movie_set_photo (url : string) (m : Movie.t) :
  Movie.set {[ "photo_couverture" := VStr url ]} m =
  Movie.mk (Movie.id m) (Movie.nom m) (Movie.annee m) (Movie.genre m)
    (Movie.description m) (Some url) (Movie.acteurs m) (Movie.lien_externe m)
    (Movie.created_at m).
Proof. destruct m. vm_compute. reflexivity. Qed.

Lemma actor_update_keeps_id (c : ActorCreate.t) (a : Actor.t) :
  Actor.id (apply_set (not_none (ActorCreate.to_dict c)) a) = Actor.id a.
Proof.
  change (apply_set ?u ?x) with (Actor.set u x).
  rewrite actor_set_update. reflexivity.
Qed.

Lemma movie_update_keeps_id (c : MovieCreate.t) (m : Movie.t) :
  Movie.id (apply_set (not_none (MovieCreate.to_dict c)) m) = Movie.id m.
Proof.
  change (apply_set ?u ?x) with (Movie.set u x).
  rewrite movie_set_update. reflexivity.
Qed.

Lemma actor_photo_keeps_id (url : string) (a : Actor.t) :
  Actor.id (apply_set {[ "photo_profil" := VStr url ]} a) = Actor.id a.
Proof.
  change (apply_set ?u ?x) with (Actor.set u x).
  rewrite actor_set_photo. reflexivity.
Qed.

Lemma movie_photo_keeps_id (url : string) (m : Movie.t) :
  Movie.id (apply_set {[ "photo_couverture" := VStr url ]} m) = Movie.id m.
Proof.
  change (apply_set ?u ?x) with (Movie.set u x).
  rewrite movie_set_photo. reflexivity.
Qed.

Lemma no_actor_find (x : string) (w : world) :
  no_actor x w <-> find_one (by_id x) (actors w) = None.
Proof. symmetry. apply (find_one_absent Actor.id actor_by_id). Qed.

Lemma no_movie_find (x : string) (w : world) :
  no_movie x w <-> find_one (by_id x) (movies w) = None.
Proof. symmetry. apply (find_one_absent Movie.id movie_by_id). Qed.

Lemma get_actor_find (x : string) (w : world) (a : Actor.t) :
  get_actor x w = Ok a <-> find_one (by_id x) (actors w) = Some a.
Proof.
  unfold get_actor. destruct (find_one (by_id x) (actors w)); split;
    congruence.
Qed.

Lemma get_movie_find (x : string) (w : world) (m : Movie.t) :
  get_movie x w = Ok m <-> find_one (by_id x) (movies w) = Some m.
Proof.
  unfold get_movie. destruct (find_one (by_id x) (movies w)); split;
    congruence.
Qed.

(** X1.  A record created under an identifier that no stored record carries
    carries that identifier and the time of the clock, and a get on that
    identifier afterwards returns it as the store keeps it: the same record
    with its time cut to the millisecond.  When the clock showed a whole
    number of milliseconds, that is the very record the creation returned. *)
Theorem create_then_get (uuid4 : string) (utcnow : datetime)
    (ba : ActorCreate.body) (bm : MovieCreate.body) (w : world) :
  (no_actor uuid4 w ->
   forall a w', create_actor uuid4 utcnow ba w = (Ok a, w') ->
                Actor.id a = uuid4 /\ Actor.created_at a = utcnow /\
                get_actor uuid4 w' = Ok (Actor.encoded a) /\
                (truncate_ms utcnow = utcnow -> get_actor uuid4 w' = Ok a)) /\
  (no_movie uuid4 w ->
   forall m w', create_movie uuid4 utcnow bm w = (Ok m, w') ->
                Movie.id m = uuid4 /\ Movie.created_at m = utcnow /\
                get_movie uuid4 w' = Ok (Movie.encoded m) /\
                (truncate_ms utcnow = utcnow -> get_movie uuid4 w' = Ok m)).
Proof.
  split.
  - intros Hno a w'. rewrite create_actor_world.
    destruct (ActorCreate.validate ba) as [c|]; [|discriminate].
    cbv zeta.
    destruct (from_option fits_int64 true (ActorCreate.age c)); [|discriminate].
    intros [= <- <-]. split; [reflexivity|]. split; [reflexivity|].
    assert (Hget : forall r, Actor.id r = uuid4 ->
              get_actor uuid4
                {| actors := actors w ++ [r]; movies := movies w;
                   uploads := uploads w |} = Ok r).
    { intros r Hr. apply get_actor_find. cbn [actors].
      rewrite (find_one_app Actor.id actor_by_id).
      rewrite (proj1 (no_actor_find uuid4 w) Hno).
      rewrite bool_decide_eq_true_2 by exact Hr. reflexivity. }
    split; [apply Hget; reflexivity|].
    intros Hms. rewrite Hget by reflexivity.
    unfold Actor.encoded. cbn [Actor.created_at]. rewrite Hms. reflexivity.
  - intros Hno m w'. rewrite create_movie_world.
    destruct (MovieCreate.validate bm) as [c|]; [|discriminate].
    cbv zeta.
    destruct (from_option fits_int64 true (MovieCreate.annee c)); [|discriminate].
    intros [= <- <-]. split; [reflexivity|]. split; [reflexivity|].
    assert (Hget : forall r, Movie.id r = uuid4 ->
              get_movie uuid4
                {| actors := actors w; movies := movies w ++ [r];
                   uploads := uploads w |} = Ok r).
    { intros r Hr. apply get_movie_find. cbn [movies].
      rewrite (find_one_app Movie.id movie_by_id).
      rewrite (proj1 (no_movie_find uuid4 w) Hno).
      rewrite bool_decide_eq_true_2 by exact Hr. reflexivity. }
    split; [apply Hget; reflexivity|].
    intros Hms. rewrite Hget by reflexivity.
    unfold Movie.encoded. cbn [Movie.created_at]. rewrite Hms. reflexivity.
Qed.

(** X2.  In a store where no two records of a collection share an
    identifier, a creation changes nothing for the records stored under
    another identifier than the new one: a get that found a record finds the
    same record afterwards.  A creation leaves the other collection and the
    uploads untouched. *)
Theorem create_keeps_existing (uuid4 : string) (utcnow : datetime)
    (ba : ActorCreate.body) (bm : MovieCreate.body) (w : world) (x : string) :
  unique_ids w -> x <> uuid4 ->
  (forall a, get_actor x w = Ok a ->
             get_actor x (snd (create_actor uuid4 utcnow ba w)) = Ok a) /\
  (forall m, get_movie x w = Ok m ->
             get_movie x (snd (create_movie uuid4 utcnow bm w)) = Ok m) /\
  (movies (snd (create_actor uuid4 utcnow ba w)) = movies w /\
   uploads (snd (create_actor uuid4 utcnow ba w)) = uploads w) /\
  (actors (snd (create_movie uuid4 utcnow bm w)) = actors w /\
   uploads (snd (create_movie uuid4 utcnow bm w)) = uploads w).
Proof.
  intros _ Hx. rewrite create_actor_world, create_movie_world.
  assert (Hnew : bool_decide (uuid4 = x) = false)
    by (apply bool_decide_eq_false; congruence).
  split; [|split; [|split]].
  - intros a Ha. destruct (ActorCreate.validate ba) as [c|]; [|exact Ha].
    cbv zeta.
    destruct (from_option fits_int64 true (ActorCreate.age c)); [|exact Ha].
    apply get_actor_find. apply get_actor_find in Ha. cbn [snd actors].
    rewrite (find_one_app Actor.id actor_by_id), Ha. reflexivity.
  - intros m Hm. destruct (MovieCreate.validate bm) as [c|]; [|exact Hm].
    cbv zeta.
    destruct (from_option fits_int64 true (MovieCreate.annee c)); [|exact Hm].
    apply get_movie_find. apply get_movie_find in Hm. cbn [snd movies].
    rewrite (find_one_app Movie.id movie_by_id), Hm. reflexivity.
  - destruct (ActorCreate.validate ba) as [c|]; [|split; reflexivity].
    cbv zeta.
    destruct (from_option fits_int64 true (ActorCreate.age c));
      split; reflexivity.
  - destruct (MovieCreate.validate bm) as [c|]; [|split; reflexivity].
    cbv zeta.
    destruct (from_option fits_int64 true (MovieCreate.annee c));
      split; reflexivity.
Qed.

Lemma create_then_get_witness :
  get_actor "u1"
    (snd (create_actor "u1" {| micros := 7250 |} age_only sample))
  = Ok (Actor.mk "u1" "Marion Cotillard" (Some 49) None None None [] 7).
Proof.
  assert (Hno : no_actor "u1" sample)
    by (unfold no_actor; simpl; repeat constructor; discriminate).
  destruct (create_then_get "u1" {| micros := 7250 |} age_only genre_only sample)
    as (Hactor & _).
  destruct (Hactor Hno
              (Actor.mk "u1" "Marion Cotillard" (Some 49) None None None []
                 {| micros := 7250 |})
              (snd (create_actor "u1" {| micros := 7250 |} age_only sample)))
    as (_ & _ & Hget & _); [vm_compute; reflexivity|].
  exact Hget.
Defined.

Lemma create_keeps_existing_witness :
  get_actor "a1" (snd (create_actor "u1" 7 age_only sample)) = Ok marion.
Proof.
  destruct (create_keeps_existing "u1" 7 age_only genre_only sample "a1")
    as (Hkeep & _);
    [split; apply (bool_decide_unpack _); vm_compute; exact I | discriminate |].
  apply Hkeep. vm_compute. reflexivity.
Defined.

(** ** Identifiers stay unique *)

Lemma absent_not_elem {T : Type} (ident : T -> string) (x : string) (c : list T) :
  Forall (fun r => ident r <> x) c <-> x ∉ ident <$> c.
Proof.
  rewrite Forall_forall. split.
  - intros Hall Hin. apply list_elem_of_fmap in Hin as (r & -> & Hr).
    exact (Hall r Hr eq_refl).
  - intros Hnot r Hr Heq. apply Hnot. apply list_elem_of_fmap.
    exists r. split; [congruence | exact Hr].
Qed.

Lemma append_unique {T : Type} (ident : T -> string) (x : T) (c : list T) :
  NoDup (ident <$> c) -> Forall (fun r => ident r <> ident x) c ->
  NoDup (ident <$> (c ++ [x])%list).
Proof.
  intros Hc Hx. rewrite fmap_app. apply NoDup_app.
  split; [exact Hc|]. split.
  - intros y Hy Hin. apply list_elem_of_singleton in Hin. subst y.
    apply (proj1 (absent_not_elem ident (ident x) c) Hx). exact Hy.
  - apply NoDup_singleton.
Qed.

Lemma delete_one_keeps_unique {T : Type} `{Document T} (ident : T -> string)
    (q : query) (c : list T) :
  NoDup (ident <$> c) -> NoDup (ident <$> fst (delete_one q c)).
Proof.
  intros Hc. eapply sublist_NoDup; [exact Hc|].
  apply fmap_sublist, delete_one_sublist.
Qed.

Lemma upload_actor_photo_world (hex : string) (io_error : option io_failure)
    (x : string) (f : UploadFile) (w : world) :
  (exists url fs,
     snd (upload_actor_photo hex io_error x f w) =
     {| actors := set_first (by_id x) {[ "photo_profil" := VStr url ]} (actors w);
        movies := movies w; uploads := fs |}) \/
  (actors (snd (upload_actor_photo hex io_error x f w)) = actors w /\
   movies (snd (upload_actor_photo hex io_error x f w)) = movies w).
Proof.
  unfold upload_actor_photo, save_upload_file.
  destruct (content_type f) as [ct|]; [|right; split; reflexivity].
  destruct (startswith ct "image/"); cbn [negb]; [|right; split; reflexivity].
  destruct io_error; cbn [snd actors movies]; [right; split; reflexivity|].
  left. eexists _, _. reflexivity.
Qed.

Lemma upload_movie_photo_world (hex : string) (io_error : option io_failure)
    (x : string) (f : UploadFile) (w : world) :
  (exists url fs,
     snd (upload_movie_photo hex io_error x f w) =
     {| actors := actors w;
        movies := set_first (by_id x) {[ "photo_couverture" := VStr url ]}
                    (movies w);
        uploads := fs |}) \/
  (actors (snd (upload_movie_photo hex io_error x f w)) = actors w /\
   movies (snd (upload_movie_photo hex io_error x f w)) = movies w).
Proof.
  unfold upload_movie_photo, save_upload_file.
  destruct (content_type f) as [ct|]; [|right; split; reflexivity].
  destruct (startswith ct "image/"); cbn [negb]; [|right; split; reflexivity].
  destruct io_error; cbn [snd actors movies]; [right; split; reflexivity|].
  left. eexists _, _. reflexivity.
Qed.

Lemma update_actor_world (x : string) (b : ActorCreate.body) (w : world) :
  snd (update_actor x b w) = w \/
  exists c, ActorCreate.validate b = Some c /\
    snd (update_actor x b w) =
    {| actors := set_first (by_id x) (not_none (ActorCreate.to_dict c)) (actors w);
       movies := movies w; uploads := uploads w |}.
Proof.
  unfold update_actor. destruct (ActorCreate.validate b) as [c|]; [|left; reflexivity].
  destruct (find_one (by_id x) (actors w)); [|left; reflexivity].
  unfold update_one.
  destruct (encodable (not_none (ActorCreate.to_dict c))); [|left; reflexivity].
  right. exists c. split; [reflexivity|].
  cbv zeta. cbn [actors]. destruct (find_one _ _); reflexivity.
Qed.

Lemma update_movie_world (x : string) (b : MovieCreate.body) (w : world) :
  snd (update_movie x b w) = w \/
  exists c, MovieCreate.validate b = Some c /\
    snd (update_movie x b w) =
    {| actors := actors w;
       movies := set_first (by_id x) (not_none (MovieCreate.to_dict c)) (movies w);
       uploads := uploads w |}.
Proof.
  unfold update_movie. destruct (MovieCreate.validate b) as [c|]; [|left; reflexivity].
  destruct (find_one (by_id x) (movies w)); [|left; reflexivity].
  unfold update_one.
  destruct (encodable (not_none (MovieCreate.to_dict c))); [|left; reflexivity].
  right. exists c. split; [reflexivity|].
  cbv zeta. cbn [movies]. destruct (find_one _ _); reflexivity.
Qed.

Lemma delete_actor_world (x : string) (w : world) :
  snd (delete_actor x w) =
  {| actors := fst (delete_one (by_id x) (actors w)); movies := movies w;
     uploads := uploads w |}.
Proof.
  unfold delete_actor. destruct (delete_one (by_id x) (actors w)) as [r n].
  cbv zeta. destruct (n =? 0)%nat; reflexivity.
Qed.

Lemma delete_movie_world (x : string) (w : world) :
  snd (delete_movie x w) =
  {| actors := actors w; movies := fst (delete_one (by_id x) (movies w));
     uploads := uploads w |}.
Proof.
  unfold delete_movie. destruct (delete_one (by_id x) (movies w)) as [r n].
  cbv zeta. destruct (n =? 0)%nat; reflexivity.
Qed.

(** X3.  When no two records of a collection share an identifier, no handler
    makes two of them share one: a creation under an identifier not yet in
    use, an update, a delete and a photo upload all keep the identifiers of
    each collection distinct.  Updates and uploads keep the very list of
    identifiers. *)
Theorem identifiers_stay_unique (w : world) (x uuid4 hex : string) (utcnow : datetime)
    (ba : ActorCreate.body) (bm : MovieCreate.body)
    (io_error : option io_failure) (f : UploadFile) :
  unique_ids w ->
  (no_actor uuid4 w -> unique_ids (snd (create_actor uuid4 utcnow ba w))) /\
  (no_movie uuid4 w -> unique_ids (snd (create_movie uuid4 utcnow bm w))) /\
  unique_ids (snd (update_actor x ba w)) /\
  unique_ids (snd (update_movie x bm w)) /\
  unique_ids (snd (delete_actor x w)) /\
  unique_ids (snd (delete_movie x w)) /\
  unique_ids (snd (upload_actor_photo hex io_error x f w)) /\
  unique_ids (snd (upload_movie_photo hex io_error x f w)) /\
  Actor.id <$> actors (snd (update_actor x ba w)) = Actor.id <$> actors w /\
  Movie.id <$> movies (snd (update_movie x bm w)) = Movie.id <$> movies w /\
  Actor.id <$> actors (snd (upload_actor_photo hex io_error x f w))
    = Actor.id <$> actors w /\
  Movie.id <$> movies (snd (upload_movie_photo hex io_error x f w))
    = Movie.id <$> movies w.
Proof.
  intros [Ha Hm].
  assert (Hua : Actor.id <$> actors (snd (update_actor x ba w))
                = Actor.id <$> actors w).
  { destruct (update_actor_world x ba w) as [->|(c & _ & ->)]; [reflexivity|].
    cbn [actors]. apply set_first_idents. apply actor_update_keeps_id. }
  assert (Hum : Movie.id <$> movies (snd (update_movie x bm w))
                = Movie.id <$> movies w).
  { destruct (update_movie_world x bm w) as [->|(c & _ & ->)]; [reflexivity|].
    cbn [movies]. apply set_first_idents. apply movie_update_keeps_id. }
  assert (Hpa : Actor.id <$> actors (snd (upload_actor_photo hex io_error x f w))
                = Actor.id <$> actors w).
  { destruct (upload_actor_photo_world hex io_error x f w)
      as [(url & fs & ->)|[-> _]]; [|reflexivity].
    cbn [actors]. apply set_first_idents. intros a. apply actor_photo_keeps_id. }
  assert (Hpm : Movie.id <$> movies (snd (upload_movie_photo hex io_error x f w))
                = Movie.id <$> movies w).
  { destruct (upload_movie_photo_world hex io_error x f w)
      as [(url & fs & ->)|[_ ->]]; [|reflexivity].
    cbn [movies]. apply set_first_idents. intros m. apply movie_photo_keeps_id. }
  assert (Hua' : movies (snd (update_actor x ba w)) = movies w).
  { destruct (update_actor_world x ba w) as [->|(c & _ & ->)]; reflexivity. }
  assert (Hum' : actors (snd (update_movie x bm w)) = actors w).
  { destruct (update_movie_world x bm w) as [->|(c & _ & ->)]; reflexivity. }
  assert (Hpa' : movies (snd (upload_actor_photo hex io_error x f w)) = movies w).
  { destruct (upload_actor_photo_world hex io_error x f w)
      as [(url & fs & ->)|[_ ->]]; reflexivity. }
  assert (Hpm' : actors (snd (upload_movie_photo hex io_error x f w)) = actors w).
  { destruct (upload_movie_photo_world hex io_error x f w)
      as [(url & fs & ->)|[-> _]]; reflexivity. }
  unfold unique_ids.
  rewrite Hua, Hum, Hpa, Hpm, Hua', Hum', Hpa', Hpm'.
  rewrite delete_actor_world, delete_movie_world.
  rewrite create_actor_world, create_movie_world. cbn [actors movies].
  repeat split; try assumption.
  - destruct (ActorCreate.validate ba) as [c|]; cbv zeta; [|exact Ha].
    destruct (from_option fits_int64 true (ActorCreate.age c));
      cbn [snd actors]; [|exact Ha].
    apply append_unique; assumption.
  - destruct (ActorCreate.validate ba) as [c|]; cbv zeta; [|exact Hm].
    destruct (from_option fits_int64 true (ActorCreate.age c)); exact Hm.
  - destruct (MovieCreate.validate bm) as [c|]; cbv zeta; [|exact Ha].
    destruct (from_option fits_int64 true (MovieCreate.annee c)); exact Ha.
  - destruct (MovieCreate.validate bm) as [c|]; cbv zeta; [|exact Hm].
    destruct (from_option fits_int64 true (MovieCreate.annee c));
      cbn [snd movies]; [|exact Hm].
    apply append_unique; assumption.
  - apply delete_one_keeps_unique. exact Ha.
  - apply delete_one_keeps_unique. exact Hm.
Qed.

Lemma identifiers_stay_unique_witness :
  unique_ids (snd (create_actor "u1" 7 age_only sample)) /\
  unique_ids (snd (delete_movie "m1" sample)) /\
  unique_ids (snd (upload_actor_photo "0123456789abcdef" None "a1" png sample)).
Proof.
  assert (Hu : unique_ids sample).
  { split; apply (bool_decide_unpack _); vm_compute; exact I. }
  assert (Hno : no_actor "u1" sample)
    by (unfold no_actor; simpl; repeat constructor; discriminate).
  destruct (identifiers_stay_unique sample "m1" "u1" "0123456789abcdef" 7
              age_only genre_only None png Hu)
    as (Hc & _ & _ & _ & _ & Hd & _).
  destruct (identifiers_stay_unique sample "a1" "u1" "0123456789abcdef" 7
              age_only genre_only None png Hu)
    as (_ & _ & _ & _ & _ & _ & Hp & _).
  split; [exact (Hc Hno)|]. split; assumption.
Defined.

(** ** Deleting *)

Lemma get_actor_same_find (x : string) (w w' : world) :
  find_one (by_id x) (actors w') = find_one (by_id x) (actors w) ->
  get_actor x w' = get_actor x w.
Proof. unfold get_actor. intros ->. reflexivity. Qed.

Lemma get_movie_same_find (x : string) (w w' : world) :
  find_one (by_id x) (movies w') = find_one (by_id x) (movies w) ->
  get_movie x w' = get_movie x w.
Proof. unfold get_movie. intros ->. reflexivity. Qed.

Lemma delete_actor_answer (x : string) (w : world) :
  fst (delete_actor x w) =
  if (snd (delete_one (by_id x) (actors w)) =? 0)%nat
  then Err (HTTPException 404 "Actor not found")
  else Ok "Actor deleted successfully".
Proof.
  unfold delete_actor. destruct (delete_one (by_id x) (actors w)) as [r n].
  cbv zeta. cbn [snd]. destruct (n =? 0)%nat; reflexivity.
Qed.

Lemma delete_movie_answer (x : string) (w : world) :
  fst (delete_movie x w) =
  if (snd (delete_one (by_id x) (movies w)) =? 0)%nat
  then Err (HTTPException 404 "Movie not found")
  else Ok "Movie deleted successfully".
Proof.
  unfold delete_movie. destruct (delete_one (by_id x) (movies w)) as [r n].
  cbv zeta. cbn [snd]. destruct (n =? 0)%nat; reflexivity.
Qed.

(** X4.  Deleting under an identifier that a get finds succeeds and removes
    exactly one record of that collection; a get on any other identifier
    answers as before, and the other collection and the uploads are
    untouched. *)
Theorem delete_removes_one (x : string) (w : world) :
  (forall a, get_actor x w = Ok a ->
     fst (delete_actor x w) = Ok "Actor deleted successfully" /\
     S (length (actors (snd (delete_actor x w)))) = length (actors w) /\
     (forall y, y <> x -> get_actor y (snd (delete_actor x w)) = get_actor y w) /\
     movies (snd (delete_actor x w)) = movies w /\
     uploads (snd (delete_actor x w)) = uploads w) /\
  (forall m, get_movie x w = Ok m ->
     fst (delete_movie x w) = Ok "Movie deleted successfully" /\
     S (length (movies (snd (delete_movie x w)))) = length (movies w) /\
     (forall y, y <> x -> get_movie y (snd (delete_movie x w)) = get_movie y w) /\
     actors (snd (delete_movie x w)) = actors w /\
     uploads (snd (delete_movie x w)) = uploads w).
Proof.
  split.
  - intros a Ha. apply get_actor_find in Ha.
    destruct (delete_one_found x (actors w) a Ha) as [Hn Hlen].
    rewrite delete_actor_answer, delete_actor_world, Hn. cbn [actors movies uploads].
    split; [reflexivity|]. split; [exact Hlen|].
    split; [|split; reflexivity].
    intros y Hy. apply get_actor_same_find. cbn [actors].
    apply (delete_one_other Actor.id actor_by_id). exact Hy.
  - intros m Hm. apply get_movie_find in Hm.
    destruct (delete_one_found x (movies w) m Hm) as [Hn Hlen].
    rewrite delete_movie_answer, delete_movie_world, Hn. cbn [actors movies uploads].
    split; [reflexivity|]. split; [exact Hlen|].
    split; [|split; reflexivity].
    intros y Hy. apply get_movie_same_find. cbn [movies].
    apply (delete_one_other Movie.id movie_by_id). exact Hy.
Qed.

Lemma delete_removes_one_witness :
  fst (delete_actor "a1" sample) = Ok "Actor deleted successfully" /\
  get_actor "a2" (snd (delete_actor "a1" sample)) = get_actor "a2" sample.
Proof.
  destruct (delete_removes_one "a1" sample) as (Hactor & _).
  destruct (Hactor marion) as (Hok & _ & Hother & _).
  - vm_compute. reflexivity.
  - split; [exact Hok|]. apply Hother. discriminate.
Defined.

(** X5.  When the identifiers of a collection are distinct, a delete leaves
    no record under the identifier: a get on it answers 404, a second delete
    answers 404, and no listing returns a record that carries it. *)
Theorem delete_then_gone (x : string) (w : world)
    (search nom nationalite genre : option string)
    (age_min age_max annee lim : option Z) :
  unique_ids w ->
  (get_actor x (snd (delete_actor x w))
     = Err (HTTPException 404 "Actor not found") /\
   fst (delete_actor x (snd (delete_actor x w)))
     = Err (HTTPException 404 "Actor not found") /\
   forall l a,
     get_actors search nom nationalite age_min age_max lim
       (snd (delete_actor x w)) = Ok l ->
     In a l -> Actor.id a <> x) /\
  (get_movie x (snd (delete_movie x w))
     = Err (HTTPException 404 "Movie not found") /\
   fst (delete_movie x (snd (delete_movie x w)))
     = Err (HTTPException 404 "Movie not found") /\
   forall l m,
     get_movies search nom genre annee lim (snd (delete_movie x w)) = Ok l ->
     In m l -> Movie.id m <> x).
Proof.
  intros [Ha Hm]. split.
  - assert (Hgone : no_actor x (snd (delete_actor x w))).
    { rewrite delete_actor_world. unfold no_actor. cbn [actors].
      apply (delete_one_unique Actor.id actor_by_id). exact Ha. }
    split; [apply get_actor_unknown; exact Hgone|].
    split; [rewrite delete_actor_unknown by exact Hgone; reflexivity|].
    intros l a Hl Hin.
    destruct (get_actors_matches _ _ _ _ _ _ _ _ _ Hl Hin) as [Hstored _].
    unfold no_actor in Hgone. rewrite Forall_forall in Hgone.
    apply Hgone. apply list_elem_of_In. exact Hstored.
  - assert (Hgone : no_movie x (snd (delete_movie x w))).
    { rewrite delete_movie_world. unfold no_movie. cbn [movies].
      apply (delete_one_unique Movie.id movie_by_id). exact Hm. }
    split; [apply get_movie_unknown; exact Hgone|].
    split; [rewrite delete_movie_unknown by exact Hgone; reflexivity|].
    intros l m Hl Hin.
    destruct (get_movies_matches _ _ _ _ _ _ _ _ Hl Hin) as [Hstored _].
    unfold no_movie in Hgone. rewrite Forall_forall in Hgone.
    apply Hgone. apply list_elem_of_In. exact Hstored.
Qed.

Lemma delete_then_gone_witness :
  get_actor "a1" (snd (delete_actor "a1" sample))
  = Err (HTTPException 404 "Actor not found").
Proof.
  assert (Hu : unique_ids sample).
  { split; apply (bool_decide_unpack _); vm_compute; exact I. }
  destruct (delete_then_gone "a1" sample None None None None None None None None Hu)
    as ((Hget & _) & _).
  exact Hget.
Defined.

(** ** Updating *)

Lemma update_actor_Ok (x : string) (b : ActorCreate.body) (w w' : world)
    (r : Actor.t) :
  update_actor x b w = (Ok r, w') ->
  exists c existing,
    ActorCreate.validate b = Some c /\
    encodable (not_none (ActorCreate.to_dict c)) = true /\
    find_one (by_id x) (actors w) = Some existing /\
    r = apply_set (not_none (ActorCreate.to_dict c)) existing /\
    w' = {| actors := set_first (by_id x) (not_none (ActorCreate.to_dict c))
                        (actors w);
            movies := movies w; uploads := uploads w |}.
Proof.
  unfold update_actor. destruct (ActorCreate.validate b) as [c|]; [|discriminate].
  destruct (find_one (by_id x) (actors w)) as [existing|] eqn:Hex; [|discriminate].
  unfold update_one.
  destruct (encodable (not_none (ActorCreate.to_dict c))) eqn:Henc; [|discriminate].
  cbv zeta. cbn [actors].
  assert (Hid : matches (by_id x)
                  (dict (apply_set (not_none (ActorCreate.to_dict c)) existing))
                = true).
  { rewrite actor_by_id, actor_update_keeps_id, <- actor_by_id.
    apply (find_one_matches _ _ _ Hex). }
  rewrite (find_one_set_first _ _ _ _ Hex Hid).
  intros [= <- <-]. exists c, existing.
  repeat split; (reflexivity || exact Henc).
Qed.

Lemma update_movie_Ok (x : string) (b : MovieCreate.body) (w w' : world)
    (r : Movie.t) :
  update_movie x b w = (Ok r, w') ->
  exists c existing,
    MovieCreate.validate b = Some c /\
    encodable (not_none (MovieCreate.to_dict c)) = true /\
    find_one (by_id x) (movies w) = Some existing /\
    r = apply_set (not_none (MovieCreate.to_dict c)) existing /\
    w' = {| actors := actors w;
            movies := set_first (by_id x) (not_none (MovieCreate.to_dict c))
                        (movies w);
            uploads := uploads w |}.
Proof.
  unfold update_movie. destruct (MovieCreate.validate b) as [c|]; [|discriminate].
  destruct (find_one (by_id x) (movies w)) as [existing|] eqn:Hex; [|discriminate].
  unfold update_one.
  destruct (encodable (not_none (MovieCreate.to_dict c))) eqn:Henc; [|discriminate].
  cbv zeta. cbn [movies].
  assert (Hid : matches (by_id x)
                  (dict (apply_set (not_none (MovieCreate.to_dict c)) existing))
                = true).
  { rewrite movie_by_id, movie_update_keeps_id, <- movie_by_id.
    apply (find_one_matches _ _ _ Hex). }
  rewrite (find_one_set_first _ _ _ _ Hex Hid).
  intros [= <- <-]. exists c, existing.
  repeat split; (reflexivity || exact Henc).
Qed.

(** X6.  A successful update returns the record as it is stored afterwards,
    touches no record under another identifier, keeps the number of records,
    and leaves the other collection and the uploads as they were. *)
Theorem update_touches_one (x : string) (ba : ActorCreate.body)
    (bm : MovieCreate.body) (w : world) :
  (forall r w', update_actor x ba w = (Ok r, w') ->
     get_actor x w' = Ok r /\
     (forall y, y <> x -> get_actor y w' = get_actor y w) /\
     length (actors w') = length (actors w) /\
     movies w' = movies w /\ uploads w' = uploads w) /\
  (forall r w', update_movie x bm w = (Ok r, w') ->
     get_movie x w' = Ok r /\
     (forall y, y <> x -> get_movie y w' = get_movie y w) /\
     length (movies w') = length (movies w) /\
     actors w' = actors w /\ uploads w' = uploads w).
Proof.
  split.
  - intros r w' Hup.
    destruct (update_actor_Ok x ba w w' r Hup)
      as (c & ex & _ & _ & Hex & -> & ->).
    cbn [actors movies uploads].
    split; [|split; [|split; [apply length_set_first | split; reflexivity]]].
    + apply get_actor_find. cbn [actors]. apply find_one_set_first; [exact Hex|].
      rewrite actor_by_id, actor_update_keeps_id, <- actor_by_id.
      apply (find_one_matches _ _ _ Hex).
    + intros y Hy. apply get_actor_same_find. cbn [actors].
      apply (set_first_other Actor.id actor_by_id); [|exact Hy].
      apply actor_update_keeps_id.
  - intros r w' Hup.
    destruct (update_movie_Ok x bm w w' r Hup)
      as (c & ex & _ & _ & Hex & -> & ->).
    cbn [actors movies uploads].
    split; [|split; [|split; [apply length_set_first | split; reflexivity]]].
    + apply get_movie_find. cbn [movies]. apply find_one_set_first; [exact Hex|].
      rewrite movie_by_id, movie_update_keeps_id, <- movie_by_id.
      apply (find_one_matches _ _ _ Hex).
    + intros y Hy. apply get_movie_same_find. cbn [movies].
      apply (set_first_other Movie.id movie_by_id); [|exact Hy].
      apply movie_update_keeps_id.
Qed.

Lemma update_touches_one_witness :
  get_actor "a1" (snd (update_actor "a1" age_only sample))
  = Ok (Actor.mk "a1" "Marion Cotillard" (Some 49) (Some "Francaise")
          (Some "Actrice francaise primee aux Oscars") None [] 1000) /\
  get_actor "a2" (snd (update_actor "a1" age_only sample)) = get_actor "a2" sample.
Proof.
  destruct (update_touches_one "a1" age_only genre_only sample) as (Hactor & _).
  destruct (Hactor
              (Actor.mk "a1" "Marion Cotillard" (Some 49) (Some "Francaise")
                 (Some "Actrice francaise primee aux Oscars") None [] 1000)
              (snd (update_actor "a1" age_only sample)))
    as (Hget & Hother & _).
  - vm_compute. reflexivity.
  - split; [exact Hget|]. apply Hother. discriminate.
Defined.

Lemma actor_validate_fields (b : ActorCreate.body) (c : ActorCreate.t) :
  ActorCreate.validate b = Some c ->
  ActorCreate.b_nom b = Present (ActorCreate.nom c) /\
  ActorCreate.age c = optional (ActorCreate.b_age b) /\
  ActorCreate.nationalite c = optional (ActorCreate.b_nationalite b) /\
  ActorCreate.biographie c = optional (ActorCreate.b_biographie b) /\
  ActorCreate.filmographie c
    = default [] (optional (ActorCreate.b_filmographie b)).
Proof.
  unfold ActorCreate.validate.
  destruct (ActorCreate.b_nom b) as [| |n]; try discriminate.
  destruct (ActorCreate.b_filmographie b) as [| |l]; try discriminate;
    intros [= <-]; repeat split; reflexivity.
Qed.

Lemma movie_validate_fields (b : MovieCreate.body) (c : MovieCreate.t) :
  MovieCreate.validate b = Some c ->
  MovieCreate.b_nom b = Present (MovieCreate.nom c) /\
  MovieCreate.annee c = optional (MovieCreate.b_annee b) /\
  MovieCreate.genre c = optional (MovieCreate.b_genre b) /\
  MovieCreate.description c = optional (MovieCreate.b_description b) /\
  MovieCreate.lien_externe c = optional (MovieCreate.b_lien_externe b) /\
  MovieCreate.acteurs c = default [] (optional (MovieCreate.b_acteurs b)).
Proof.
  unfold MovieCreate.validate.
  destruct (MovieCreate.b_nom b) as [| |n]; try discriminate.
  destruct (MovieCreate.b_acteurs b) as [| |l]; try discriminate;
    intros [= <-]; repeat split; reflexivity.
Qed.

(** X7.  In the record a successful update returns, the identifier, the
    photo and the creation time are those of the stored record; the name is
    the payload's; each optional field (age, nationality, biography; year,
    genre, description, external link) is the payload's value when the
    payload gives one and the stored value when the key is absent or null. *)
Theorem update_keeps_unset_fields (x : string) (ba : ActorCreate.body)
    (bm : MovieCreate.body) (w : world) :
  (forall existing r w',
     get_actor x w = Ok existing -> update_actor x ba w = (Ok r, w') ->
     Actor.id r = Actor.id existing /\
     Actor.created_at r = Actor.created_at existing /\
     Actor.photo_profil r = Actor.photo_profil existing /\
     ActorCreate.b_nom ba = Present (Actor.nom r) /\
     Actor.age r = or_else (optional (ActorCreate.b_age ba)) (Actor.age existing) /\
     Actor.nationalite r
       = or_else (optional (ActorCreate.b_nationalite ba))
           (Actor.nationalite existing) /\
     Actor.biographie r
       = or_else (optional (ActorCreate.b_biographie ba))
           (Actor.biographie existing)) /\
  (forall existing r w',
     get_movie x w = Ok existing -> update_movie x bm w = (Ok r, w') ->
     Movie.id r = Movie.id existing /\
     Movie.created_at r = Movie.created_at existing /\
     Movie.photo_couverture r = Movie.photo_couverture existing /\
     MovieCreate.b_nom bm = Present (Movie.nom r) /\
     Movie.annee r = or_else (optional (MovieCreate.b_annee bm)) (Movie.annee existing) /\
     Movie.genre r = or_else (optional (MovieCreate.b_genre bm)) (Movie.genre existing) /\
     Movie.description r
       = or_else (optional (MovieCreate.b_description bm))
           (Movie.description existing) /\
     Movie.lien_externe r
       = or_else (optional (MovieCreate.b_lien_externe bm))
           (Movie.lien_externe existing)).
Proof.
  split.
  - intros existing r w' Hget Hup. apply get_actor_find in Hget.
    destruct (update_actor_Ok x ba w w' r Hup)
      as (c & ex & Hc & Henc & Hex & -> & _).
    rewrite Hget in Hex. injection Hex as <-.
    destruct (actor_validate_fields ba c Hc) as (Hn & <- & <- & <- & _).
    change (apply_set ?u ?a) with (Actor.set u a). rewrite actor_set_update.
    cbn [Actor.id Actor.created_at Actor.photo_profil Actor.nom Actor.age
         Actor.nationalite Actor.biographie].
    repeat split; try reflexivity. exact Hn.
  - intros existing r w' Hget Hup. apply get_movie_find in Hget.
    destruct (update_movie_Ok x bm w w' r Hup)
      as (c & ex & Hc & Henc & Hex & -> & _).
    rewrite Hget in Hex. injection Hex as <-.
    destruct (movie_validate_fields bm c Hc) as (Hn & <- & <- & <- & <- & _).
    change (apply_set ?u ?a) with (Movie.set u a). rewrite movie_set_update.
    cbn [Movie.id Movie.created_at Movie.photo_couverture Movie.nom Movie.annee
         Movie.genre Movie.description Movie.lien_externe].
    repeat split; try reflexivity. exact Hn.
Qed.

Lemma update_keeps_unset_fields_witness :
  Movie.annee (Movie.mk "m1" "La Mome" (Some 2007) (Some "Drame")
                 (Some "Film biographique sur Edith Piaf, 2007") None [] None 1002)
  = or_else (optional (MovieCreate.b_annee genre_only)) (Movie.annee la_mome).
Proof.
  destruct (update_keeps_unset_fields "m1" age_only genre_only sample)
    as (_ & Hmovie).
  destruct (Hmovie la_mome
              (Movie.mk "m1" "La Mome" (Some 2007) (Some "Drame")
                 (Some "Film biographique sur Edith Piaf, 2007") None [] None 1002)
              (snd (update_movie "m1" genre_only sample)))
    as (_ & _ & _ & _ & Hannee & _).
  - vm_compute. reflexivity.
  - vm_compute. reflexivity.
  - exact Hannee.
Defined.

Lemma set_first_idem {T : Type} `{Document T} (q : query) (upd : doc)
    (c : list T) :
  (forall x, matches q (dict x) = true ->
             matches q (dict (apply_set upd x)) = true) ->
  (forall x, apply_set upd (apply_set upd x) = apply_set upd x) ->
  set_first q upd (set_first q upd c) = set_first q upd c.
Proof.
  intros Hkeep Hidem. induction c as [|x r IH]; [reflexivity|].
  cbn [set_first]. destruct (matches q (dict x)) eqn:Hx; cbn [set_first].
  - rewrite (Hkeep x Hx), Hidem. reflexivity.
  - rewrite Hx, IH. reflexivity.
Qed.

Lemma actor_set_idem (c : ActorCreate.t) (a : Actor.t) :
  Actor.set (not_none (ActorCreate.to_dict c))
    (Actor.set (not_none (ActorCreate.to_dict c)) a)
  = Actor.set (not_none (ActorCreate.to_dict c)) a.
Proof.
  rewrite !actor_set_update.
  destruct c as [n [y|] [t|] [b|] l]; reflexivity.
Qed.

Lemma movie_set_idem (c : MovieCreate.t) (m : Movie.t) :
  Movie.set (not_none (MovieCreate.to_dict c))
    (Movie.set (not_none (MovieCreate.to_dict c)) m)
  = Movie.set (not_none (MovieCreate.to_dict c)) m.
Proof.
  rewrite !movie_set_update.
  destruct c as [n [y|] [g|] [d|] l [e|]]; reflexivity.
Qed.

(** X8.  An update is idempotent: sending the payload of a successful update
    once more returns the same record and leaves the store as the first
    update left it. *)
Theorem update_is_idempotent (x : string) (ba : ActorCreate.body)
    (bm : MovieCreate.body) (w : world) :
  (forall r w', update_actor x ba w = (Ok r, w') ->
                update_actor x ba w' = (Ok r, w')) /\
  (forall r w', update_movie x bm w = (Ok r, w') ->
                update_movie x bm w' = (Ok r, w')).
Proof.
  split.
  - intros r w' Hup.
    destruct (update_actor_Ok x ba w w' r Hup)
      as (c & ex & Hc & Henc & Hex & -> & ->).
    assert (Hid : forall a : Actor.t, matches (by_id x) (dict a) = true ->
                  matches (by_id x)
                    (dict (apply_set (not_none (ActorCreate.to_dict c)) a)) = true).
    { intros a. rewrite !actor_by_id, actor_update_keeps_id. auto. }
    assert (Hfound := find_one_set_first _ (not_none (ActorCreate.to_dict c)) _ _
                        Hex (Hid _ (proj2 (find_one_matches _ _ _ Hex)))).
    unfold update_actor. rewrite Hc. cbn [actors movies uploads].
    rewrite Hfound, (update_one_Ok _ _ _ Henc). cbv zeta. cbn [actors].
    rewrite set_first_idem by (exact Hid || apply actor_set_idem).
    rewrite Hfound. reflexivity.
  - intros r w' Hup.
    destruct (update_movie_Ok x bm w w' r Hup)
      as (c & ex & Hc & Henc & Hex & -> & ->).
    assert (Hid : forall m : Movie.t, matches (by_id x) (dict m) = true ->
                  matches (by_id x)
                    (dict (apply_set (not_none (MovieCreate.to_dict c)) m)) = true).
    { intros m. rewrite !movie_by_id, movie_update_keeps_id. auto. }
    assert (Hfound := find_one_set_first _ (not_none (MovieCreate.to_dict c)) _ _
                        Hex (Hid _ (proj2 (find_one_matches _ _ _ Hex)))).
    unfold update_movie. rewrite Hc. cbn [actors movies uploads].
    rewrite Hfound, (update_one_Ok _ _ _ Henc). cbv zeta. cbn [movies].
    rewrite set_first_idem by (exact Hid || apply movie_set_idem).
    rewrite Hfound. reflexivity.
Qed.

Lemma update_is_idempotent_witness :
  update_movie "m1" genre_only (snd (update_movie "m1" genre_only sample))
  = update_movie "m1" genre_only sample.
Proof.
  destruct (update_is_idempotent "m1" age_only genre_only sample) as (_ & Hmovie).
  rewrite (surjective_pairing (update_movie "m1" genre_only sample)) at 2.
  apply Hmovie. vm_compute. reflexivity.
Defined.

(** ** File names *)

Lemma app_String (x : ascii) (a b : string) :
  String x a +:+ b = String x (a +:+ b).
Proof. reflexivity. Qed.

Lemma app_empty_l (a : string) : "" +:+ a = a.
Proof. reflexivity. Qed.

Lemma app_empty_r (a : string) : a +:+ "" = a.
Proof.
  induction a as [|x a IH]; [reflexivity|]. rewrite app_String, IH. reflexivity.
Qed.

Lemma chars_app (a b : string) : chars (a +:+ b) = (chars a ++ chars b)%list.
Proof.
  unfold chars. induction a as [|c a IH]; [reflexivity|].
  rewrite app_String. simpl. f_equal. exact IH.
Qed.

Lemma free_of_app (c : ascii) (a b : string) :
  free_of c (a +:+ b) <-> free_of c a /\ free_of c b.
Proof.
  unfold free_of. rewrite chars_app, in_app_iff. tauto.
Qed.

Lemma free_of_cons (c x : ascii) (s : string) :
  free_of c (String x s) <-> x <> c /\ free_of c s.
Proof. unfold free_of. cbn [chars list_ascii_of_string In]. tauto. Qed.

Lemma free_of_substring (c : ascii) (s : string) (n m : nat) :
  free_of c s -> free_of c (String.substring n m s).
Proof.
  revert n m. induction s as [|x s IH]; intros n m Hs.
  - destruct n, m; exact Hs.
  - apply free_of_cons in Hs as [Hx Hs]. destruct n as [|n].
    + destruct m as [|m]; cbn [String.substring].
      * unfold free_of. simpl. tauto.
      * apply free_of_cons. split; [exact Hx | apply IH; exact Hs].
    + cbn [String.substring]. apply IH. exact Hs.
Qed.

Lemma app_cons_end (cur : string) (c : ascii) (s : string) :
  (cur +:+ String c "") +:+ s = cur +:+ String c s.
Proof.
  induction cur as [|x cur IH]; [reflexivity|].
  rewrite !app_String, IH. reflexivity.
Qed.

(** A string without the separator is not split. *)
Lemma split_from_free (sep : ascii) (cur s : string) :
  free_of sep s -> split_from sep cur s = [cur +:+ s].
Proof.
  revert cur. induction s as [|c s IH]; intros cur Hs.
  - cbn [split_from]. rewrite app_empty_r. reflexivity.
  - apply free_of_cons in Hs as [Hc Hs]. cbn [split_from].
    destruct (Ascii.eqb_spec c sep) as [Heq|_]; [contradiction|].
    rewrite IH by exact Hs. rewrite app_cons_end. reflexivity.
Qed.

Lemma split_from_nonempty (sep : ascii) (cur s : string) :
  split_from sep cur s <> [].
Proof.
  revert cur. induction s as [|c s IH]; intros cur; cbn [split_from].
  - discriminate.
  - destruct (Ascii.eqb c sep); [discriminate | apply IH].
Qed.

Lemma last_cons_nonempty {A : Type} (x d : A) (l : list A) :
  l <> [] -> List.last (x :: l) d = List.last l d.
Proof. destruct l; [contradiction | reflexivity]. Qed.

(** The piece after the last separator. *)
Lemma split_from_last (sep : ascii) (cur base ext : string) :
  free_of sep ext ->
  List.last (split_from sep cur (base +:+ String sep ext)) "" = ext.
Proof.
  intros Hext. revert cur. induction base as [|c base IH]; intros cur.
  - rewrite app_empty_l. cbn [split_from]. rewrite Ascii.eqb_refl.
    rewrite last_cons_nonempty by apply split_from_nonempty.
    rewrite split_from_free by exact Hext. reflexivity.
  - rewrite app_String. cbn [split_from]. destruct (Ascii.eqb c sep).
    + rewrite last_cons_nonempty by apply split_from_nonempty. apply IH.
    + apply IH.
Qed.

(** Every piece of a split is made of characters of the string. *)
Lemma split_from_free_of (c sep : ascii) (cur s : string) :
  free_of c cur -> free_of c s ->
  Forall (free_of c) (split_from sep cur s).
Proof.
  revert cur. induction s as [|x s IH]; intros cur Hcur Hs; cbn [split_from].
  - constructor; [exact Hcur | constructor].
  - apply free_of_cons in Hs as [Hx Hs]. destruct (Ascii.eqb x sep).
    + constructor; [exact Hcur|]. apply IH; [|exact Hs].
      unfold free_of. simpl. tauto.
    + apply IH; [|exact Hs]. apply free_of_app. split; [exact Hcur|].
      apply free_of_cons. split; [exact Hx|]. unfold free_of. simpl. tauto.
Qed.

Lemma extension_free_of (c : ascii) (s : string) :
  free_of c s -> free_of c (List.last (split "." s) "").
Proof.
  intros Hs. unfold split.
  assert (Hall : Forall (free_of c) (split_from "." "" s)).
  { apply split_from_free_of; [|exact Hs]. unfold free_of. simpl. tauto. }
  assert (Hne := split_from_nonempty "." "" s).
  induction Hall as [|p l Hp Hl IH]; [contradiction|].
  destruct l as [|q l]; [exact Hp|].
  rewrite last_cons_nonempty by discriminate. apply IH. discriminate.
Qed.

(** The name of a path without a slash is the path. *)
Lemma path_name_flat (c : ascii) (s : string) :
  free_of "/" (String c s) -> c <> "."%char -> path_name (String c s) = String c s.
Proof.
  intros Hs Hc. unfold path_name, split.
  rewrite split_from_free by exact Hs. rewrite app_empty_l.
  cbn [List.filter String.eqb]. destruct (Ascii.eqb_spec c ".") as [Heq|_]; [contradiction|].
  reflexivity.
Qed.

(** ** Photo uploads *)

Lemma upload_actor_photo_image (hex x ct : string) (f : UploadFile) (w : world) :
  content_type f = Some ct -> startswith ct "image/" = true ->
  upload_actor_photo hex None x f w =
  (Ok ("/uploads/" +:+ path_name (upload_name "actor_" hex x f)),
   {| actors :=
        set_first (by_id x)
          {[ "photo_profil" :=
               VStr ("/uploads/" +:+ path_name (upload_name "actor_" hex x f)) ]}
          (actors w);
      movies := movies w;
      uploads := <[upload_name "actor_" hex x f := file f]> (uploads w) |}).
Proof.
  intros Hct Himg. unfold upload_actor_photo, save_upload_file.
  rewrite Hct, Himg. reflexivity.
Qed.

Lemma upload_movie_photo_image (hex x ct : string) (f : UploadFile) (w : world) :
  content_type f = Some ct -> startswith ct "image/" = true ->
  upload_movie_photo hex None x f w =
  (Ok ("/uploads/" +:+ path_name (upload_name "movie_" hex x f)),
   {| actors := actors w;
      movies :=
        set_first (by_id x)
          {[ "photo_couverture" :=
               VStr ("/uploads/" +:+ path_name (upload_name "movie_" hex x f)) ]}
          (movies w);
      uploads := <[upload_name "movie_" hex x f := file f]> (uploads w) |}).
Proof.
  intros Hct Himg. unfold upload_movie_photo, save_upload_file.
  rewrite Hct, Himg. reflexivity.
Qed.



Lemma free_of_literal_actor : free_of "/" "actor_".
Proof. unfold free_of. simpl. intuition discriminate. Qed.

Lemma free_of_literal_movie : free_of "/" "movie_".
Proof. unfold free_of. simpl. intuition discriminate. Qed.

Lemma free_of_literal_mark (s : string) :
  s = "_" \/ s = "." -> free_of "/" s.
Proof. intros [->| ->]; unfold free_of; simpl; intuition discriminate. Qed.

Lemma upload_name_free (prefix hex x : string) (f : UploadFile) :
  free_of "/" prefix -> free_of "/" x -> free_of "/" hex ->
  free_of "/" (filename f) ->
  free_of "/" (upload_name prefix hex x f).
Proof.
  intros Hp Hx Hh Hf. unfold upload_name.
  repeat (apply free_of_app; split); try assumption.
  - apply free_of_literal_mark. left. reflexivity.
  - apply free_of_substring. exact Hh.
  - apply free_of_literal_mark. right. reflexivity.
  - apply extension_free_of. exact Hf.
Qed.

Lemma upload_name_actor_flat (hex x : string) (f : UploadFile) :
  free_of "/" x -> free_of "/" hex -> free_of "/" (filename f) ->
  path_name (upload_name "actor_" hex x f) = upload_name "actor_" hex x f.
Proof.
  intros Hx Hh Hf.
  pose proof (upload_name_free "actor_" hex x f free_of_literal_actor Hx Hh Hf)
    as Hfree.
  unfold upload_name in *. rewrite !app_String in *.
  apply path_name_flat; [exact Hfree | discriminate].
Qed.

Lemma upload_name_movie_flat (hex x : string) (f : UploadFile) :
  free_of "/" x -> free_of "/" hex -> free_of "/" (filename f) ->
  path_name (upload_name "movie_" hex x f) = upload_name "movie_" hex x f.
Proof.
  intros Hx Hh Hf.
  pose proof (upload_name_free "movie_" hex x f free_of_literal_movie Hx Hh Hf)
    as Hfree.
  unfold upload_name in *. rewrite !app_String in *.
  apply path_name_flat; [exact Hfree | discriminate].
Qed.

Lemma extension_of (base ext : string) :
  free_of "." ext -> List.last (split "." (base +:+ "." +:+ ext)) "" = ext.
Proof. intros Hext. unfold split. apply split_from_last. exact Hext. Qed.

Lemma extension_none (name : string) :
  free_of "." name -> List.last (split "." name) "" = name.
Proof.
  intros Hn. unfold split. rewrite split_from_free by exact Hn.
  rewrite app_empty_l. reflexivity.
Qed.

(** X10.  When the identifier, [hex] and the name of the uploaded file hold
    no slash, a successful photo upload answers ["/uploads/"] followed by
    the file name it built, the uploads directory holds the uploaded bytes
    under that very name, and every other file is as before.  The name ends
    in what follows the last dot of the uploaded file's name, and in the
    whole of that name when it has no dot. *)
Theorem upload_url_names_file (hex x ct : string) (f : UploadFile) (w : world) :
  content_type f = Some ct -> startswith ct "image/" = true ->
  free_of "/" x -> free_of "/" hex -> free_of "/" (filename f) ->
  (fst (upload_actor_photo hex None x f w)
     = Ok ("/uploads/" +:+ upload_name "actor_" hex x f) /\
   uploads (snd (upload_actor_photo hex None x f w))
     !! upload_name "actor_" hex x f = Some (file f) /\
   forall k, k <> upload_name "actor_" hex x f ->
     uploads (snd (upload_actor_photo hex None x f w)) !! k = uploads w !! k) /\
  (fst (upload_movie_photo hex None x f w)
     = Ok ("/uploads/" +:+ upload_name "movie_" hex x f) /\
   uploads (snd (upload_movie_photo hex None x f w))
     !! upload_name "movie_" hex x f = Some (file f) /\
   forall k, k <> upload_name "movie_" hex x f ->
     uploads (snd (upload_movie_photo hex None x f w)) !! k = uploads w !! k) /\
  (forall prefix base ext,
     filename f = base +:+ "." +:+ ext -> free_of "." ext ->
     upload_name prefix hex x f
     = prefix +:+ x +:+ "_" +:+ String.substring 0 8 hex +:+ "." +:+ ext) /\
  (forall prefix,
     free_of "." (filename f) ->
     upload_name prefix hex x f
     = prefix +:+ x +:+ "_" +:+ String.substring 0 8 hex +:+ "." +:+ filename f).
Proof.
  intros Hct Himg Hx Hh Hf.
  rewrite (upload_actor_photo_image hex x ct f w Hct Himg).
  rewrite (upload_movie_photo_image hex x ct f w Hct Himg).
  rewrite upload_name_actor_flat, upload_name_movie_flat by assumption.
  cbn [fst snd uploads].
  split; [|split; [|split]].
  - split; [reflexivity|]. split; [apply lookup_insert_eq|].
    intros k Hk. apply lookup_insert_ne. congruence.
  - split; [reflexivity|]. split; [apply lookup_insert_eq|].
    intros k Hk. apply lookup_insert_ne. congruence.
  - intros prefix base ext Hname Hext. unfold upload_name.
    rewrite Hname, extension_of by exact Hext. reflexivity.
  - intros prefix Hname. unfold upload_name.
    rewrite extension_none by exact Hname. reflexivity.
Qed.

Lemma upload_url_names_file_witness :
  fst (upload_actor_photo "0123456789abcdef" None "a1" png sample)
    = Ok "/uploads/actor_a1_01234567.png" /\
  uploads (snd (upload_actor_photo "0123456789abcdef" None "a1" png sample))
    !! "actor_a1_01234567.png" = Some "PNG".
Proof.
  assert (Hfree : forall s, s = "a1" \/ s = "0123456789abcdef" \/ s = filename png ->
                            free_of "/" s).
  { intros s [->|[->| ->]]; unfold free_of; simpl; intuition discriminate. }
  destruct (upload_url_names_file "0123456789abcdef" "a1" "image/png" png sample)
    as ((Hurl & Hfile & _) & _ & Hext & _);
    [reflexivity | reflexivity | apply Hfree; auto ..|].
  rewrite (Hext "actor_" "test" "png") in Hurl, Hfile;
    [| reflexivity | unfold free_of; simpl; intuition discriminate
     | reflexivity | unfold free_of; simpl; intuition discriminate].
  split; [exact Hurl | exact Hfile].
Defined.

Lemma upload_actor_photo_failed (hex x ct : string) (e : io_failure)
    (f : UploadFile) (w : world) :
  content_type f = Some ct -> startswith ct "image/" = true ->
  upload_actor_photo hex (Some e) x f w =
  (Err (HTTPException 500 ("Could not save file: " +:+ e)),
   {| actors := actors w; movies := movies w;
      uploads :=
        match written e with
        | None => uploads w
        | Some n =>
            <[upload_name "actor_" hex x f := String.substring 0 n (file f)]>
              (uploads w)
        end |}).
Proof.
  intros Hct Himg. unfold upload_actor_photo, save_upload_file.
  rewrite Hct, Himg. reflexivity.
Qed.

Lemma upload_movie_photo_failed (hex x ct : string) (e : io_failure)
    (f : UploadFile) (w : world) :
  content_type f = Some ct -> startswith ct "image/" = true ->
  upload_movie_photo hex (Some e) x f w =
  (Err (HTTPException 500 ("Could not save file: " +:+ e)),
   {| actors := actors w; movies := movies w;
      uploads :=
        match written e with
        | None => uploads w
        | Some n =>
            <[upload_name "movie_" hex x f := String.substring 0 n (file f)]>
              (uploads w)
        end |}).
Proof.
  intros Hct Himg. unfold upload_movie_photo, save_upload_file.
  rewrite Hct, Himg. reflexivity.
Qed.

Lemma upload_actor_photo_refused (hex : string) (io_error : option io_failure)
    (x : string) (f : UploadFile) (w : world) :
  (forall ct, content_type f = Some ct -> startswith ct "image/" = false) ->
  snd (upload_actor_photo hex io_error x f w) = w.
Proof.
  intros Hct. unfold upload_actor_photo.
  destruct (content_type f) as [ct|]; [|reflexivity].
  rewrite (Hct ct eq_refl). reflexivity.
Qed.

Lemma upload_movie_photo_refused (hex : string) (io_error : option io_failure)
    (x : string) (f : UploadFile) (w : world) :
  (forall ct, content_type f = Some ct -> startswith ct "image/" = false) ->
  snd (upload_movie_photo hex io_error x f w) = w.
Proof.
  intros Hct. unfold upload_movie_photo.
  destruct (content_type f) as [ct|]; [|reflexivity].
  rewrite (Hct ct eq_refl). reflexivity.
Qed.

(** X11.  A photo upload that does not succeed changes no record, and no
    file other than the one it was writing.  A file whose media type does
    not start with ["image/"] is refused with 400 before anything is
    written: the records and the directory are as before.  A file that cannot
    be saved gives 500 with the reason in the detail; the directory is as
    before when the file could not be opened, and when the copy broke off the
    file is there and holds what had been copied of the upload. *)
Theorem failed_upload_keeps_records (hex : string)
    (io_error : option io_failure) (x : string) (f : UploadFile) (w : world) :
  (forall e w', upload_actor_photo hex io_error x f w = (Err e, w') ->
     actors w' = actors w /\ movies w' = movies w /\
     forall k, k <> upload_name "actor_" hex x f ->
               uploads w' !! k = uploads w !! k) /\
  (forall e w', upload_movie_photo hex io_error x f w = (Err e, w') ->
     actors w' = actors w /\ movies w' = movies w /\
     forall k, k <> upload_name "movie_" hex x f ->
               uploads w' !! k = uploads w !! k) /\
  (forall ct, content_type f = Some ct -> startswith ct "image/" = false ->
     upload_actor_photo hex io_error x f w
       = (Err (HTTPException 400 "File must be an image"), w) /\
     upload_movie_photo hex io_error x f w
       = (Err (HTTPException 400 "File must be an image"), w)) /\
  (forall ct e, content_type f = Some ct -> startswith ct "image/" = true ->
     io_error = Some e ->
     (fst (upload_actor_photo hex io_error x f w)
        = Err (HTTPException 500 ("Could not save file: " +:+ e)) /\
      fst (upload_movie_photo hex io_error x f w)
        = Err (HTTPException 500 ("Could not save file: " +:+ e))) /\
     (written e = None ->
      snd (upload_actor_photo hex io_error x f w) = w /\
      snd (upload_movie_photo hex io_error x f w) = w) /\
     (forall n, written e = Some n ->
      uploads (snd (upload_actor_photo hex io_error x f w))
        !! upload_name "actor_" hex x f = Some (String.substring 0 n (file f)) /\
      uploads (snd (upload_movie_photo hex io_error x f w))
        !! upload_name "movie_" hex x f = Some (String.substring 0 n (file f)))).
Proof.
  split; [|split; [|split]].
  - intros e w' Hup.
    destruct (content_type f) as [ct|] eqn:Hct.
    2:{ unfold upload_actor_photo in Hup. rewrite Hct in Hup.
        injection Hup as _ <-. auto. }
    destruct (startswith ct "image/") eqn:Himg.
    2:{ unfold upload_actor_photo in Hup. rewrite Hct, Himg in Hup.
        injection Hup as _ <-. auto. }
    destruct io_error as [err|].
    + rewrite (upload_actor_photo_failed hex x ct err f w Hct Himg) in Hup.
      injection Hup as _ <-. cbn [actors movies uploads].
      split; [reflexivity|]. split; [reflexivity|].
      intros k Hk. destruct (written err); [|reflexivity].
      apply lookup_insert_ne. congruence.
    + rewrite (upload_actor_photo_image hex x ct f w Hct Himg) in Hup.
      discriminate Hup.
  - intros e w' Hup.
    destruct (content_type f) as [ct|] eqn:Hct.
    2:{ unfold upload_movie_photo in Hup. rewrite Hct in Hup.
        injection Hup as _ <-. auto. }
    destruct (startswith ct "image/") eqn:Himg.
    2:{ unfold upload_movie_photo in Hup. rewrite Hct, Himg in Hup.
        injection Hup as _ <-. auto. }
    destruct io_error as [err|].
    + rewrite (upload_movie_photo_failed hex x ct err f w Hct Himg) in Hup.
      injection Hup as _ <-. cbn [actors movies uploads].
      split; [reflexivity|]. split; [reflexivity|].
      intros k Hk. destruct (written err); [|reflexivity].
      apply lookup_insert_ne. congruence.
    + rewrite (upload_movie_photo_image hex x ct f w Hct Himg) in Hup.
      discriminate Hup.
  - intros ct Hct Himg. unfold upload_actor_photo, upload_movie_photo.
    rewrite Hct, Himg. split; reflexivity.
  - intros ct e Hct Himg ->.
    rewrite (upload_actor_photo_failed hex x ct e f w Hct Himg).
    rewrite (upload_movie_photo_failed hex x ct e f w Hct Himg).
    cbn [fst snd uploads].
    split; [split; reflexivity|]. split.
    + intros ->. split; apply world_eta.
    + intros n ->. split; apply lookup_insert_eq.
Qed.

Lemma failed_upload_keeps_records_witness :
  upload_actor_photo "0123456789abcdef" None "a1"
    {| filename := "notes.txt"; content_type := Some "text/plain";
       file := "hello" |} sample
    = (Err (HTTPException 400 "File must be an image"), sample) /\
  fst (upload_movie_photo "0123456789abcdef"
         (Some {| reason := "disk full"; written := Some 2%nat |}) "m1" png
         sample)
    = Err (HTTPException 500 "Could not save file: disk full") /\
  uploads (snd (upload_movie_photo "0123456789abcdef"
                  (Some {| reason := "disk full"; written := Some 2%nat |})
                  "m1" png sample))
    !! "movie_m1_01234567.png" = Some "PN" /\
  movies (snd (upload_movie_photo "0123456789abcdef"
                 (Some {| reason := "disk full"; written := Some 2%nat |})
                 "m1" png sample))
    = movies sample.
Proof.
  split; [|split; [|split]].
  - destruct (failed_upload_keeps_records "0123456789abcdef" None "a1"
                {| filename := "notes.txt"; content_type := Some "text/plain";
                   file := "hello" |} sample) as (_ & _ & Hrefused & _).
    apply (Hrefused "text/plain"); reflexivity.
  - destruct (failed_upload_keeps_records "0123456789abcdef"
                (Some {| reason := "disk full"; written := Some 2%nat |})
                "m1" png sample) as (_ & _ & _ & Hio).
    destruct (Hio "image/png" {| reason := "disk full"; written := Some 2%nat |})
      as ((_ & Hanswer) & _); [reflexivity | reflexivity | reflexivity |].
    exact Hanswer.
  - destruct (failed_upload_keeps_records "0123456789abcdef"
                (Some {| reason := "disk full"; written := Some 2%nat |})
                "m1" png sample) as (_ & _ & _ & Hio).
    destruct (Hio "image/png" {| reason := "disk full"; written := Some 2%nat |})
      as (_ & _ & Hfile); [reflexivity | reflexivity | reflexivity |].
    destruct (Hfile 2%nat eq_refl) as (_ & Hmovie). exact Hmovie.
  - destruct (failed_upload_keeps_records "0123456789abcdef"
                (Some {| reason := "disk full"; written := Some 2%nat |})
                "m1" png sample) as (_ & Hrecords & _).
    destruct (Hrecords (HTTPException 500 "Could not save file: disk full")
                (snd (upload_movie_photo "0123456789abcdef"
                        (Some {| reason := "disk full"; written := Some 2%nat |})
                        "m1" png sample)))
      as (_ & Hmovies & _); [vm_compute; reflexivity|].
    exact Hmovies.
Defined.

(** ** The global search *)

Lemma search_query_matches (q f1 f2 f3 : string) (d : doc) :
  matches (search_query q f1 f2 f3) d =
  cond_holds (RegexCond q "i") (field d f1) ||
  (cond_holds (RegexCond q "i") (field d f2) ||
   cond_holds (RegexCond q "i") (field d f3)).
Proof.
  unfold search_query. rewrite matches_singleton, clause_holds_or.
  cbn [existsb fst snd]. rewrite orb_false_r. reflexivity.
Qed.

Lemma bind_Ok_inv {A B : Type} (r : result A) (k : A -> result B) (b : B) :
  r ≫= k = Ok b -> exists a, r = Ok a /\ k a = Ok b.
Proof.
  destruct r as [a|e]; [|discriminate]. intros Hk. exists a. split;
    [reflexivity | exact Hk].
Qed.

(** X12.  The global search needs its parameter (422 without it).  Each of
    the two lists it returns has at most ten records, and every record in
    them is a stored record in which the store finds the text, read as a
    pattern, in one of the three fields of its kind. *)
Theorem global_search_sound (q : option string) (w : world) :
  (q = None -> global_search q w = Err RequestValidationError) /\
  (forall la lm, global_search q w = Ok (la, lm) ->
     exists s, q = Some s /\
       (length la <= 10)%nat /\ (length lm <= 10)%nat /\
       (forall a, In a la ->
          In a (actors w) /\
          (found s (VStr (Actor.nom a)) \/
           found s (opt_str (Actor.nationalite a)) \/
           found s (opt_str (Actor.biographie a)))) /\
       (forall m, In m lm ->
          In m (movies w) /\
          (found s (VStr (Movie.nom m)) \/
           found s (opt_str (Movie.genre m)) \/
           found s (opt_str (Movie.description m))))).
Proof.
  split; [intros ->; reflexivity|].
  intros la lm. unfold global_search. destruct q as [s|]; [|discriminate].
  intros Hg. apply bind_Ok_inv in Hg as (la' & Ha & Hg).
  apply bind_Ok_inv in Hg as (lm' & Hm & Hg). injection Hg as <- <-.
  exists s. split; [reflexivity|].
  split; [pose proof (cursor_length _ _ _ Ha); lia|].
  split; [pose proof (cursor_length _ _ _ Hm); lia|].
  unfold found. split.
  - intros a Hin. destruct (listed_matches _ _ _ _ _ Ha Hin) as [Hst Hq].
    split; [exact Hst|].
    destruct (actor_fields a) as (Hn & Ht & Hb & _).
    rewrite search_query_matches, Hn, Ht, Hb, !orb_true_iff in Hq. exact Hq.
  - intros m Hin. destruct (listed_matches _ _ _ _ _ Hm Hin) as [Hst Hq].
    split; [exact Hst|].
    destruct (movie_fields m) as (Hn & Hg & Hd & _).
    rewrite search_query_matches, Hn, Hg, Hd, !orb_true_iff in Hq. exact Hq.
Qed.

Lemma global_search_sound_witness :
  exists s, Some "piaf" = Some s /\
    (length (@nil Actor.t) <= 10)%nat /\ (length [la_mome] <= 10)%nat /\
    (forall a, In a [] ->
       In a (actors sample) /\
       (found s (VStr (Actor.nom a)) \/
        found s (opt_str (Actor.nationalite a)) \/
        found s (opt_str (Actor.biographie a)))) /\
    (forall m, In m [la_mome] ->
       In m (movies sample) /\
       (found s (VStr (Movie.nom m)) \/
        found s (opt_str (Movie.genre m)) \/
        found s (opt_str (Movie.description m)))).
Proof.
  destruct (global_search_sound (Some "piaf") sample) as (_ & Hsound).
  apply Hsound. vm_compute. reflexivity.
Defined.

Lemma filter_all {A : Type} (f : A -> bool) (l : list A) :
  (forall x, f x = true) -> List.filter f l = l.
Proof.
  intros Hf. induction l as [|x l IH]; [reflexivity|].
  simpl. rewrite Hf, IH. reflexivity.
Qed.

Lemma found_empty (v : string) : cond_holds (RegexCond "" "i") (VStr v) = true.
Proof.
  unfold cond_holds. change (Regex.compile "" "i") with (Some (true, [[]] : Regex.t)).
  unfold matches_regex, Regex.search. cbn [fst snd existsb].
  destruct (chars v); reflexivity.
Qed.

Lemma find_search_actors (q : string) (w : world) :
  find (search_query q "nom" "nationalite" "biographie") (actors w)
  = find (actors_query (Some q) None None None None) (actors w).
Proof.
  rewrite actors_search_query. destruct (String.eqb_spec q "") as [->|_];
    [|reflexivity].
  rewrite find_all.
  rewrite find_Ok by (apply search_query_ok; [constructor | intros []]).
  f_equal.
  apply filter_all. intros a. rewrite search_query_matches.
  destruct (actor_fields a) as (-> & _). rewrite found_empty. reflexivity.
Qed.

Lemma find_search_movies (q : string) (w : world) :
  find (search_query q "nom" "genre" "description") (movies w)
  = find (movies_query (Some q) None None None) (movies w).
Proof.
  rewrite movies_search_query. destruct (String.eqb_spec q "") as [->|_];
    [|reflexivity].
  rewrite find_all.
  rewrite find_Ok by (apply search_query_ok; [constructor | intros []]).
  f_equal.
  apply filter_all. intros m. rewrite search_query_matches.
  destruct (movie_fields m) as (-> & _). rewrite found_empty. reflexivity.
Qed.

(** X13.  The global search is the two search listings with a limit of ten:
    its list of actors is what the actor listing returns for the same search
    text, no filter and limit 10, and likewise for the movies; it fails when
    one of them fails, the actors first. *)
Theorem global_search_is_two_listings (q : string) (w : world) :
  global_search (Some q) w =
    (la ← get_actors (Some q) None None None None (Some 10) w;
     lm ← get_movies (Some q) None None None (Some 10) w;
     Ok (la, lm)).
Proof.
  unfold global_search, get_actors, get_movies.
  change (limit_param (Some 10)) with (@Ok Z 10). rewrite !bind_Ok.
  rewrite find_search_actors, find_search_movies. reflexivity.
Qed.

(** ** Listings and the limit *)

Lemma cursor_count {T : Type} (n m : Z) (cursor : result (list T)) (l : list T) :
  0 <= n <= m -> to_list m (limit m cursor) = Ok l ->
  exists l', to_list n (limit n cursor) = Ok l' /\
             length l' = Nat.min (Z.to_nat n) (length l).
Proof.
  intros [Hn Hm] Hl. apply to_list_limit_Ok in Hl as (_ & l0 & -> & ->).
  exists (take (Z.to_nat n) l0). split; [apply cursor_all; exact Hn|].
  rewrite !length_take. lia.
Qed.

(** X14.  A smaller limit returns as many records as it allows: when a
    request with limit [m] returns a list, the same request with a limit [n]
    between 0 and [m] returns a list too, and that list has [n] records, or
    as many as the first list when that one has fewer. *)
Theorem listing_count_by_limit (search nom nationalite genre : option string)
    (age_min age_max annee : option Z) (n m : Z) (w : world) :
  0 <= n <= m ->
  (forall l, get_actors search nom nationalite age_min age_max (Some m) w = Ok l ->
     exists l',
       get_actors search nom nationalite age_min age_max (Some n) w = Ok l' /\
       length l' = Nat.min (Z.to_nat n) (length l)) /\
  (forall l, get_movies search nom genre annee (Some m) w = Ok l ->
     exists l',
       get_movies search nom genre annee (Some n) w = Ok l' /\
       length l' = Nat.min (Z.to_nat n) (length l)).
Proof.
  intros Hnm. unfold get_actors, get_movies. split; intros l Hl.
  - apply bind_Ok_inv in Hl as (m' & Hlim & Hl).
    apply limit_param_Ok in Hlim as [-> Hle].
    change (default 50 (Some m)) with m in *.
    rewrite (proj2 (limit_param_Ok (Some n) n))
      by (split; [reflexivity | change (n <= 100); lia]).
    rewrite bind_Ok. eapply cursor_count; eassumption.
  - apply bind_Ok_inv in Hl as (m' & Hlim & Hl).
    apply limit_param_Ok in Hlim as [-> Hle].
    change (default 50 (Some m)) with m in *.
    rewrite (proj2 (limit_param_Ok (Some n) n))
      by (split; [reflexivity | change (n <= 100); lia]).
    rewrite bind_Ok. eapply cursor_count; eassumption.
Qed.

Lemma listing_count_by_limit_witness :
  exists l',
    get_actors None None (Some "fran") None None (Some 1) sample = Ok l' /\
    length l' = Nat.min (Z.to_nat 1) (length [marion; jean]).
Proof.
  destruct (listing_count_by_limit None None (Some "fran") None None None None
              1 50 sample) as (Hactors & _); [lia|].
  apply Hactors. vm_compute. reflexivity.
Defined.

Lemma filter_sublist {A : Type} (f : A -> bool) (l : list A) :
  List.filter f l `sublist_of` l.
Proof.
  induction l as [|x l IH]; simpl; [constructor|].
  destruct (f x); [apply sublist_skip | apply sublist_cons]; exact IH.
Qed.

Lemma cursor_stored {T : Type} `{Document T} (n : Z) (q : query)
    (c l : list T) :
  to_list n (limit n (find q c)) = Ok l -> l ⊆+ c.
Proof.
  intros Hl. apply to_list_limit_Ok in Hl as (_ & l0 & Hfind & ->).
  unfold find in Hfind.
  destruct (query_ok q); [|destruct (query_fits q); discriminate Hfind].
  injection Hfind as <-. apply sublist_submseteq.
  transitivity (List.filter (fun x => matches q (dict x)) c).
  - apply sublist_take.
  - apply filter_sublist.
Qed.

(** X15.  Whatever a listing or the global search returns is taken from the
    collection: every record returned is a stored record, and none is
    returned more often than it is stored. *)
Theorem listing_from_collection (search nom nationalite genre : option string)
    (age_min age_max annee lim : option Z) (q : option string) (w : world) :
  (forall l, get_actors search nom nationalite age_min age_max lim w = Ok l ->
             l ⊆+ actors w) /\
  (forall l, get_movies search nom genre annee lim w = Ok l ->
             l ⊆+ movies w) /\
  (forall la lm, global_search q w = Ok (la, lm) ->
                 la ⊆+ actors w /\ lm ⊆+ movies w).
Proof.
  unfold get_actors, get_movies, global_search. split; [|split].
  - intros l Hl. apply bind_Ok_inv in Hl as (n & _ & Hl).
    eapply cursor_stored. exact Hl.
  - intros l Hl. apply bind_Ok_inv in Hl as (n & _ & Hl).
    eapply cursor_stored. exact Hl.
  - intros la lm Hg. destruct q as [s|]; [|discriminate Hg].
    apply bind_Ok_inv in Hg as (la' & Ha & Hg).
    apply bind_Ok_inv in Hg as (lm' & Hm & Hg). injection Hg as <- <-.
    split; eapply cursor_stored; eassumption.
Qed.

Lemma listing_from_collection_witness :
  [jean] ⊆+ actors sample.
Proof.
  destruct (listing_from_collection (Some "dujardin") None None None None None
              None None None sample) as (Hactors & _).
  apply Hactors. vm_compute. reflexivity.
Defined.

(** X16.  The limit has no lower bound.  With a limit of 0 a listing whose
    query the store accepts returns the empty list; with a negative limit it
    answers 500 whatever the filters and the store hold. *)
Theorem limit_edges (search nom nationalite genre : option string)
    (age_min age_max annee : option Z) (n : Z) (w : world) :
  (query_ok (actors_query search nom nationalite age_min age_max) = true ->
   get_actors search nom nationalite age_min age_max (Some 0) w = Ok []) /\
  (query_ok (movies_query search nom genre annee) = true ->
   get_movies search nom genre annee (Some 0) w = Ok []) /\
  (n < 0 ->
   get_actors search nom nationalite age_min age_max (Some n) w
     = Err InternalServerError /\
   get_movies search nom genre annee (Some n) w = Err InternalServerError).
Proof.
  unfold get_actors, get_movies. split; [|split].
  - intros Hq. change (limit_param (Some 0)) with (@Ok Z 0).
    rewrite bind_Ok, find_Ok by exact Hq. reflexivity.
  - intros Hq. change (limit_param (Some 0)) with (@Ok Z 0).
    rewrite bind_Ok, find_Ok by exact Hq. reflexivity.
  - intros Hn.
    rewrite (proj2 (limit_param_Ok (Some n) n))
      by (split; [reflexivity | change (n <= 100); lia]).
    rewrite !bind_Ok. unfold to_list.
    destruct (Z.ltb_spec n 0); [split; reflexivity | lia].
Qed.

Lemma limit_edges_witness :
  get_actors (Some "marion") None None None None (Some 0) sample = Ok [] /\
  get_movies None None None None (Some (-1)) sample = Err InternalServerError.
Proof.
  destruct (limit_edges (Some "marion") None None None None None None (-1) sample)
    as (Hzero & _ & Hneg).
  split; [apply Hzero; vm_compute; reflexivity|].
  apply Hneg. lia.
Defined.

(** ** Listings of distinct values after a creation *)

Lemma optional_Some {A : Type} (f : json_field A) (a : A) :
  optional f = Some a <-> f = Present a.
Proof. destruct f; simpl; split; congruence. Qed.

Lemma listing_append {T : Type} `{Document T} (name : string)
    (get : T -> option string) (c : list T) (x : T) (v : value) :
  (forall y, from_option field_values [] (dict y !! name) = [opt_str (get y)]) ->
  In v (List.filter truthy (distinct name (c ++ [x]))) <->
  In v (List.filter truthy (distinct name c)) \/
  exists s, v = VStr s /\ s <> "" /\ get x = Some s.
Proof.
  intros Hfield.
  rewrite (proj2 (listing_spec name get (c ++ [x]) Hfield) v).
  rewrite (proj2 (listing_spec name get c Hfield) v).
  split.
  - intros (s & Hv & Hs & y & Hy & Hg). apply in_app_iff in Hy as [Hy|[<-|[]]].
    + left. exists s. repeat split; try assumption. exists y. split; assumption.
    + right. exists s. repeat split; assumption.
  - intros [(s & Hv & Hs & y & Hy & Hg)|(s & Hv & Hs & Hg)].
    + exists s. repeat split; try assumption. exists y.
      split; [apply in_app_iff; left; exact Hy | exact Hg].
    + exists s. repeat split; try assumption. exists x.
      split; [apply in_app_iff; right; left; reflexivity | exact Hg].
Qed.

(** X17.  After a movie is created the genre listing holds what it held
    before and, when the payload gives a genre that is not the empty string,
    that genre; the nationality listing is unchanged.  Likewise a created
    actor adds its nationality to the nationality listing and leaves the
    genre listing as it was. *)
Theorem listings_after_create (uuid4 : string) (utcnow : datetime)
    (ba : ActorCreate.body) (bm : MovieCreate.body) (w : world) :
  (forall m w', create_movie uuid4 utcnow bm w = (Ok m, w') ->
     (forall v, In v (get_all_genres w') <->
        In v (get_all_genres w) \/
        exists g, v = VStr g /\ g <> "" /\ MovieCreate.b_genre bm = Present g) /\
     get_all_nationalities w' = get_all_nationalities w) /\
  (forall a w', create_actor uuid4 utcnow ba w = (Ok a, w') ->
     (forall v, In v (get_all_nationalities w') <->
        In v (get_all_nationalities w) \/
        exists n, v = VStr n /\ n <> "" /\
                  ActorCreate.b_nationalite ba = Present n) /\
     get_all_genres w' = get_all_genres w).
Proof.
  split.
  - intros m w'. rewrite create_movie_world.
    destruct (MovieCreate.validate bm) as [c|] eqn:Hc; [|discriminate].
    cbv zeta.
    destruct (from_option fits_int64 true (MovieCreate.annee c)); [|discriminate].
    intros [= <- <-]. split; [|reflexivity].
    intros v. unfold get_all_genres. cbn [movies].
    rewrite (listing_append "genre" Movie.genre _ _ v movie_genre_values).
    cbn [Movie.genre Movie.encoded].
    destruct (movie_validate_fields bm c Hc) as (_ & _ & -> & _).
    setoid_rewrite optional_Some. reflexivity.
  - intros a w'. rewrite create_actor_world.
    destruct (ActorCreate.validate ba) as [c|] eqn:Hc; [|discriminate].
    cbv zeta.
    destruct (from_option fits_int64 true (ActorCreate.age c)); [|discriminate].
    intros [= <- <-]. split; [|reflexivity].
    intros v. unfold get_all_nationalities. cbn [actors].
    rewrite (listing_append "nationalite" Actor.nationalite _ _ v
               actor_nationalite_values).
    cbn [Actor.nationalite Actor.encoded].
    destruct (actor_validate_fields ba c Hc) as (_ & _ & -> & _).
    setoid_rewrite optional_Some. reflexivity.
Qed.

Lemma listings_after_create_witness :
  In (VStr "Drame")
    (get_all_genres
       (snd (create_movie "m9" 9
               (MovieCreate.mk_body (Present "Essai") Absent (Present "Drame")
                  Absent Absent Absent)
               sample_blank))).
Proof.
  destruct (listings_after_create "m9" 9 age_only
              (MovieCreate.mk_body (Present "Essai") Absent (Present "Drame")
                 Absent Absent Absent)
              sample_blank) as (Hmovie & _).
  destruct (Hmovie (Movie.mk "m9" "Essai" None (Some "Drame") None None [] None 9)
              (snd (create_movie "m9" 9
                      (MovieCreate.mk_body (Present "Essai") Absent
                         (Present "Drame") Absent Absent Absent)
                      sample_blank))) as (Hgenres & _).
  - vm_compute. reflexivity.
  - apply Hgenres. right. exists "Drame".
    split; [reflexivity|]. split; [discriminate | reflexivity].
Defined.

(** ** Letter case, and the filters on plain text *)

Lemma occurs_ci_same_case (s s' v : string) :
  map lower (chars s) = map lower (chars s') ->
  occurs_ci s v <-> occurs_ci s' v.
Proof. intros Hlow. unfold occurs_ci. rewrite Hlow. reflexivity. Qed.

Lemma occurs_ci_opt_same_case (s s' : string) (o : option string) :
  map lower (chars s) = map lower (chars s') ->
  occurs_ci_opt s o <-> occurs_ci_opt s' o.
Proof.
  intros Hlow. unfold occurs_ci_opt. split; intros (h & Hh & Hocc); exists h;
    (split; [exact Hh|]).
  - apply (occurs_ci_same_case s s' h Hlow). exact Hocc.
  - apply (occurs_ci_same_case s s' h Hlow). exact Hocc.
Qed.

Lemma bool_eq_iff (a b : bool) : (a = true <-> b = true) -> a = b.
Proof. destruct a, b; intuition congruence. Qed.

Lemma lower_nul (c : ascii) : lower c = "000"%char -> c = "000"%char.
Proof.
  destruct c as [[] [] [] [] [] [] [] []]; vm_compute; congruence.
Qed.

Lemma same_case_nul (s s' : string) :
  map lower (chars s) = map lower (chars s') ->
  free_of "000" s -> free_of "000" s'.
Proof.
  unfold free_of. intros Hlow Hs Hin. apply Hs.
  apply (in_map lower) in Hin. rewrite <- Hlow in Hin.
  apply in_map_iff in Hin as (c & Hc & Hin).
  apply lower_nul in Hc. subst c. exact Hin.
Qed.

Lemma not_free_not_empty (s : string) : ~ free_of "000" s -> s <> "".
Proof. intros Hnul ->. apply Hnul. intros []. Qed.

Lemma find_actors_same_case (s s' : string) (w : world) :
  plain s -> plain s' -> map lower (chars s) = map lower (chars s') ->
  find (actors_query (Some s) None None None None) (actors w)
  = find (actors_query (Some s') None None None None) (actors w).
Proof.
  intros Hs Hs' Hlow.
  destruct (in_dec ascii_dec "000"%char (chars s)) as [Hin|Hnul].
  - assert (Hnul : ~ free_of "000" s) by (intros Hfree; exact (Hfree Hin)).
    assert (Hnul' : ~ free_of "000" s').
    { intros Hfree. apply Hnul. apply (same_case_nul s' s); [|exact Hfree].
      symmetry. exact Hlow. }
    rewrite !actors_search_query.
    rewrite (proj2 (String.eqb_neq s "") (not_free_not_empty s Hnul)).
    rewrite (proj2 (String.eqb_neq s' "") (not_free_not_empty s' Hnul')).
    rewrite !search_query_refused by assumption. reflexivity.
  - pose proof (same_case_nul s s' Hlow Hnul) as Hnul'.
    rewrite !find_Ok by (apply actors_search_ok; assumption).
    f_equal. apply List.filter_ext. intros a. apply bool_eq_iff.
    rewrite (actors_search_plain s a Hs Hnul), (actors_search_plain s' a Hs' Hnul').
    rewrite (occurs_ci_same_case s s' _ Hlow),
      !(occurs_ci_opt_same_case s s' _ Hlow).
    reflexivity.
Qed.

Lemma find_movies_same_case (s s' : string) (w : world) :
  plain s -> plain s' -> map lower (chars s) = map lower (chars s') ->
  find (movies_query (Some s) None None None) (movies w)
  = find (movies_query (Some s') None None None) (movies w).
Proof.
  intros Hs Hs' Hlow.
  destruct (in_dec ascii_dec "000"%char (chars s)) as [Hin|Hnul].
  - assert (Hnul : ~ free_of "000" s) by (intros Hfree; exact (Hfree Hin)).
    assert (Hnul' : ~ free_of "000" s').
    { intros Hfree. apply Hnul. apply (same_case_nul s' s); [|exact Hfree].
      symmetry. exact Hlow. }
    rewrite !movies_search_query.
    rewrite (proj2 (String.eqb_neq s "") (not_free_not_empty s Hnul)).
    rewrite (proj2 (String.eqb_neq s' "") (not_free_not_empty s' Hnul')).
    rewrite !search_query_refused by assumption. reflexivity.
  - pose proof (same_case_nul s s' Hlow Hnul) as Hnul'.
    rewrite !find_Ok by (apply movies_search_ok; assumption).
    f_equal. apply List.filter_ext. intros m. apply bool_eq_iff.
    rewrite (movies_search_plain s m Hs Hnul), (movies_search_plain s' m Hs' Hnul').
    rewrite (occurs_ci_same_case s s' _ Hlow),
      !(occurs_ci_opt_same_case s s' _ Hlow).
    reflexivity.
Qed.

(** X18.  The letter case of a search text does not matter: two texts free
    of pattern characters that differ only in the case of their letters get
    the same answer from the actor listing, from the movie listing and from
    the global search. *)
Theorem search_ignores_case (s s' : string) (lim : option Z) (w : world) :
  plain s -> plain s' -> map lower (chars s) = map lower (chars s') ->
  get_actors (Some s) None None None None lim w
    = get_actors (Some s') None None None None lim w /\
  get_movies (Some s) None None None lim w
    = get_movies (Some s') None None None lim w /\
  global_search (Some s) w = global_search (Some s') w.
Proof.
  intros Hs Hs' Hlow. unfold get_actors, get_movies, global_search.
  rewrite !find_search_actors, !find_search_movies.
  rewrite (find_actors_same_case s s' w Hs Hs' Hlow).
  rewrite (find_movies_same_case s s' w Hs Hs' Hlow).
  repeat split; reflexivity.
Qed.

Lemma search_ignores_case_witness :
  get_actors (Some "MARION") None None None None None sample
  = get_actors (Some "marion") None None None None None sample.
Proof.
  destruct (search_ignores_case "MARION" "marion" None sample) as (Hactors & _).
  - unfold plain. simpl. repeat constructor.
  - unfold plain. simpl. repeat constructor.
  - vm_compute. reflexivity.
  - exact Hactors.
Defined.



(** ** Requests that fail *)

Lemma delete_one_none {T : Type} `{Document T} (q : query) (c : list T) :
  snd (delete_one q c) = 0%nat -> fst (delete_one q c) = c.
Proof.
  induction c as [|x r IH]; [reflexivity|]. cbn [delete_one].
  destruct (matches q (dict x)); [discriminate|].
  destruct (delete_one q r) as [r' n]. cbn [fst snd] in *.
  intros Hn. rewrite (IH Hn). reflexivity.
Qed.

Lemma overflow_field (f : json_field Z) :
  from_option fits_int64 true (optional f) = false ->
  exists z, f = Present z /\ fits_int64 z = false.
Proof.
  destruct f as [| |z]; try discriminate. intros Hz. exists z.
  split; [reflexivity | exact Hz].
Qed.

(** X20.  A create, an update or a delete that ends in an error leaves the
    store and the uploads exactly as they were.  A create ends in 422 for a
    payload that fails validation and in 500 for one whose integer does not
    fit in 8 bytes, and in no other error; an update ends in 422, in 404 for
    an identifier no record carries, and in 500 for such an integer sent for a
    stored record. *)
Theorem failed_write_changes_nothing (uuid4 : string) (utcnow : datetime)
    (x : string) (ba : ActorCreate.body) (bm : MovieCreate.body) (w : world) :
  (forall e w', create_actor uuid4 utcnow ba w = (Err e, w') ->
     w' = w /\
     (e = RequestValidationError \/
      e = InternalServerError /\
      exists z, ActorCreate.b_age ba = Present z /\ fits_int64 z = false)) /\
  (forall e w', create_movie uuid4 utcnow bm w = (Err e, w') ->
     w' = w /\
     (e = RequestValidationError \/
      e = InternalServerError /\
      exists z, MovieCreate.b_annee bm = Present z /\ fits_int64 z = false)) /\
  (forall e w', update_actor x ba w = (Err e, w') ->
     w' = w /\
     (e = RequestValidationError \/ e = HTTPException 404 "Actor not found" \/
      e = InternalServerError /\ ~ no_actor x w /\
      exists z, ActorCreate.b_age ba = Present z /\ fits_int64 z = false)) /\
  (forall e w', update_movie x bm w = (Err e, w') ->
     w' = w /\
     (e = RequestValidationError \/ e = HTTPException 404 "Movie not found" \/
      e = InternalServerError /\ ~ no_movie x w /\
      exists z, MovieCreate.b_annee bm = Present z /\ fits_int64 z = false)) /\
  (forall e w', delete_actor x w = (Err e, w') -> w' = w) /\
  (forall e w', delete_movie x w = (Err e, w') -> w' = w).
Proof.
  split; [|split; [|split; [|split; [|split]]]].
  - intros e w'. rewrite create_actor_world.
    destruct (ActorCreate.validate ba) as [c|] eqn:Hc; [|intros [= <- <-]; auto].
    cbv zeta.
    destruct (from_option fits_int64 true (ActorCreate.age c)) eqn:Hfit;
      [discriminate|].
    intros [= <- <-]. split; [reflexivity|]. right. split; [reflexivity|].
    apply overflow_field.
    destruct (actor_validate_fields ba c Hc) as (_ & Hage & _).
    rewrite <- Hage. exact Hfit.
  - intros e w'. rewrite create_movie_world.
    destruct (MovieCreate.validate bm) as [c|] eqn:Hc; [|intros [= <- <-]; auto].
    cbv zeta.
    destruct (from_option fits_int64 true (MovieCreate.annee c)) eqn:Hfit;
      [discriminate|].
    intros [= <- <-]. split; [reflexivity|]. right. split; [reflexivity|].
    apply overflow_field.
    destruct (movie_validate_fields bm c Hc) as (_ & Hannee & _).
    rewrite <- Hannee. exact Hfit.
  - intros e w'. unfold update_actor.
    destruct (ActorCreate.validate ba) as [c|] eqn:Hc; [|intros [= <- <-]; auto].
    destruct (find_one (by_id x) (actors w)) as [ex|] eqn:Hex;
      [|intros [= <- <-]; auto].
    unfold update_one. rewrite actor_update_encodable.
    destruct (from_option fits_int64 true (ActorCreate.age c)) eqn:Hfit.
    + cbv zeta. cbn [actors].
      rewrite (find_one_set_first _ (not_none (ActorCreate.to_dict c)) _ _ Hex);
        [discriminate|].
      rewrite actor_by_id, actor_update_keeps_id, <- actor_by_id.
      apply (find_one_matches _ _ _ Hex).
    + intros [= <- <-]. split; [reflexivity|]. right. right.
      split; [reflexivity|]. split.
      * intros Hno. apply no_actor_find in Hno. congruence.
      * apply overflow_field.
        destruct (actor_validate_fields ba c Hc) as (_ & Hage & _).
        rewrite <- Hage. exact Hfit.
  - intros e w'. unfold update_movie.
    destruct (MovieCreate.validate bm) as [c|] eqn:Hc; [|intros [= <- <-]; auto].
    destruct (find_one (by_id x) (movies w)) as [ex|] eqn:Hex;
      [|intros [= <- <-]; auto].
    unfold update_one. rewrite movie_update_encodable.
    destruct (from_option fits_int64 true (MovieCreate.annee c)) eqn:Hfit.
    + cbv zeta. cbn [movies].
      rewrite (find_one_set_first _ (not_none (MovieCreate.to_dict c)) _ _ Hex);
        [discriminate|].
      rewrite movie_by_id, movie_update_keeps_id, <- movie_by_id.
      apply (find_one_matches _ _ _ Hex).
    + intros [= <- <-]. split; [reflexivity|]. right. right.
      split; [reflexivity|]. split.
      * intros Hno. apply no_movie_find in Hno. congruence.
      * apply overflow_field.
        destruct (movie_validate_fields bm c Hc) as (_ & Hannee & _).
        rewrite <- Hannee. exact Hfit.
  - intros e w' Hdel.
    assert (Hw : w' = snd (delete_actor x w)) by (rewrite Hdel; reflexivity).
    assert (Hans : fst (delete_actor x w) = Err e) by (rewrite Hdel; reflexivity).
    rewrite delete_actor_answer in Hans. rewrite delete_actor_world in Hw.
    destruct (Nat.eqb_spec (snd (delete_one (by_id x) (actors w))) 0) as [Hn|_];
      [|discriminate Hans].
    rewrite (delete_one_none _ _ Hn) in Hw. rewrite Hw. apply world_eta.
  - intros e w' Hdel.
    assert (Hw : w' = snd (delete_movie x w)) by (rewrite Hdel; reflexivity).
    assert (Hans : fst (delete_movie x w) = Err e) by (rewrite Hdel; reflexivity).
    rewrite delete_movie_answer in Hans. rewrite delete_movie_world in Hw.
    destruct (Nat.eqb_spec (snd (delete_one (by_id x) (movies w))) 0) as [Hn|_];
      [|discriminate Hans].
    rewrite (delete_one_none _ _ Hn) in Hw. rewrite Hw. apply world_eta.
Qed.

Lemma failed_write_changes_nothing_witness :
  snd (update_actor "a1"
         (ActorCreate.mk_body Absent (Present 49) Absent Absent Absent) sample)
  = sample /\
  snd (update_actor "a1"
         (ActorCreate.mk_body (Present "Marion Cotillard") (Present (2 ^ 63))
            Absent Absent Absent) sample)
  = sample.
Proof.
  split.
  - destruct (failed_write_changes_nothing "u1" 7 "a1"
                (ActorCreate.mk_body Absent (Present 49) Absent Absent Absent)
                genre_only sample) as (_ & _ & Hupdate & _).
    destruct (Hupdate RequestValidationError
                (snd (update_actor "a1"
                        (ActorCreate.mk_body Absent (Present 49) Absent Absent
                           Absent)
                        sample))) as (Hsame & _).
    + vm_compute. reflexivity.
    + exact Hsame.
  - destruct (failed_write_changes_nothing "u1" 7 "a1"
                (ActorCreate.mk_body (Present "Marion Cotillard")
                   (Present (2 ^ 63)) Absent Absent Absent)
                genre_only sample) as (_ & _ & Hupdate & _).
    destruct (Hupdate InternalServerError
                (snd (update_actor "a1"
                        (ActorCreate.mk_body (Present "Marion Cotillard")
                           (Present (2 ^ 63)) Absent Absent Absent)
                        sample))) as (Hsame & _).
    + vm_compute. reflexivity.
    + exact Hsame.
Defined.
